(** * PoolX object pool: growth, shrink, refill and statistics

    A shallow embedding of the pool helpers ([pool/helpers.go]) and of the
    statistics snapshot, with the properties the specification states
    about them.

    Conventions of the embedding.
    - Go's [uint64] and [int] are integers of [Z]; every arithmetic
      operation that can leave the 64-bit range is followed by [wrapU64]
      or [wrapInt], conversions between the two are [toU64] and [toInt].
    - [float64] values that enter the capacity computations and the
      validation of the configuration are IEEE 754 binary64 values
      ([float64], module [Float64]): every operation rounds to nearest, ties to
      even, a comparison with a NaN is false, and the conversion to an
      integer discards the fraction.  The statistics that are only
      reported (utilization, requests per object, spill rate) are
      computed over the rationals of [Q].
    - [time.Time] and [time.Duration] are integers (nanoseconds).
    - Logging under [config.verbose] has no effect on the state and is
      left out. *)

From Stdlib Require Import ZArith QArith Qround List Lia Lqa Bool Permutation.
From Stdlib Require Import SpecFloat.
Import ListNotations.

Local Open Scope Z_scope.

(** ** Machine integers *)

Module Int64.

Definition wrapU64 (z : Z) : Z := z mod 2 ^ 64.

Definition wrapInt (z : Z) : Z := (z + 2 ^ 63) mod 2 ^ 64 - 2 ^ 63.

(** [uint64(i)] for an [int] and [int(u)] for a [uint64]. *)
Definition toU64 (i : Z) : Z := wrapU64 i.
Definition toInt (u : Z) : Z := wrapInt u.

Definition inU64 (z : Z) : Prop := 0 <= z < 2 ^ 64.
Definition inInt (z : Z) : Prop := - 2 ^ 63 <= z < 2 ^ 63.

End Int64.

Import Int64.

(** ** [float64]

    IEEE 754 binary64, over [spec_float] of the Standard Library at a
    precision of 53 bits and a maximal exponent of 1024. *)

Definition float64 : Type := spec_float.

Module Float64.

Definition prec : Z := 53.
Definition emax : Z := 1024.

Definition zero : float64 := S754_zero false.

(** [float64(n)] for an integer [n], and the value nearest to
    [m * 2^e]. *)
Definition ofInt (n : Z) : float64 := binary_normalize prec emax n 0 false.
Definition dyadic (m e : Z) : float64 := binary_normalize prec emax m e false.

Definition one : float64 := ofInt 1.

Definition mul : float64 -> float64 -> float64 := SFmul prec emax.
Definition sub : float64 -> float64 -> float64 := SFsub prec emax.
Definition div : float64 -> float64 -> float64 := SFdiv prec emax.

(** [a <= b] and [a < b]; both are false when one side is a NaN. *)
Definition leb : float64 -> float64 -> bool := SFleb.
Definition ltb : float64 -> float64 -> bool := SFltb.

Definition lt (a b : float64) : Prop := ltb a b = true.
Definition le (a b : float64) : Prop := leb a b = true.

Definition isNaN (x : float64) : bool :=
  match x with S754_nan => true | _ => false end.

(** What the test [x <= 0] lets through. *)
Definition positiveOrNaN (x : float64) : Prop :=
  isNaN x = true \/ lt zero x.

(** The float64 nearest to the decimal constant [n / d] of the source
    text, for two small integers. *)
Definition decimal (n d : Z) : float64 := div (ofInt n) (ofInt d).

(** The integer part of a finite value: the fraction is discarded. *)
Definition truncate (x : float64) : option Z :=
  match x with
  | S754_zero _ => Some 0
  | S754_finite s m e => Some (cond_Zopp s (Z.shiftl (Zpos m) e))
  | _ => None
  end.

(** The exact value of a finite float64, zero for the others. *)
Definition valueOf (x : float64) : Q :=
  match x with
  | S754_finite s m e =>
      match e with
      | Zneg k => cond_Zopp s (Zpos m) # (2 ^ k)
      | _ => inject_Z (cond_Zopp s (Zpos m) * 2 ^ e)
      end
  | _ => 0
  end.

(** Zero of either sign or a finite value above it. *)
Definition finiteNotNegative (x : float64) : bool :=
  match x with
  | S754_zero _ => true
  | S754_finite false _ _ => true
  | _ => false
  end.

(** A conversion to an integer type that cannot hold the integer part
    (or of a NaN or an infinity) succeeds with a value that depends on
    the implementation; [conversions] holds that value for the two
    target types, as a function of the float64 converted. *)
Record conversions := {
  uint64Outside : float64 -> Z;
  intOutside : float64 -> Z
}.

(** [uint64(x)] and [int(x)]. *)
Definition toUint64 (k : conversions) (x : float64) : Z :=
  match truncate x with
  | Some z =>
      if (0 <=? z) && (z <? 2 ^ 64) then z else wrapU64 (uint64Outside k x)
  | None => wrapU64 (uint64Outside k x)
  end.

Definition toInt (k : conversions) (x : float64) : Z :=
  match truncate x with
  | Some z =>
      if (- 2 ^ 63 <=? z) && (z <? 2 ^ 63) then z
      else wrapInt (intOutside k x)
  | None => wrapInt (intOutside k x)
  end.

(** [uint64(float64(c) * f)] and [int(float64(c) * f)]. *)
Definition scaleUint64 (k : conversions) (c : Z) (f : float64) : Z :=
  toUint64 k (mul (ofInt c) f).

Definition scaleInt (k : conversions) (c : Z) (f : float64) : Z :=
  toInt k (mul (ofInt c) f).

End Float64.

(** ** Configuration ([poolConfig] and its parts) *)

Record growthParameters := {
  exponentialThresholdFactor : float64;
  growthPercent : float64;
  fixedGrowthFactor : float64
}.

(** The fields of [shrinkParameters] that the helpers read. *)
Record shrinkParameters := {
  idleThreshold : Z;
  minIdleBeforeShrink : Z;
  shrinkPercent : float64;
  minCapacity : Z
}.

Module FastPath.
Record parameters := {
  enableChannelGrowth : bool;
  growthEventsTrigger : Z;
  shrinkEventsTrigger : Z;
  growth : growthParameters;
  shrink : shrinkParameters
}.
End FastPath.

(** The fields of [poolConfig] that the helpers read, and [allocAmount],
    the [alloc_amount] of the specification, which the growth controller
    reads. *)
Record poolConfig := {
  initialCapacity : Z;
  hardLimit : Z;
  allocAmount : Z;
  growth : growthParameters;
  shrink : shrinkParameters;
  fastPath : FastPath.parameters
}.

(** ** Statistics ([poolStats], the atomic counters and the time stamps) *)

Record poolStats := {
  objectsInUse : Z;
  l1HitCount : Z;
  blockedGets : Z;
  currentCapacity : Z;
  currentL1Capacity : Z;
  totalGrowthEvents : Z;
  totalShrinkEvents : Z;
  consecutiveShrinks : Z;
  lastResizeAtGrowthNum : Z;
  lastResizeAtShrinkNum : Z;
  lastShrinkTime : Z;
  lastGrowTime : Z;
  lastTimeCalledGet : Z
}.

Definition setObjectsInUse (v : Z) (s : poolStats) : poolStats :=
  {| objectsInUse := v; l1HitCount := l1HitCount s;
     blockedGets := blockedGets s; currentCapacity := currentCapacity s;
     currentL1Capacity := currentL1Capacity s;
     totalGrowthEvents := totalGrowthEvents s;
     totalShrinkEvents := totalShrinkEvents s;
     consecutiveShrinks := consecutiveShrinks s;
     lastResizeAtGrowthNum := lastResizeAtGrowthNum s;
     lastResizeAtShrinkNum := lastResizeAtShrinkNum s;
     lastShrinkTime := lastShrinkTime s; lastGrowTime := lastGrowTime s;
     lastTimeCalledGet := lastTimeCalledGet s |}.

Definition setL1HitCount (v : Z) (s : poolStats) : poolStats :=
  {| objectsInUse := objectsInUse s; l1HitCount := v;
     blockedGets := blockedGets s; currentCapacity := currentCapacity s;
     currentL1Capacity := currentL1Capacity s;
     totalGrowthEvents := totalGrowthEvents s;
     totalShrinkEvents := totalShrinkEvents s;
     consecutiveShrinks := consecutiveShrinks s;
     lastResizeAtGrowthNum := lastResizeAtGrowthNum s;
     lastResizeAtShrinkNum := lastResizeAtShrinkNum s;
     lastShrinkTime := lastShrinkTime s; lastGrowTime := lastGrowTime s;
     lastTimeCalledGet := lastTimeCalledGet s |}.

Definition setBlockedGets (v : Z) (s : poolStats) : poolStats :=
  {| objectsInUse := objectsInUse s; l1HitCount := l1HitCount s;
     blockedGets := v; currentCapacity := currentCapacity s;
     currentL1Capacity := currentL1Capacity s;
     totalGrowthEvents := totalGrowthEvents s;
     totalShrinkEvents := totalShrinkEvents s;
     consecutiveShrinks := consecutiveShrinks s;
     lastResizeAtGrowthNum := lastResizeAtGrowthNum s;
     lastResizeAtShrinkNum := lastResizeAtShrinkNum s;
     lastShrinkTime := lastShrinkTime s; lastGrowTime := lastGrowTime s;
     lastTimeCalledGet := lastTimeCalledGet s |}.

Definition setCurrentCapacity (v : Z) (s : poolStats) : poolStats :=
  {| objectsInUse := objectsInUse s; l1HitCount := l1HitCount s;
     blockedGets := blockedGets s; currentCapacity := v;
     currentL1Capacity := currentL1Capacity s;
     totalGrowthEvents := totalGrowthEvents s;
     totalShrinkEvents := totalShrinkEvents s;
     consecutiveShrinks := consecutiveShrinks s;
     lastResizeAtGrowthNum := lastResizeAtGrowthNum s;
     lastResizeAtShrinkNum := lastResizeAtShrinkNum s;
     lastShrinkTime := lastShrinkTime s; lastGrowTime := lastGrowTime s;
     lastTimeCalledGet := lastTimeCalledGet s |}.

Definition setCurrentL1Capacity (v : Z) (s : poolStats) : poolStats :=
  {| objectsInUse := objectsInUse s; l1HitCount := l1HitCount s;
     blockedGets := blockedGets s; currentCapacity := currentCapacity s;
     currentL1Capacity := v;
     totalGrowthEvents := totalGrowthEvents s;
     totalShrinkEvents := totalShrinkEvents s;
     consecutiveShrinks := consecutiveShrinks s;
     lastResizeAtGrowthNum := lastResizeAtGrowthNum s;
     lastResizeAtShrinkNum := lastResizeAtShrinkNum s;
     lastShrinkTime := lastShrinkTime s; lastGrowTime := lastGrowTime s;
     lastTimeCalledGet := lastTimeCalledGet s |}.

Definition setTotalGrowthEvents (v : Z) (s : poolStats) : poolStats :=
  {| objectsInUse := objectsInUse s; l1HitCount := l1HitCount s;
     blockedGets := blockedGets s; currentCapacity := currentCapacity s;
     currentL1Capacity := currentL1Capacity s;
     totalGrowthEvents := v;
     totalShrinkEvents := totalShrinkEvents s;
     consecutiveShrinks := consecutiveShrinks s;
     lastResizeAtGrowthNum := lastResizeAtGrowthNum s;
     lastResizeAtShrinkNum := lastResizeAtShrinkNum s;
     lastShrinkTime := lastShrinkTime s; lastGrowTime := lastGrowTime s;
     lastTimeCalledGet := lastTimeCalledGet s |}.

Definition setTotalShrinkEvents (v : Z) (s : poolStats) : poolStats :=
  {| objectsInUse := objectsInUse s; l1HitCount := l1HitCount s;
     blockedGets := blockedGets s; currentCapacity := currentCapacity s;
     currentL1Capacity := currentL1Capacity s;
     totalGrowthEvents := totalGrowthEvents s;
     totalShrinkEvents := v;
     consecutiveShrinks := consecutiveShrinks s;
     lastResizeAtGrowthNum := lastResizeAtGrowthNum s;
     lastResizeAtShrinkNum := lastResizeAtShrinkNum s;
     lastShrinkTime := lastShrinkTime s; lastGrowTime := lastGrowTime s;
     lastTimeCalledGet := lastTimeCalledGet s |}.

Definition setConsecutiveShrinks (v : Z) (s : poolStats) : poolStats :=
  {| objectsInUse := objectsInUse s; l1HitCount := l1HitCount s;
     blockedGets := blockedGets s; currentCapacity := currentCapacity s;
     currentL1Capacity := currentL1Capacity s;
     totalGrowthEvents := totalGrowthEvents s;
     totalShrinkEvents := totalShrinkEvents s;
     consecutiveShrinks := v;
     lastResizeAtGrowthNum := lastResizeAtGrowthNum s;
     lastResizeAtShrinkNum := lastResizeAtShrinkNum s;
     lastShrinkTime := lastShrinkTime s; lastGrowTime := lastGrowTime s;
     lastTimeCalledGet := lastTimeCalledGet s |}.

Definition setLastResizeAtGrowthNum (v : Z) (s : poolStats) : poolStats :=
  {| objectsInUse := objectsInUse s; l1HitCount := l1HitCount s;
     blockedGets := blockedGets s; currentCapacity := currentCapacity s;
     currentL1Capacity := currentL1Capacity s;
     totalGrowthEvents := totalGrowthEvents s;
     totalShrinkEvents := totalShrinkEvents s;
     consecutiveShrinks := consecutiveShrinks s;
     lastResizeAtGrowthNum := v;
     lastResizeAtShrinkNum := lastResizeAtShrinkNum s;
     lastShrinkTime := lastShrinkTime s; lastGrowTime := lastGrowTime s;
     lastTimeCalledGet := lastTimeCalledGet s |}.

Definition setLastResizeAtShrinkNum (v : Z) (s : poolStats) : poolStats :=
  {| objectsInUse := objectsInUse s; l1HitCount := l1HitCount s;
     blockedGets := blockedGets s; currentCapacity := currentCapacity s;
     currentL1Capacity := currentL1Capacity s;
     totalGrowthEvents := totalGrowthEvents s;
     totalShrinkEvents := totalShrinkEvents s;
     consecutiveShrinks := consecutiveShrinks s;
     lastResizeAtGrowthNum := lastResizeAtGrowthNum s;
     lastResizeAtShrinkNum := v;
     lastShrinkTime := lastShrinkTime s; lastGrowTime := lastGrowTime s;
     lastTimeCalledGet := lastTimeCalledGet s |}.

Definition setLastShrinkTime (v : Z) (s : poolStats) : poolStats :=
  {| objectsInUse := objectsInUse s; l1HitCount := l1HitCount s;
     blockedGets := blockedGets s; currentCapacity := currentCapacity s;
     currentL1Capacity := currentL1Capacity s;
     totalGrowthEvents := totalGrowthEvents s;
     totalShrinkEvents := totalShrinkEvents s;
     consecutiveShrinks := consecutiveShrinks s;
     lastResizeAtGrowthNum := lastResizeAtGrowthNum s;
     lastResizeAtShrinkNum := lastResizeAtShrinkNum s;
     lastShrinkTime := v; lastGrowTime := lastGrowTime s;
     lastTimeCalledGet := lastTimeCalledGet s |}.

Definition setLastGrowTime (v : Z) (s : poolStats) : poolStats :=
  {| objectsInUse := objectsInUse s; l1HitCount := l1HitCount s;
     blockedGets := blockedGets s; currentCapacity := currentCapacity s;
     currentL1Capacity := currentL1Capacity s;
     totalGrowthEvents := totalGrowthEvents s;
     totalShrinkEvents := totalShrinkEvents s;
     consecutiveShrinks := consecutiveShrinks s;
     lastResizeAtGrowthNum := lastResizeAtGrowthNum s;
     lastResizeAtShrinkNum := lastResizeAtShrinkNum s;
     lastShrinkTime := lastShrinkTime s; lastGrowTime := v;
     lastTimeCalledGet := lastTimeCalledGet s |}.

(** ** The atomic decrement loop

    [releaseObj], [reduceL1Hit] and [reduceBlockedGets] run the same loop
    on three counters: load the counter, stop when it is zero, otherwise
    try to swap in the value less one and repeat when the swap fails. *)

Module Atomic.

Definition Load (cell : Z) : Z := cell.

Definition CompareAndSwap (cell old new : Z) : bool * Z :=
  if cell =? old then (true, new) else (false, cell).

End Atomic.

(** The loop as one goroutine runs it alone.  Each unit of fuel is one
    iteration; [None] stands for a loop that is still running. *)
Fixpoint decrementLoop (fuel : nat) (cell : Z) : option Z :=
  match fuel with
  | O => None
  | S k =>
      let old := Atomic.Load cell in
      if old =? 0 then Some cell
      else
        let (swapped, cell') :=
          Atomic.CompareAndSwap cell old (wrapU64 (old - 1)) in
        if swapped then Some cell' else decrementLoop k cell'
  end.

Definition maxUint64 (a b : Z) : Z := if a >? b then a else b.

Definition calculateNewPoolCapacity (conv : Float64.conversions)
    (currentCap threshold fixedStep : Z) (cfg : growthParameters) : Z :=
  if currentCap <? threshold then
    let growth :=
      maxUint64 (Float64.scaleUint64 conv currentCap (growthPercent cfg)) 1 in
    wrapU64 (currentCap + growth)
  else
    wrapU64 (currentCap + fixedStep).

(** ** The decrement loop under interleaving

    Several goroutines run the loop on one counter.  A goroutine is at
    the load, or holds the value [old] it loaded, or has left the loop;
    [Done] remembers whether it left through a successful swap.  One step
    of the system is one atomic operation of one goroutine. *)

Module Concurrent.

Inductive pc :=
| AtLoad
| AtCheck (old : Z)
| Done (swapped : bool).

Definition threadStep (cell : Z) (t : pc) : Z * pc :=
  match t with
  | AtLoad => (cell, AtCheck (Atomic.Load cell))
  | AtCheck old =>
      if old =? 0 then (cell, Done false)
      else
        let (swapped, cell') :=
          Atomic.CompareAndSwap cell old (wrapU64 (old - 1)) in
        if swapped then (cell', Done true) else (cell', AtLoad)
  | Done b => (cell, Done b)
  end.

(** The goroutine of index [i] takes a step. *)
Fixpoint stepAt (i : nat) (cell : Z) (ts : list pc) : Z * list pc :=
  match ts with
  | [] => (cell, [])
  | t :: rest =>
      match i with
      | O => let (cell', t') := threadStep cell t in (cell', t' :: rest)
      | S j => let (cell', rest') := stepAt j cell rest in (cell', t :: rest')
      end
  end.

(** A schedule names the goroutine that moves at each step. *)
Fixpoint run (schedule : list nat) (cell : Z) (ts : list pc) : Z * list pc :=
  match schedule with
  | [] => (cell, ts)
  | i :: rest => let (cell', ts') := stepAt i cell ts in run rest cell' ts'
  end.

Definition isDone (t : pc) : bool :=
  match t with Done _ => true | _ => false end.

Definition swaps (t : pc) : Z :=
  match t with Done true => 1 | _ => 0 end.

Definition sawZero (t : pc) : bool :=
  match t with
  | AtCheck old => old =? 0
  | Done false => true
  | _ => false
  end.

Fixpoint totalSwaps (ts : list pc) : Z :=
  match ts with
  | [] => 0
  | t :: rest => swaps t + totalSwaps rest
  end.

(** The invariant of the interleaved runs. *)
Definition counterInv (c0 cell : Z) (ts : list pc) : Prop :=
  0 <= cell <= c0
  /\ cell + totalSwaps ts = c0
  /\ (existsb sawZero ts = true -> cell = 0).

End Concurrent.

(** ** The statistics snapshot ([GetPoolStatsSnapshot] and [Validate]) *)

Module Snapshot.

Record poolStats := {
  objectsCreated : Z;
  objectsDestroyed : Z;
  initialCapacity : Z;
  currentCapacity : Z;
  totalGets : Z;
  totalGrowthEvents : Z;
  FastReturnHit : Z;
  FastReturnMiss : Z;
  totalShrinkEvents : Z;
  consecutiveShrinks : Z;
  lastShrinkTime : Z;
  lastL1ResizeAtGrowthNum : Z;
  lastResizeAtShrinkNum : Z;
  currentL1Capacity : Z
}.

(** The snapshot.  Its fields [FastReturnHit] and [FastReturnMiss] carry
    the prefix [Snap] to keep them apart from those of [poolStats].
    [Utilization], a quotient of two [float64] that is not a number when
    the capacity is zero, is left out. *)
Record PoolStatsSnapshot := {
  InitialCapacity : Z;
  CurrentCapacity : Z;
  ObjectsInUse : Z;
  TotalGets : Z;
  TotalGrowthEvents : Z;
  ObjectsCreated : Z;
  ObjectsDestroyed : Z;
  SnapFastReturnHit : Z;
  SnapFastReturnMiss : Z;
  TotalShrinkEvents : Z;
  ConsecutiveShrinks : Z;
  LastShrinkTime : Z;
  LastL1ResizeAtGrowthNum : Z;
  LastResizeAtShrinkNum : Z;
  CurrentL1Capacity : Z;
  AvailableObjects : Z;
  RingBufferLength : Z;
  L1Length : Z;
  L2SpillRate : Q
}.

(** The pool as the snapshot reads it: its statistics, the values in the
    L1 channel and the values in the ring buffer. *)
Record Pool (T : Type) := {
  stats : poolStats;
  cacheL1 : list T;
  pool : list T
}.

Arguments stats {T}.
Arguments cacheL1 {T}.
Arguments pool {T}.

Definition GetPoolStatsSnapshot {T : Type} (p : Pool T) : PoolStatsSnapshot :=
  let fastReturnHit := FastReturnHit (stats p) in
  let fastReturnMiss := FastReturnMiss (stats p) in
  let totalReturns := wrapU64 (fastReturnHit + fastReturnMiss) in
  let l2SpillRate :=
    if totalReturns >? 0
    then (inject_Z fastReturnMiss / inject_Z totalReturns)%Q
    else 0%Q in
  let l1Len := Z.of_nat (length (cacheL1 p)) in
  let totalPuts :=
    wrapU64 (FastReturnHit (stats p) + FastReturnMiss (stats p)) in
  let totalGets := totalGets (stats p) in
  let objectsInUse := wrapU64 (totalGets - totalPuts) in
  {| InitialCapacity := initialCapacity (stats p);
     CurrentCapacity := currentCapacity (stats p);
     ObjectsInUse := objectsInUse;
     TotalGets := totalGets;
     TotalGrowthEvents := totalGrowthEvents (stats p);
     ObjectsCreated := objectsCreated (stats p);
     ObjectsDestroyed := objectsDestroyed (stats p);
     SnapFastReturnHit := fastReturnHit;
     SnapFastReturnMiss := fastReturnMiss;
     TotalShrinkEvents := totalShrinkEvents (stats p);
     ConsecutiveShrinks := consecutiveShrinks (stats p);
     LastShrinkTime := lastShrinkTime (stats p);
     LastL1ResizeAtGrowthNum := lastL1ResizeAtGrowthNum (stats p);
     LastResizeAtShrinkNum := lastResizeAtShrinkNum (stats p);
     CurrentL1Capacity := currentL1Capacity (stats p);
     AvailableObjects :=
       wrapInt (currentCapacity (stats p) - toInt objectsInUse);
     RingBufferLength := Z.of_nat (length (pool p));
     L1Length := l1Len;
     L2SpillRate := l2SpillRate |}.

(** The four errors of [Validate], with the numbers its messages print. *)
Inductive validateError :=
| ReturnsMismatch (totalReturns totalGets : Z)
| GetsMismatch (totalGets reqNum : Z)
| InUseNotZero (objectsInUse : Z)
| AvailableMismatch (availableObjects currentCapacity : Z).

(** [Validate] has a pointer receiver: it returns the snapshot it leaves
    behind together with its error. *)
Definition Validate (s : PoolStatsSnapshot) (reqNum : Z)
  : PoolStatsSnapshot * option validateError :=
  let totalReturns :=
    wrapU64 (SnapFastReturnHit s + SnapFastReturnMiss s) in
  if negb (totalReturns =? TotalGets s) then
    (s, Some (ReturnsMismatch totalReturns (TotalGets s)))
  else if negb (TotalGets s =? toU64 reqNum) then
    (s, Some (GetsMismatch (TotalGets s) reqNum))
  else if negb (ObjectsInUse s =? 0) then
    (s, Some (InUseNotZero (ObjectsInUse s)))
  else if negb (AvailableObjects s =? CurrentCapacity s) then
    (s, Some (AvailableMismatch (AvailableObjects s) (CurrentCapacity s)))
  else (s, None).

End Snapshot.

(** ** Shrink parameters in full and their defaults

    [shrinkParameters] with all its fields, as [ApplyDefaults] and the
    configuration builder write them.  The type [F] of its two [float64]
    fields is left open: the configuration builder, which compares them
    with constants, has them as [float64]; the utilization check, which
    compares one of them with a ratio computed over [Q], has them as
    rationals. *)

Module Shrink.

Set Implicit Arguments.

Section Over.

Variable F : Type.

Record shrinkDefaults := {
  interval : Z;
  idle : Z;
  minIdle : Z;
  cooldown : Z;
  utilization : F;
  underutilized : Z;
  percent : F;
  maxShrinks : Z
}.

Record parameters := {
  enforceCustomConfig : bool;
  aggressivenessLevel : Z;
  checkInterval : Z;
  idleThreshold : Z;
  minIdleBeforeShrink : Z;
  shrinkCooldown : Z;
  minUtilizationBeforeShrink : F;
  stableUnderutilizationRounds : Z;
  shrinkPercent : F;
  maxConsecutiveShrinks : Z;
  minCapacity : Z
}.

(** The package-level constants and the table of defaults that the
    functions below read; their declarations are not among the sources,
    so they are taken as a parameter.  The table is a Go map from level
    to defaults. *)
Record constants := {
  AggressivenessDisabled : Z;
  AggressivenessExtreme : Z;
  defaultMinCapacity : Z;
  defaultL1MinCapacity : Z;
  defaultShrinkMap : Z -> option shrinkDefaults
}.

Definition getShrinkDefaultsMap (k : constants)
  : Z -> option shrinkDefaults :=
  defaultShrinkMap k.

Definition setLevel (level : Z) (p : parameters) : parameters :=
  {| enforceCustomConfig := enforceCustomConfig p;
     aggressivenessLevel := level;
     checkInterval := checkInterval p;
     idleThreshold := idleThreshold p;
     minIdleBeforeShrink := minIdleBeforeShrink p;
     shrinkCooldown := shrinkCooldown p;
     minUtilizationBeforeShrink := minUtilizationBeforeShrink p;
     stableUnderutilizationRounds := stableUnderutilizationRounds p;
     shrinkPercent := shrinkPercent p;
     maxConsecutiveShrinks := maxConsecutiveShrinks p;
     minCapacity := minCapacity p |}.

Definition setEnforce (b : bool) (p : parameters) : parameters :=
  {| enforceCustomConfig := b;
     aggressivenessLevel := aggressivenessLevel p;
     checkInterval := checkInterval p;
     idleThreshold := idleThreshold p;
     minIdleBeforeShrink := minIdleBeforeShrink p;
     shrinkCooldown := shrinkCooldown p;
     minUtilizationBeforeShrink := minUtilizationBeforeShrink p;
     stableUnderutilizationRounds := stableUnderutilizationRounds p;
     shrinkPercent := shrinkPercent p;
     maxConsecutiveShrinks := maxConsecutiveShrinks p;
     minCapacity := minCapacity p |}.

Definition setMinCapacity (c : Z) (p : parameters) : parameters :=
  {| enforceCustomConfig := enforceCustomConfig p;
     aggressivenessLevel := aggressivenessLevel p;
     checkInterval := checkInterval p;
     idleThreshold := idleThreshold p;
     minIdleBeforeShrink := minIdleBeforeShrink p;
     shrinkCooldown := shrinkCooldown p;
     minUtilizationBeforeShrink := minUtilizationBeforeShrink p;
     stableUnderutilizationRounds := stableUnderutilizationRounds p;
     shrinkPercent := shrinkPercent p;
     maxConsecutiveShrinks := maxConsecutiveShrinks p;
     minCapacity := c |}.

Definition ApplyDefaults (k : constants)
    (table : Z -> option shrinkDefaults) (p : parameters) : parameters :=
  let p :=
    if aggressivenessLevel p <? AggressivenessDisabled k
    then setLevel (AggressivenessDisabled k) p else p in
  let p :=
    if aggressivenessLevel p >? AggressivenessExtreme k
    then setLevel (AggressivenessExtreme k) p else p in
  match table (aggressivenessLevel p) with
  | None => p
  | Some def =>
      {| enforceCustomConfig := enforceCustomConfig p;
         aggressivenessLevel := aggressivenessLevel p;
         checkInterval := interval def;
         idleThreshold := idle def;
         minIdleBeforeShrink := minIdle def;
         shrinkCooldown := cooldown def;
         minUtilizationBeforeShrink := utilization def;
         stableUnderutilizationRounds := underutilized def;
         shrinkPercent := percent def;
         maxConsecutiveShrinks := maxShrinks def;
         minCapacity := defaultMinCapacity k |}
  end.

(** The level [ApplyDefaults] settles on. *)
Definition clampedLevel (k : constants) (level : Z) : Z :=
  let l := if level <? AggressivenessDisabled k
           then AggressivenessDisabled k else level in
  if l >? AggressivenessExtreme k then AggressivenessExtreme k else l.

End Over.

Unset Implicit Arguments.

End Shrink.

(** ** The configuration builder ([pool-structs.go])

    The builder holds a pointer to one configuration and every setter
    returns the builder it was called on; the model passes the
    configuration along.  The shrink parameters of the pool and those of
    the fast path are two objects.  A setter that panics returns
    [None]. *)

Module Builder.

Module FP.
Record parameters := {
  bufferSize : Z;
  fillAggressiveness : float64;
  refillPercent : float64;
  enableChannelGrowth : bool;
  growthEventsTrigger : Z;
  growth : growthParameters;
  shrinkEventsTrigger : Z;
  shrink : Shrink.parameters float64
}.
End FP.

Record poolConfig := {
  initialCapacity : Z;
  hardLimit : Z;
  hardLimitBufferSize : Z;
  shrink : Shrink.parameters float64;
  growth : growthParameters;
  fastPath : FP.parameters
}.

Record poolConfigBuilder := { config : poolConfig }.

Definition withInitialCapacity (c : Z) (b : poolConfigBuilder) :=
  {| config :=
       {| initialCapacity := c; hardLimit := hardLimit (config b);
          hardLimitBufferSize := hardLimitBufferSize (config b);
          shrink := shrink (config b); growth := growth (config b);
          fastPath := fastPath (config b) |} |}.

Definition withHardLimit (c : Z) (b : poolConfigBuilder) :=
  {| config :=
       {| initialCapacity := initialCapacity (config b); hardLimit := c;
          hardLimitBufferSize := hardLimitBufferSize (config b);
          shrink := shrink (config b); growth := growth (config b);
          fastPath := fastPath (config b) |} |}.

Definition withShrink
    (s : Shrink.parameters float64) (b : poolConfigBuilder) :=
  {| config :=
       {| initialCapacity := initialCapacity (config b);
          hardLimit := hardLimit (config b);
          hardLimitBufferSize := hardLimitBufferSize (config b);
          shrink := s; growth := growth (config b);
          fastPath := fastPath (config b) |} |}.

Definition withGrowth (g : growthParameters) (b : poolConfigBuilder) :=
  {| config :=
       {| initialCapacity := initialCapacity (config b);
          hardLimit := hardLimit (config b);
          hardLimitBufferSize := hardLimitBufferSize (config b);
          shrink := shrink (config b); growth := g;
          fastPath := fastPath (config b) |} |}.

Definition withFastPathShrink
    (s : Shrink.parameters float64) (b : poolConfigBuilder) :=
  let fp := fastPath (config b) in
  {| config :=
       {| initialCapacity := initialCapacity (config b);
          hardLimit := hardLimit (config b);
          hardLimitBufferSize := hardLimitBufferSize (config b);
          shrink := shrink (config b); growth := growth (config b);
          fastPath :=
            {| FP.bufferSize := FP.bufferSize fp;
               FP.fillAggressiveness := FP.fillAggressiveness fp;
               FP.refillPercent := FP.refillPercent fp;
               FP.enableChannelGrowth := FP.enableChannelGrowth fp;
               FP.growthEventsTrigger := FP.growthEventsTrigger fp;
               FP.growth := FP.growth fp;
               FP.shrinkEventsTrigger := FP.shrinkEventsTrigger fp;
               FP.shrink := s |} |} |}.

Definition SetInitialCapacity (cap : Z) (b : poolConfigBuilder) :=
  withInitialCapacity cap b.

Definition SetHardLimit (count : Z) (b : poolConfigBuilder) :=
  withHardLimit count b.

Definition SetGrowthExponentialThresholdFactor
    (factor : float64) (b : poolConfigBuilder) :=
  if Float64.ltb Float64.zero factor then
    withGrowth
      {| exponentialThresholdFactor := factor;
         growthPercent := growthPercent (growth (config b));
         fixedGrowthFactor := fixedGrowthFactor (growth (config b)) |} b
  else b.

Definition SetGrowthPercent (percent : float64) (b : poolConfigBuilder) :=
  if Float64.ltb Float64.zero percent then
    withGrowth
      {| exponentialThresholdFactor :=
           exponentialThresholdFactor (growth (config b));
         growthPercent := percent;
         fixedGrowthFactor := fixedGrowthFactor (growth (config b)) |} b
  else b.

Definition SetFixedGrowthFactor (factor : float64) (b : poolConfigBuilder) :=
  if Float64.ltb Float64.zero factor then
    withGrowth
      {| exponentialThresholdFactor :=
           exponentialThresholdFactor (growth (config b));
         growthPercent := growthPercent (growth (config b));
         fixedGrowthFactor := factor |} b
  else b.

Definition SetMinShrinkCapacity (minCap : Z) (b : poolConfigBuilder) :=
  withShrink (Shrink.setMinCapacity minCap (shrink (config b))) b.

Definition EnforceCustomConfig (k : Shrink.constants float64)
    (b : poolConfigBuilder) : poolConfigBuilder :=
  let s := Shrink.setEnforce true (shrink (config b)) in
  let s := Shrink.setLevel (Shrink.AggressivenessDisabled k) s in
  withShrink (Shrink.ApplyDefaults k (Shrink.defaultShrinkMap k) s) b.

Definition levelOutOfBounds
    (k : Shrink.constants float64) (level : Z) : bool :=
  (level <=? Shrink.AggressivenessDisabled k)
  || (level >? Shrink.AggressivenessExtreme k).

Definition SetShrinkAggressiveness (k : Shrink.constants float64)
    (level : Z) (b : poolConfigBuilder) : option poolConfigBuilder :=
  if Shrink.enforceCustomConfig (shrink (config b)) then None
  else if levelOutOfBounds k level then None
  else
    let b :=
      withShrink
        (Shrink.ApplyDefaults k (Shrink.defaultShrinkMap k)
           (Shrink.setLevel level (shrink (config b)))) b in
    let fs :=
      Shrink.ApplyDefaults k (Shrink.defaultShrinkMap k)
        (Shrink.setLevel level (FP.shrink (fastPath (config b)))) in
    Some (withFastPathShrink
            (Shrink.setMinCapacity (Shrink.defaultL1MinCapacity k) fs) b).

Definition SetFastPathShrinkAggressiveness (k : Shrink.constants float64)
    (level : Z) (b : poolConfigBuilder) : option poolConfigBuilder :=
  if Shrink.enforceCustomConfig (FP.shrink (fastPath (config b))) then None
  else if levelOutOfBounds k level then None
  else
    Some (withFastPathShrink
            (Shrink.ApplyDefaults k (Shrink.defaultShrinkMap k)
               (Shrink.setLevel level (FP.shrink (fastPath (config b)))))
            b).

(** The errors of [Build], one per message; the two that print the
    offending factor carry it. *)
Inductive buildError :=
| ErrInitialCapacity
| ErrHardLimit
| ErrHardLimitBelowInitial
| ErrHardLimitBelowMinCapacity
| ErrHardLimitBelowBufferSize
| ErrHardLimitBufferSize
| ErrMaxConsecutiveShrinks
| ErrCheckInterval
| ErrIdleThreshold
| ErrMinIdleBeforeShrink
| ErrIdleBelowCheckInterval
| ErrMinCapacityAboveInitial
| ErrShrinkCooldown
| ErrMinUtilization
| ErrStableRounds
| ErrShrinkPercent
| ErrMinCapacity
| ErrExponentialThresholdFactor
| ErrGrowthPercent (given : float64)
| ErrFixedGrowthFactor (given : float64)
| ErrBuffer
| ErrFillAggressiveness
| ErrRefillPercent
| ErrGrowthEventsTrigger
| ErrFastExponentialThresholdFactor
| ErrFastGrowthPercent
| ErrFastFixedGrowthFactor
| ErrShrinkEventsTrigger
| ErrFastMinCapacity
| ErrFastShrinkPercent.

(** The comparisons [a <= b], [a > b] and [a >= b] of [float64] values
    against the constants [0] and [1.0]; each is false of a NaN. *)
Definition fle (a b : float64) : bool := Float64.leb a b.
Definition fgt (a b : float64) : bool := Float64.ltb b a.
Definition fge (a b : float64) : bool := Float64.leb b a.

(** [if bad { return nil, e }] followed by the rest of the function. *)
Definition failIf {A} (bad : bool) (e : buildError)
    (rest : buildError + A) : buildError + A :=
  if bad then inl e else rest.

Notation "'reject' bad 'with' e ';;' rest" :=
  (failIf bad e rest)
  (at level 10, bad at level 99, e at level 99, rest at level 200).

Definition Build (b : poolConfigBuilder) : buildError + poolConfig :=
  let c := config b in
  reject initialCapacity c <=? 0 with ErrInitialCapacity ;;
  reject hardLimit c <=? 0 with ErrHardLimit ;;
  reject hardLimit c <? initialCapacity c with ErrHardLimitBelowInitial ;;
  reject hardLimit c <? Shrink.minCapacity (shrink c)
    with ErrHardLimitBelowMinCapacity ;;
  reject hardLimit c <? FP.bufferSize (fastPath c)
    with ErrHardLimitBelowBufferSize ;;
  reject hardLimitBufferSize c <? 2 with ErrHardLimitBufferSize ;;
  let sp := shrink c in
  let checked : buildError + poolConfig :=
    let gp := growth c in
    reject fle (exponentialThresholdFactor gp) Float64.zero
      with ErrExponentialThresholdFactor ;;
    reject fle (growthPercent gp) Float64.zero
      with ErrGrowthPercent (growthPercent gp) ;;
    reject fle (fixedGrowthFactor gp) Float64.zero
      with ErrFixedGrowthFactor (fixedGrowthFactor gp) ;;
    let fp := fastPath c in
    reject FP.bufferSize fp <=? 0 with ErrBuffer ;;
    reject fle (FP.fillAggressiveness fp) Float64.zero
           || fgt (FP.fillAggressiveness fp) Float64.one
      with ErrFillAggressiveness ;;
    reject fle (FP.refillPercent fp) Float64.zero
           || fge (FP.refillPercent fp) Float64.one
      with ErrRefillPercent ;;
    reject FP.growthEventsTrigger fp <=? 0 with ErrGrowthEventsTrigger ;;
    reject fle (exponentialThresholdFactor (FP.growth fp)) Float64.zero
      with ErrFastExponentialThresholdFactor ;;
    reject fle (growthPercent (FP.growth fp)) Float64.zero
      with ErrFastGrowthPercent ;;
    reject fle (fixedGrowthFactor (FP.growth fp)) Float64.zero
      with ErrFastFixedGrowthFactor ;;
    reject FP.shrinkEventsTrigger fp <=? 0 with ErrShrinkEventsTrigger ;;
    reject Shrink.minCapacity (FP.shrink fp) <=? 0
      with ErrFastMinCapacity ;;
    reject fle (Shrink.shrinkPercent (FP.shrink fp)) Float64.zero
      with ErrFastShrinkPercent ;;
    inr c in
  if Shrink.enforceCustomConfig sp then
    reject Shrink.maxConsecutiveShrinks sp <=? 0
      with ErrMaxConsecutiveShrinks ;;
    reject Shrink.checkInterval sp <=? 0 with ErrCheckInterval ;;
    reject Shrink.idleThreshold sp <=? 0 with ErrIdleThreshold ;;
    reject Shrink.minIdleBeforeShrink sp <=? 0
      with ErrMinIdleBeforeShrink ;;
    reject Shrink.idleThreshold sp <? Shrink.checkInterval sp
      with ErrIdleBelowCheckInterval ;;
    reject Shrink.minCapacity sp >? initialCapacity c
      with ErrMinCapacityAboveInitial ;;
    reject Shrink.shrinkCooldown sp <=? 0 with ErrShrinkCooldown ;;
    reject fle (Shrink.minUtilizationBeforeShrink sp) Float64.zero
           || fgt (Shrink.minUtilizationBeforeShrink sp) Float64.one
      with ErrMinUtilization ;;
    reject Shrink.stableUnderutilizationRounds sp <=? 0
      with ErrStableRounds ;;
    reject fle (Shrink.shrinkPercent sp) Float64.zero
           || fgt (Shrink.shrinkPercent sp) Float64.one
      with ErrShrinkPercent ;;
    reject Shrink.minCapacity sp <=? 0 with ErrMinCapacity ;;
    checked
  else checked.

End Builder.

(** ** The peak loop of [updateUsageStats]

    [updateUsageStats] raises [peakInUse] to the count of objects in use
    it has just obtained: load the peak, stop when the count does not
    exceed it, otherwise try to swap the count in and repeat when the
    swap fails. *)

Module PeakLoop.

(** The loop as one goroutine runs it alone, one iteration per unit of
    fuel. *)
Fixpoint raisePeakLoop (fuel : nat) (cell currentInUse : Z) : option Z :=
  match fuel with
  | O => None
  | S k =>
      let peak := Atomic.Load cell in
      if currentInUse <=? peak then Some cell
      else
        let (swapped, cell') :=
          Atomic.CompareAndSwap cell peak currentInUse in
        if swapped then Some cell' else raisePeakLoop k cell' currentInUse
  end.

(** Under interleaving: a goroutine is at the load, or holds the peak it
    loaded, or has left the loop; it carries its own [currentInUse]. *)
Inductive pc :=
| AtLoad
| AtCheck (peak : Z)
| Done.

Definition threadStep (cell currentInUse : Z) (t : pc) : Z * pc :=
  match t with
  | AtLoad => (cell, AtCheck (Atomic.Load cell))
  | AtCheck peak =>
      if currentInUse <=? peak then (cell, Done)
      else
        let (swapped, cell') :=
          Atomic.CompareAndSwap cell peak currentInUse in
        if swapped then (cell', Done) else (cell', AtLoad)
  | Done => (cell, Done)
  end.

Fixpoint stepAt (i : nat) (cell : Z) (ts : list (Z * pc))
  : Z * list (Z * pc) :=
  match ts with
  | [] => (cell, [])
  | (v, t) :: rest =>
      match i with
      | O => let (cell', t') := threadStep cell v t in (cell', (v, t') :: rest)
      | S j =>
          let (cell', rest') := stepAt j cell rest in (cell', (v, t) :: rest')
      end
  end.

Fixpoint run (schedule : list nat) (cell : Z) (ts : list (Z * pc))
  : Z * list (Z * pc) :=
  match schedule with
  | [] => (cell, ts)
  | i :: rest => let (cell', ts') := stepAt i cell ts in run rest cell' ts'
  end.

Definition isDone (vt : Z * pc) : bool :=
  match snd vt with Done => true | _ => false end.

(** The goroutines at their start, one per count. *)
Definition start (counts : list Z) : list (Z * pc) :=
  map (fun v => (v, AtLoad)) counts.

(** The largest of a peak and a list of counts. *)
Definition maxOf (c0 : Z) (counts : list Z) : Z := fold_right Z.max c0 counts.

(** What a goroutine knows is below the peak. *)
Definition settled (cell : Z) (vt : Z * pc) : Prop :=
  match snd vt with
  | AtLoad => True
  | AtCheck peak => peak <= cell
  | Done => fst vt <= cell
  end.

Definition peakInv (c0 cell : Z) (ts : list (Z * pc)) : Prop :=
  c0 <= cell
  /\ (cell = c0 \/ In cell (map fst ts))
  /\ Forall (settled cell) ts.

End PeakLoop.

(** ** The pool over its two tiers *)

Set Implicit Arguments.

Section PoolModel.

Variable T : Type.

(** What the implementation makes of a conversion out of range. *)
Variable conv : Float64.conversions.

(** *** L1: a buffered channel *)

Record channel := { chItems : list T; chCap : Z }.

Definition chLen (c : channel) : Z := Z.of_nat (length (chItems c)).

(** [make(chan T, n)] panics on a negative size. *)
Definition make (n : Z) : option channel :=
  if n <? 0 then None else Some {| chItems := []; chCap := n |}.

(** [select { case c <- v: ...; default: ... }] *)
Definition trySend (c : channel) (v : T) : option channel :=
  if chLen c <? chCap c
  then Some {| chItems := chItems c ++ [v]; chCap := chCap c |}
  else None.

(** [select { case v := <-c: ...; default: ... }] *)
Definition tryRecv (c : channel) : option (T * channel) :=
  match chItems c with
  | [] => None
  | v :: rest => Some (v, {| chItems := rest; chCap := chCap c |})
  end.

(** *** L2: the ring buffer *)

Inductive rbError :=
| ErrIsEmpty
| ErrIsFull
| ErrTooMuchDataToWrite
| ErrInvalidLength.

Definition isErrIsEmpty (e : rbError) : bool :=
  match e with ErrIsEmpty => true | _ => false end.

(** Modelled from the spec: what the ring buffer's [GetN] answers to a
    request for no items, which neither the sources nor the
    specification say.  It takes nothing from the buffer; whether the
    slice it returns is [nil] or an empty one, and the error it returns
    with it, if any, are left open. *)
Record emptyAnswer := {
  nilSlice : bool;
  failure : option rbError
}.

Variable emptyRequest : emptyAnswer.

(** Modelled from the spec: the ring buffer ([RingBuffer], with [New],
    [CopyConfig], [Length], [Write], [WriteMany], [GetN],
    [ClearRemaining] and the error [ErrIsEmpty]) is not among the
    sources.  Following section 6 of the specification it is a bounded
    FIFO; the model is the non-blocking one, in which an operation that
    cannot proceed returns an error.  [GetN] on an empty buffer returns
    the empty sentinel; the slice it returns is [None] when it is [nil],
    which [refill] tells from an empty one.  [ClearRemaining] empties
    the buffer; the call takes no argument and has no part in the calls
    of the pool's cleaner. *)
Record RingBuffer := {
  rbItems : list T;
  rbCap : Z;
  rbBlock : bool;
  rbRTimeout : Z;
  rbWTimeout : Z
}.

Definition setRbItems (l : list T) (r : RingBuffer) : RingBuffer :=
  {| rbItems := l; rbCap := rbCap r; rbBlock := rbBlock r;
     rbRTimeout := rbRTimeout r; rbWTimeout := rbWTimeout r |}.

Definition New (capacity : Z) : RingBuffer :=
  {| rbItems := []; rbCap := capacity; rbBlock := false;
     rbRTimeout := 0; rbWTimeout := 0 |}.

Definition CopyConfig (r other : RingBuffer) : RingBuffer :=
  {| rbItems := rbItems r; rbCap := rbCap r; rbBlock := rbBlock other;
     rbRTimeout := rbRTimeout other; rbWTimeout := rbWTimeout other |}.

Definition Length (r : RingBuffer) : Z := Z.of_nat (length (rbItems r)).

Definition Write (r : RingBuffer) (v : T) : RingBuffer * option rbError :=
  if Length r <? rbCap r
  then (setRbItems (rbItems r ++ [v]) r, None)
  else (r, Some ErrIsFull).

Definition WriteMany (r : RingBuffer) (vs : list T)
  : RingBuffer * Z * option rbError :=
  if Length r + Z.of_nat (length vs) <=? rbCap r
  then (setRbItems (rbItems r ++ vs) r, Z.of_nat (length vs), None)
  else (r, 0, Some ErrTooMuchDataToWrite).

Definition GetN (r : RingBuffer) (n : Z)
  : RingBuffer * option (list T) * option rbError :=
  if n <=? 0 then
    (r, if nilSlice emptyRequest then None else Some [],
     failure emptyRequest)
  else if Length r =? 0 then (r, None, Some ErrIsEmpty)
  else (setRbItems (skipn (Z.to_nat n) (rbItems r)) r,
        Some (firstn (Z.to_nat n) (rbItems r)), None).

(** The elements of a slice, as [range] and [WriteMany] see them: a
    [nil] slice has none. *)
Definition elements (items : option (list T)) : list T :=
  match items with
  | Some l => l
  | None => []
  end.

Definition ClearRemaining (r : RingBuffer) : RingBuffer := setRbItems [] r.

(** *** The pool

    The struct [pool] of the source; the record is capitalised because
    its ring-buffer field is itself called [pool].  [cleaned] is the
    trace of the calls of [p.cleaner], oldest first. *)
Record Pool := {
  cacheL1 : channel;
  pool : RingBuffer;
  config : poolConfig;
  stats : poolStats;
  isGrowthBlocked : bool;
  cleaned : list T
}.

Definition withCacheL1 (c : channel) (p : Pool) : Pool :=
  {| cacheL1 := c; pool := pool p; config := config p; stats := stats p;
     isGrowthBlocked := isGrowthBlocked p; cleaned := cleaned p |}.

Definition withPool (r : RingBuffer) (p : Pool) : Pool :=
  {| cacheL1 := cacheL1 p; pool := r; config := config p; stats := stats p;
     isGrowthBlocked := isGrowthBlocked p; cleaned := cleaned p |}.

Definition withStats (s : poolStats) (p : Pool) : Pool :=
  {| cacheL1 := cacheL1 p; pool := pool p; config := config p; stats := s;
     isGrowthBlocked := isGrowthBlocked p; cleaned := cleaned p |}.

Definition withGrowthBlocked (b : bool) (p : Pool) : Pool :=
  {| cacheL1 := cacheL1 p; pool := pool p; config := config p;
     stats := stats p; isGrowthBlocked := b; cleaned := cleaned p |}.

Definition withCleaned (l : list T) (p : Pool) : Pool :=
  {| cacheL1 := cacheL1 p; pool := pool p; config := config p;
     stats := stats p; isGrowthBlocked := isGrowthBlocked p; cleaned := l |}.

(** *** Counters *)

Definition releaseObj (fuel : nat) (obj : T) (p : Pool) : option Pool :=
  let p := withCleaned (cleaned p ++ [obj]) p in
  match decrementLoop fuel (objectsInUse (stats p)) with
  | Some v => Some (withStats (setObjectsInUse v (stats p)) p)
  | None => None
  end.

Definition reduceL1Hit (fuel : nat) (p : Pool) : option Pool :=
  match decrementLoop fuel (l1HitCount (stats p)) with
  | Some v => Some (withStats (setL1HitCount v (stats p)) p)
  | None => None
  end.

Definition reduceBlockedGets (fuel : nat) (p : Pool) : option Pool :=
  match decrementLoop fuel (blockedGets (stats p)) with
  | Some v => Some (withStats (setBlockedGets v (stats p)) p)
  | None => None
  end.

(** *** Growth *)

Definition growthWouldExceedHardLimit (p : Pool) (newCapacity : Z) : bool :=
  (newCapacity >? toU64 (hardLimit (config p)))
  && (currentCapacity (stats p) >=? toU64 (hardLimit (config p))).

Definition needsToShrinkToHardLimit
    (p : Pool) (currentCap newCapacity : Z) : bool :=
  (currentCap <? toU64 (hardLimit (config p)))
  && (newCapacity >? toU64 (hardLimit (config p))).

(** The loop [for { select { case obj := <-old: newL1 <- obj;
    default: goto done } }]: the send into the new channel is a blocking
    one, so the loop never finishes ([None]) when the new channel is
    full while the old one still holds a value. *)
Fixpoint drainAll (old : list T) (newL1 : channel) : option channel :=
  match old with
  | [] => Some newL1
  | obj :: rest =>
      match trySend newL1 obj with
      | Some c => drainAll rest c
      | None => None
      end
  end.

Definition tryL1ResizeIfTriggered (p : Pool) : option Pool :=
  let trigger := toU64 (FastPath.growthEventsTrigger (fastPath (config p))) in
  if negb (FastPath.enableChannelGrowth (fastPath (config p))) then Some p
  else
    let sinceLastResize :=
      wrapU64 (totalGrowthEvents (stats p)
               - lastResizeAtGrowthNum (stats p)) in
    if sinceLastResize <? trigger then Some p
    else
      let cfg := FastPath.growth (fastPath (config p)) in
      let currentCap := currentL1Capacity (stats p) in
      let threshold :=
        Float64.scaleUint64 conv currentCap (exponentialThresholdFactor cfg) in
      let step :=
        Float64.scaleUint64 conv currentCap (fixedGrowthFactor cfg) in
      let newCap :=
        if currentCap <? threshold
        then wrapU64
               (currentCap
                + maxUint64
                    (Float64.scaleUint64 conv currentCap (growthPercent cfg))
                    1)
        else wrapU64 (currentCap + step) in
      match make newCap with
      | None => None
      | Some fresh =>
          match drainAll (chItems (cacheL1 p)) fresh with
          | None => None
          | Some newL1 =>
              let p := withCacheL1 newL1 p in
              let p := withStats (setCurrentL1Capacity newCap (stats p)) p in
              Some (withStats
                      (setLastResizeAtGrowthNum
                         (totalGrowthEvents (stats p)) (stats p)) p)
          end
      end.

(** *** Shrink eligibility *)

Definition IndleCheck (now : Z) (p : Pool) (idles : Z) (permission : bool)
  : Z * bool :=
  let idleDuration := now - lastTimeCalledGet (stats p) in
  let threshold := idleThreshold (shrink (config p)) in
  let required := minIdleBeforeShrink (shrink (config p)) in
  if idleDuration >=? threshold then
    let idles := wrapInt (idles + 1) in
    (idles, if idles >=? required then true else permission)
  else
    (if idles >? 0 then wrapInt (idles - 1) else idles, permission).

(** The allocator of the pool, [func() T]. *)
Variable allocator : unit -> T.

(** Modelled from the spec: the allocation step of [grow], which writes
    freshly allocated values into L2; a write into a full buffer is
    dropped. *)
Fixpoint writeFresh (n : nat) (r : RingBuffer) : RingBuffer :=
  match n with
  | O => r
  | S k => writeFresh k (fst (Write r (allocator tt)))
  end.

(** Modelled from the spec: the capacity [grow] proposes.  [grow] is not
    among the sources; following section 4.2 of the specification the
    threshold is [initial_capacity * threshold_factor] and the step of
    the linear mode is a fraction of the current capacity. *)
Definition growNewCapacity (p : Pool) : Z :=
  let cfg := growth (config p) in
  let currentCap := currentCapacity (stats p) in
  let threshold :=
    Float64.scaleUint64 conv (toU64 (initialCapacity (config p)))
      (exponentialThresholdFactor cfg) in
  let fixedStep :=
    Float64.scaleUint64 conv currentCap (fixedGrowthFactor cfg) in
  calculateNewPoolCapacity conv currentCap threshold fixedStep cfg.

(** Modelled from the spec: [grow], the growth controller that calls the
    helpers above, is not among the sources.  Following section 4.2 of
    the specification: a growth that would exceed the hard limit with the
    capacity already there latches [isGrowthBlocked] and fails, a
    capacity below the limit is clamped to it, [alloc_amount] values (or
    the whole difference) are allocated into L2, whose capacity is raised
    to the new one, the growth is counted, L1 is resized when due, and
    the time of the growth is recorded. *)
Definition grow (now : Z) (p : Pool) : option (bool * Pool) :=
  let currentCap := currentCapacity (stats p) in
  let newCap := growNewCapacity p in
  if growthWouldExceedHardLimit p newCap then
    Some (false, withGrowthBlocked true p)
  else
    let newCap :=
      if needsToShrinkToHardLimit p currentCap newCap
      then toU64 (hardLimit (config p)) else newCap in
    let delta := newCap - currentCap in
    let amount :=
      if (0 <? allocAmount (config p)) && (allocAmount (config p) <? delta)
      then allocAmount (config p) else delta in
    let widened :=
      if rbCap (pool p) <? newCap
      then {| rbItems := rbItems (pool p); rbCap := newCap;
              rbBlock := rbBlock (pool p);
              rbRTimeout := rbRTimeout (pool p);
              rbWTimeout := rbWTimeout (pool p) |}
      else pool p in
    let p := withPool (writeFresh (Z.to_nat amount) widened) p in
    let p := withStats (setCurrentCapacity newCap (stats p)) p in
    let p :=
      withStats (setTotalGrowthEvents
                   (wrapU64 (totalGrowthEvents (stats p) + 1)) (stats p)) p in
    match tryL1ResizeIfTriggered p with
    | None => None
    | Some p => Some (true, withStats (setLastGrowTime now (stats p)) p)
    end.

(** *** Refill *)

(** The reasons of a refill result, the string constants [GrowthBlocked],
    [GrowthFailed], [RingBufferError], [NoItemsToMove] and
    [RefillSucceeded] of the source; they carry the prefix [Reason]
    because the result has a field called [GrowthBlocked]. *)
Inductive refillReason :=
| ReasonUnset
| ReasonGrowthBlocked
| ReasonGrowthFailed
| ReasonRingBufferError (e : rbError)
| ReasonNoItemsToMove
| ReasonRefillSucceeded.

Record RefillResult := {
  Success : bool;
  Reason : refillReason;
  ItemsMoved : Z;
  ItemsFailed : Z;
  GrowthNeeded : bool;
  GrowthBlocked : bool
}.

Definition zeroResult : RefillResult :=
  {| Success := false; Reason := ReasonUnset; ItemsMoved := 0;
     ItemsFailed := 0; GrowthNeeded := false; GrowthBlocked := false |}.

Definition setReason (r : refillReason) (res : RefillResult) : RefillResult :=
  {| Success := Success res; Reason := r; ItemsMoved := ItemsMoved res;
     ItemsFailed := ItemsFailed res; GrowthNeeded := GrowthNeeded res;
     GrowthBlocked := GrowthBlocked res |}.

Definition setSuccess (b : bool) (res : RefillResult) : RefillResult :=
  {| Success := b; Reason := Reason res; ItemsMoved := ItemsMoved res;
     ItemsFailed := ItemsFailed res; GrowthNeeded := GrowthNeeded res;
     GrowthBlocked := GrowthBlocked res |}.

Definition setGrowthNeeded (b : bool) (res : RefillResult) : RefillResult :=
  {| Success := Success res; Reason := Reason res;
     ItemsMoved := ItemsMoved res; ItemsFailed := ItemsFailed res;
     GrowthNeeded := b; GrowthBlocked := GrowthBlocked res |}.

Definition setGrowthBlocked (b : bool) (res : RefillResult) : RefillResult :=
  {| Success := Success res; Reason := Reason res;
     ItemsMoved := ItemsMoved res; ItemsFailed := ItemsFailed res;
     GrowthNeeded := GrowthNeeded res; GrowthBlocked := b |}.

Definition addMoved (res : RefillResult) : RefillResult :=
  {| Success := Success res; Reason := Reason res;
     ItemsMoved := wrapInt (ItemsMoved res + 1);
     ItemsFailed := ItemsFailed res; GrowthNeeded := GrowthNeeded res;
     GrowthBlocked := GrowthBlocked res |}.

Definition addFailed (res : RefillResult) : RefillResult :=
  {| Success := Success res; Reason := Reason res;
     ItemsMoved := ItemsMoved res;
     ItemsFailed := wrapInt (ItemsFailed res + 1);
     GrowthNeeded := GrowthNeeded res; GrowthBlocked := GrowthBlocked res |}.

(** The loop over the items read from L2: a non-blocking send into L1,
    and on its failure a write back to L2 whose error is only logged. *)
Fixpoint refillLoop (items : list T) (result : RefillResult) (p : Pool)
  : RefillResult * Pool :=
  match items with
  | [] => (result, p)
  | item :: rest =>
      match trySend (cacheL1 p) item with
      | Some c => refillLoop rest (addMoved result) (withCacheL1 c p)
      | None =>
          refillLoop rest (addFailed result)
                     (withPool (fst (Write (pool p) item)) p)
      end
  end.

(** The part of [refill] after the growth decision. *)
Definition refillMove (fillTarget : Z) (result : RefillResult) (p : Pool)
  : RefillResult * Pool :=
  let currentObjsAvailable := Length (pool p) in
  let toMove := Z.min fillTarget currentObjsAvailable in
  let '(rb, items, err) := GetN (pool p) toMove in
  let p := withPool rb p in
  match err with
  | Some e =>
      if negb (isErrIsEmpty e)
      then (setReason (ReasonRingBufferError e) result, p)
      else
        let (result, p) := refillLoop (elements items) result p in
        (setReason ReasonRefillSucceeded (setSuccess true result), p)
  | None =>
      match items with
      | None => (setReason ReasonNoItemsToMove result, p)
      | Some l =>
          let (result, p) := refillLoop l result p in
          (setReason ReasonRefillSucceeded (setSuccess true result), p)
      end
  end.

(** [refill], over the growth controller it calls. *)
Definition refill (growFn : Z -> Pool -> option (bool * Pool))
    (now : Z) (fillTarget : Z) (p : Pool) : option (RefillResult * Pool) :=
  let result := zeroResult in
  let noObjsAvailable := Length (pool p) =? 0 in
  let biggerRequestThanAvailable := fillTarget >? Length (pool p) in
  if noObjsAvailable || biggerRequestThanAvailable then
    if isGrowthBlocked p then
      Some (setGrowthBlocked true (setReason ReasonGrowthBlocked result), p)
    else
      match growFn now p with
      | None => None
      | Some (false, p) => Some (setReason ReasonGrowthFailed result, p)
      | Some (true, p) =>
          Some (refillMove fillTarget (setGrowthNeeded true result) p)
      end
  else Some (refillMove fillTarget result p).

(** *** Shrink execution *)

Definition shouldShrinkMainPool
    (p : Pool) (currentCap newCap inUse : Z) : bool :=
  let minCap := minCapacity (shrink (config p)) in
  if newCap =? 0 then false
  else if currentCap <=? toU64 minCap then false
  else if newCap >=? toInt currentCap then false
  else
    let totalAvailable := Length (pool p) + chLen (cacheL1 p) in
    if totalAvailable =? 0 then false else true.

Definition adjustMainShrinkTarget (p : Pool) (newCap inUse : Z) : Z * Pool :=
  let minCap := minCapacity (shrink (config p)) in
  let newCap := if newCap <? minCap then minCap else newCap in
  let newCap := if newCap <? inUse then inUse else newCap in
  let p :=
    if newCap <? hardLimit (config p)
    then withGrowthBlocked false p else p in
  (newCap, p).

Definition performShrink
    (now : Z) (p : Pool) (newCapacity inUse currentCap : Z) : Pool :=
  let availableToKeep := wrapInt (newCapacity - inUse) in
  if availableToKeep <=? 0 then p
  else
    let newRingBuffer := CopyConfig (New newCapacity) (pool p) in
    let itemsToKeep := Z.min availableToKeep (Length (pool p)) in
    let finish (old newRingBuffer : RingBuffer) : Pool :=
      let p := withPool (ClearRemaining old) p in
      let p := withPool newRingBuffer p in
      let p := withStats (setCurrentCapacity (toU64 newCapacity) (stats p)) p in
      let p :=
        withStats (setTotalShrinkEvents
                     (wrapU64 (totalShrinkEvents (stats p) + 1)) (stats p)) p in
      let p := withStats (setLastShrinkTime now (stats p)) p in
      withStats (setConsecutiveShrinks
                   (wrapU64 (consecutiveShrinks (stats p) + 1)) (stats p)) p in
    if itemsToKeep >? 0 then
      let '(old, items, err) := GetN (pool p) itemsToKeep in
      match err with
      | Some e =>
          if negb (isErrIsEmpty e) then withPool old p
          else
            match WriteMany newRingBuffer (elements items) with
            | (_, _, Some _) => withPool old p
            | (filled, _, None) => finish old filled
            end
      | None =>
          match WriteMany newRingBuffer (elements items) with
          | (_, _, Some _) => withPool old p
          | (filled, _, None) => finish old filled
          end
      end
    else finish (pool p) newRingBuffer.

Definition shouldShrinkFastPath (p : Pool) : bool :=
  let sinceLast :=
    wrapU64 (totalShrinkEvents (stats p) - lastResizeAtShrinkNum (stats p)) in
  let trigger := toU64 (FastPath.shrinkEventsTrigger (fastPath (config p))) in
  sinceLast >=? trigger.

Definition adjustFastPathShrinkTarget (p : Pool) (currentCap : Z) : Z :=
  let cfg := FastPath.shrink (fastPath (config p)) in
  let newCap :=
    Float64.scaleInt conv currentCap
      (Float64.sub Float64.one (shrinkPercent cfg)) in
  if newCap <? minCapacity cfg then minCapacity cfg else newCap.

(** The loop [for range copyCount { select { case obj := <-p.cacheL1:
    newL1 <- obj; default: } }], with the same blocking send as in
    [drainAll]. *)
Fixpoint drainN (n : nat) (old newL1 : channel) : option (channel * channel) :=
  match n with
  | O => Some (old, newL1)
  | S k =>
      match tryRecv old with
      | None => drainN k old newL1
      | Some (obj, old') =>
          match trySend newL1 obj with
          | Some c => drainN k old' c
          | None => None
          end
      end
  end.

Definition shrinkFastPath (p : Pool) (newCapacity inUse : Z) : option Pool :=
  let availableObjsToCopy := wrapInt (newCapacity - inUse) in
  if availableObjsToCopy <=? 0 then Some p
  else
    let copyCount := Z.min availableObjsToCopy (chLen (cacheL1 p)) in
    match make newCapacity with
    | None => None
    | Some fresh =>
        match drainN (Z.to_nat copyCount) (cacheL1 p) fresh with
        | None => None
        | Some (_, newL1) =>
            let p := withCacheL1 newL1 p in
            Some (withStats
                    (setLastResizeAtShrinkNum
                       (totalShrinkEvents (stats p)) (stats p)) p)
        end
    end.

(** The capacity [ShrinkExecution] asks for before any adjustment. *)
Definition shrinkTarget (p : Pool) : Z :=
  Float64.scaleInt conv (currentCapacity (stats p))
    (Float64.sub Float64.one (shrinkPercent (shrink (config p)))).

Definition ShrinkExecution (now : Z) (p : Pool) : option Pool :=
  let currentCap := currentCapacity (stats p) in
  let inUse := toInt (objectsInUse (stats p)) in
  let newCapacity := shrinkTarget p in
  if negb (shouldShrinkMainPool p currentCap newCapacity inUse) then Some p
  else
    let (newCapacity, p) := adjustMainShrinkTarget p newCapacity inUse in
    let p := performShrink now p newCapacity inUse currentCap in
    if negb (FastPath.enableChannelGrowth (fastPath (config p)))
       || negb (shouldShrinkFastPath p)
    then Some p
    else
      let currentCap := currentL1Capacity (stats p) in
      let newCapacity := adjustFastPathShrinkTarget p currentCap in
      shrinkFastPath p newCapacity inUse.

(** *** Filling the tiers ([setPoolAndBuffer]) *)

(** The send into L1 is a blocking one: [None] when L1 is full.  The
    error of a write into a full ring buffer is only logged. *)
Definition setPoolAndBuffer (p : Pool) (obj : T) (fastPathRemaining : Z)
  : option (Pool * Z) :=
  if fastPathRemaining >? 0 then
    match trySend (cacheL1 p) obj with
    | Some c => Some (withCacheL1 c p, wrapInt (fastPathRemaining - 1))
    | None => None
    end
  else Some (withPool (fst (Write (pool p) obj)) p, fastPathRemaining).

(** [setPoolAndBuffer] called on one object after the other, each call
    with the count the one before returned. *)
Fixpoint setPoolAndBufferAll (objs : list T) (p : Pool)
    (fastPathRemaining : Z) : option (Pool * Z) :=
  match objs with
  | [] => Some (p, fastPathRemaining)
  | obj :: rest =>
      match setPoolAndBuffer p obj fastPathRemaining with
      | Some (p', remaining) => setPoolAndBufferAll rest p' remaining
      | None => None
      end
  end.

(** *** Usage counters *)

(** [updateAvailableObjs] stores the value returned here in
    [availableObjects], a counter the record [poolStats] leaves out. *)
Definition updateAvailableObjs (p : Pool) : Z :=
  toU64 (Length (pool p) + chLen (cacheL1 p)).

(** [updateUsageStats].  [totalGets] and [peakInUse], two counters the
    record [poolStats] leaves out, are passed in and returned. *)
Definition updateUsageStats (fuel : nat) (p : Pool) (totalGets peakInUse : Z)
  : option (Pool * Z * Z) :=
  let currentInUse := wrapU64 (objectsInUse (stats p) + 1) in
  let p := withStats (setObjectsInUse currentInUse (stats p)) p in
  let totalGets := wrapU64 (totalGets + 1) in
  match PeakLoop.raisePeakLoop fuel peakInUse currentInUse with
  | None => None
  | Some peak =>
      match decrementLoop fuel (consecutiveShrinks (stats p)) with
      | None => None
      | Some streak =>
          Some (withStats (setConsecutiveShrinks streak (stats p)) p,
                totalGets, peak)
      end
  end.

(** The utilization in percent that [UtilizationCheck] and
    [updateDerivedStats] compute. *)
Definition utilizationOf (inUse available : Z) : Q :=
  let total := wrapU64 (inUse + available) in
  if total >? 0 then ((inject_Z inUse / inject_Z total) * 100)%Q else 0%Q.

(** [UtilizationCheck], over the shrink parameters in full.  It returns
    the value it stored in [availableObjects], the rounds and the
    permission. *)
Definition UtilizationCheck (sp : Shrink.parameters Q) (p : Pool)
    (underutilizationRounds : Z) (permission : bool) : Z * Z * bool :=
  let available := updateAvailableObjs p in
  let inUse := objectsInUse (stats p) in
  let utilization := utilizationOf inUse available in
  let minUtil := Shrink.minUtilizationBeforeShrink sp in
  let requiredRounds := Shrink.stableUnderutilizationRounds sp in
  if Qle_bool utilization minUtil then
    let rounds := wrapInt (underutilizationRounds + 1) in
    (available, rounds, if rounds >=? requiredRounds then true else permission)
  else
    (available,
     if underutilizationRounds >? 0
     then wrapInt (underutilizationRounds - 1) else underutilizationRounds,
     permission).

(** [updateDerivedStats].  The counters [totalGets] and
    [availableObjects] and the field [initialCapacity] of the statistics
    are passed in, as are the two derived values, which are returned as
    the call leaves them: [reqPerObj] and [utilization]. *)
Definition updateDerivedStats (p : Pool)
    (totalGets availableObjects initialCapacity : Z)
    (reqPerObj utilization : Q) : Q * Q :=
  let objectsInUse := objectsInUse (stats p) in
  let currentCapacity := currentCapacity (stats p) in
  let totalCreated := wrapU64 (currentCapacity - toU64 initialCapacity) in
  let reqPerObj :=
    if totalCreated >? 0
    then (inject_Z totalGets / inject_Z totalCreated)%Q else reqPerObj in
  let totalObjects := wrapU64 (objectsInUse + availableObjects) in
  let utilization :=
    if totalObjects >? 0
    then ((inject_Z objectsInUse / inject_Z totalObjects) * 100)%Q
    else utilization in
  (reqPerObj, utilization).

(** [IndleCheck] on one tick after the other, at the given times. *)
Fixpoint idleTicks (times : list Z) (p : Pool) (idles : Z) (permission : bool)
  : Z * bool :=
  match times with
  | [] => (idles, permission)
  | now :: rest =>
      let (idles', permission') := IndleCheck now p idles permission in
      idleTicks rest p idles' permission'
  end.

(** The capacity a growth that does not fail settles on. *)
Definition grownCapacity (p : Pool) : Z :=
  if needsToShrinkToHardLimit p (currentCapacity (stats p)) (growNewCapacity p)
  then toU64 (hardLimit (config p)) else growNewCapacity p.

(** The growth-coupled resize of L1 has room for what L1 holds: the
    recorded L1 capacity covers the length of the channel and growing it
    does not leave the range of [uint64]. *)
Definition l1ResizeFits (p : Pool) : Prop :=
  let cfg := FastPath.growth (fastPath (config p)) in
  let cur := currentL1Capacity (stats p) in
  0 <= cur
  /\ chLen (cacheL1 p) <= cur
  /\ cur + Z.max 1 (Z.max (Float64.scaleUint64 conv cur (growthPercent cfg))
                          (Float64.scaleUint64 conv cur
                             (fixedGrowthFactor cfg))) < 2 ^ 64.

(** The free slots of L1. *)
Definition l1Room (p : Pool) : nat :=
  Z.to_nat (chCap (cacheL1 p) - chLen (cacheL1 p)).

(** What the move of [refill] does to a pool [q]. *)
Definition movedAsSpecified
    (fillTarget : Z) (q : Pool) (res : RefillResult) (q' : Pool) : Prop :=
  let toMove := Z.to_nat (Z.min fillTarget (Length (pool q))) in
  let items := firstn toMove (rbItems (pool q)) in
  length items = toMove
  /\ chItems (cacheL1 q') = chItems (cacheL1 q) ++ firstn (l1Room q) items
  /\ chCap (cacheL1 q') = chCap (cacheL1 q)
  /\ rbItems (pool q')
     = skipn toMove (rbItems (pool q)) ++ skipn (l1Room q) items
  /\ rbCap (pool q') = rbCap (pool q)
  /\ ItemsMoved res = Z.of_nat (length (firstn (l1Room q) items))
  /\ ItemsFailed res = Z.of_nat (length (skipn (l1Room q) items)).

End PoolModel.

Unset Implicit Arguments.

(** ** Sample configurations, pools and snapshots *)

Module Sample.

(** The float64 values [0.5] and [0.25]. *)
Definition half : float64 := Float64.dyadic 1 (-1).
Definition quarter : float64 := Float64.dyadic 1 (-2).

(** Conversions that answer out of range with the smallest value of
    [int], which is [2^63] as a [uint64]. *)
Definition indefinite : Float64.conversions :=
  {| Float64.uint64Outside := fun _ => 2 ^ 63;
     Float64.intOutside := fun _ => - 2 ^ 63 |}.

(** A ring buffer that answers a request for no items with a [nil]
    slice and no error, one that answers with an empty slice, and one
    that answers with the error of an invalid length. *)
Definition silent : emptyAnswer :=
  {| nilSlice := true; failure := None |}.
Definition emptySlice : emptyAnswer :=
  {| nilSlice := false; failure := None |}.
Definition invalidLength : emptyAnswer :=
  {| nilSlice := true; failure := Some ErrInvalidLength |}.

Definition halves : growthParameters :=
  {| exponentialThresholdFactor := half;
     growthPercent := half;
     fixedGrowthFactor := half |}.

(** Growth factors that are not numbers. *)
Definition notNumbers : growthParameters :=
  {| exponentialThresholdFactor := S754_nan;
     growthPercent := S754_nan;
     fixedGrowthFactor := S754_nan |}.

(** Growth by the float64 nearest to [0.3]. *)
Definition tenths : growthParameters :=
  {| exponentialThresholdFactor := Float64.decimal 3 10;
     growthPercent := Float64.decimal 3 10;
     fixedGrowthFactor := Float64.decimal 3 10 |}.

Definition shrinkByHalf : shrinkParameters :=
  {| idleThreshold := 5; minIdleBeforeShrink := 1;
     shrinkPercent := half; minCapacity := 1 |}.

Definition fastPathOff : FastPath.parameters :=
  {| FastPath.enableChannelGrowth := false;
     FastPath.growthEventsTrigger := 1;
     FastPath.shrinkEventsTrigger := 1;
     FastPath.growth := halves;
     FastPath.shrink := shrinkByHalf |}.

Definition cfg : poolConfig :=
  {| initialCapacity := 2; hardLimit := 8; allocAmount := 0;
     growth := halves; shrink := shrinkByHalf; fastPath := fastPathOff |}.

(** Statistics of a pool of the given capacity with [inUse] objects out. *)
Definition statsOf (capacity inUse : Z) : poolStats :=
  {| objectsInUse := inUse; l1HitCount := 0; blockedGets := 0;
     currentCapacity := capacity; currentL1Capacity := 2;
     totalGrowthEvents := 0; totalShrinkEvents := 0;
     consecutiveShrinks := 0; lastResizeAtGrowthNum := 0;
     lastResizeAtShrinkNum := 0; lastShrinkTime := 0; lastGrowTime := 0;
     lastTimeCalledGet := 0 |}.

(** A pool over [nat] with the given L1 and L2 content; L1 has two
    slots, L2 has [capacity]. *)
Definition poolOf (capacity inUse : Z) (l1 l2 : list nat) : Pool nat :=
  {| cacheL1 := {| chItems := l1; chCap := 2 |};
     pool := {| rbItems := l2; rbCap := capacity; rbBlock := false;
                rbRTimeout := 0; rbWTimeout := 0 |};
     config := cfg;
     stats := statsOf capacity inUse;
     isGrowthBlocked := false;
     cleaned := [] |}.

Definition alloc (_ : unit) : nat := 0%nat.

(** The empty pool of capacity two after one growth at time seven. *)
Definition grownPool : Pool nat :=
  match grow indefinite alloc 7 (poolOf 2 0 [] []) with
  | Some (_, q) => q
  | None => poolOf 2 0 [] []
  end.

(** A snapshot-side pool: capacity eight, five values materialised. *)
Definition snapStats (gets hit miss : Z) : Snapshot.poolStats :=
  {| Snapshot.objectsCreated := 5; Snapshot.objectsDestroyed := 0;
     Snapshot.initialCapacity := 8; Snapshot.currentCapacity := 8;
     Snapshot.totalGets := gets; Snapshot.totalGrowthEvents := 0;
     Snapshot.FastReturnHit := hit; Snapshot.FastReturnMiss := miss;
     Snapshot.totalShrinkEvents := 0; Snapshot.consecutiveShrinks := 0;
     Snapshot.lastShrinkTime := 0; Snapshot.lastL1ResizeAtGrowthNum := 0;
     Snapshot.lastResizeAtShrinkNum := 0;
     Snapshot.currentL1Capacity := 4 |}.

Definition snapPool (gets hit miss : Z) : Snapshot.Pool nat :=
  {| Snapshot.stats := snapStats gets hit miss;
     Snapshot.cacheL1 := [1; 2; 3]%nat;
     Snapshot.pool := [4; 5]%nat |}.

(** Aggressiveness levels from zero (disabled) to five (extreme), with a
    table of defaults that knows level three only. *)
Definition balanced : Shrink.shrinkDefaults float64 :=
  {| Shrink.interval := 2; Shrink.idle := 5; Shrink.minIdle := 2;
     Shrink.cooldown := 3; Shrink.utilization := Float64.decimal 3 10;
     Shrink.underutilized := 3; Shrink.percent := quarter;
     Shrink.maxShrinks := 3 |}.

Definition levels : Shrink.constants float64 :=
  {| Shrink.AggressivenessDisabled := 0;
     Shrink.AggressivenessExtreme := 5;
     Shrink.defaultMinCapacity := 8;
     Shrink.defaultL1MinCapacity := 4;
     Shrink.defaultShrinkMap :=
       fun level => if level =? 3 then Some balanced else None |}.

(** Shrink parameters set by hand, with the given values of the two
    float64 fields and the given switch for custom values. *)
Definition shrinkWith (F : Type) (utilization percent : F) (enforce : bool)
  : Shrink.parameters F :=
  {| Shrink.enforceCustomConfig := enforce;
     Shrink.aggressivenessLevel := 0;
     Shrink.checkInterval := 2;
     Shrink.idleThreshold := 5;
     Shrink.minIdleBeforeShrink := 2;
     Shrink.shrinkCooldown := 3;
     Shrink.minUtilizationBeforeShrink := utilization;
     Shrink.stableUnderutilizationRounds := 3;
     Shrink.shrinkPercent := percent;
     Shrink.maxConsecutiveShrinks := 3;
     Shrink.minCapacity := 4 |}.

Definition customShrink : bool -> Shrink.parameters float64 :=
  shrinkWith float64 (Float64.decimal 3 10) quarter.

(** The same parameters as the utilization check reads them. *)
Definition watchedShrink : Shrink.parameters Q :=
  shrinkWith Q (3 # 10) (1 # 4) false.

(** A builder whose configuration [Build] accepts: capacity eight under
    a hard limit of sixteen. *)
Definition builder (enforce : bool) : Builder.poolConfigBuilder :=
  {| Builder.config :=
       {| Builder.initialCapacity := 8;
          Builder.hardLimit := 16;
          Builder.hardLimitBufferSize := 16;
          Builder.shrink := customShrink enforce;
          Builder.growth := halves;
          Builder.fastPath :=
            {| Builder.FP.bufferSize := 4;
               Builder.FP.fillAggressiveness := Float64.decimal 4 5;
               Builder.FP.refillPercent := Float64.decimal 1 5;
               Builder.FP.enableChannelGrowth := true;
               Builder.FP.growthEventsTrigger := 1;
               Builder.FP.growth := halves;
               Builder.FP.shrinkEventsTrigger := 1;
               Builder.FP.shrink := customShrink false |} |} |}.

(** The pool of capacity four with all four values in the ring buffer,
    after one shrink at time seven. *)
Definition shrunkPool : Pool nat :=
  match ShrinkExecution indefinite silent 7 (poolOf 4 0 [] [1; 2; 3; 4]%nat)
  with
  | Some q => q
  | None => poolOf 4 0 [] [1; 2; 3; 4]%nat
  end.

(** The pool of capacity four with channel growth switched on, a full
    L1 of two slots, and one growth event that no L1 resize has followed
    yet. *)
Definition channelPool : Pool nat :=
  {| cacheL1 := {| chItems := [1; 2]%nat; chCap := 2 |};
     pool := {| rbItems := []; rbCap := 4; rbBlock := false;
                rbRTimeout := 0; rbWTimeout := 0 |};
     config :=
       {| initialCapacity := 2; hardLimit := 8; allocAmount := 0;
          growth := halves; shrink := shrinkByHalf;
          fastPath :=
            {| FastPath.enableChannelGrowth := true;
               FastPath.growthEventsTrigger := 1;
               FastPath.shrinkEventsTrigger := 1;
               FastPath.growth := halves;
               FastPath.shrink := shrinkByHalf |} |};
     stats :=
       {| objectsInUse := 0; l1HitCount := 0; blockedGets := 0;
          currentCapacity := 4; currentL1Capacity := 2;
          totalGrowthEvents := 1; totalShrinkEvents := 0;
          consecutiveShrinks := 0; lastResizeAtGrowthNum := 0;
          lastResizeAtShrinkNum := 0; lastShrinkTime := 0;
          lastGrowTime := 0; lastTimeCalledGet := 0 |};
     isGrowthBlocked := false;
     cleaned := [] |}.

(** A pool of capacity four with five objects out and its growth
    blocked, whose L1 holds sixteen values in as many slots; one shrink
    has been counted since the last resize of L1. *)
Definition crowdedPool : Pool nat :=
  {| cacheL1 := {| chItems := seq 1 16; chCap := 16 |};
     pool := {| rbItems := []; rbCap := 4; rbBlock := false;
                rbRTimeout := 0; rbWTimeout := 0 |};
     config := config channelPool;
     stats :=
       {| objectsInUse := 5; l1HitCount := 0; blockedGets := 0;
          currentCapacity := 4; currentL1Capacity := 16;
          totalGrowthEvents := 0; totalShrinkEvents := 1;
          consecutiveShrinks := 0; lastResizeAtGrowthNum := 0;
          lastResizeAtShrinkNum := 0; lastShrinkTime := 0;
          lastGrowTime := 0; lastTimeCalledGet := 0 |};
     isGrowthBlocked := true;
     cleaned := [] |}.

(** The pool of [channelPool] with a fast path that shrinks by nothing:
    a shrink percentage of zero and a minimum capacity of one. *)
Definition steadyPool : Pool nat :=
  {| cacheL1 := cacheL1 channelPool;
     pool := pool channelPool;
     config :=
       {| initialCapacity := 2; hardLimit := 8; allocAmount := 0;
          growth := halves; shrink := shrinkByHalf;
          fastPath :=
            {| FastPath.enableChannelGrowth := true;
               FastPath.growthEventsTrigger := 1;
               FastPath.shrinkEventsTrigger := 1;
               FastPath.growth := halves;
               FastPath.shrink :=
                 {| idleThreshold := 5; minIdleBeforeShrink := 1;
                    shrinkPercent := Float64.zero; minCapacity := 1 |} |} |};
     stats := stats channelPool;
     isGrowthBlocked := false;
     cleaned := [] |}.

Definition resizedPool : Pool nat :=
  match tryL1ResizeIfTriggered indefinite channelPool with
  | Some q => q
  | None => channelPool
  end.

(** Shrink parameters that [Build] would reject were custom values
    enforced: no check interval and a negative shrink percent. *)
Definition uncheckedShrink : Shrink.parameters float64 :=
  {| Shrink.enforceCustomConfig := false;
     Shrink.aggressivenessLevel := 0;
     Shrink.checkInterval := 0;
     Shrink.idleThreshold := 5;
     Shrink.minIdleBeforeShrink := 2;
     Shrink.shrinkCooldown := 3;
     Shrink.minUtilizationBeforeShrink := Float64.decimal 3 10;
     Shrink.stableUnderutilizationRounds := 3;
     Shrink.shrinkPercent := Float64.dyadic (-1) (-2);
     Shrink.maxConsecutiveShrinks := 3;
     Shrink.minCapacity := 4 |}.

End Sample.

(** * Properties *)

Section PoolProperties.

Variable T : Type.
Variable allocator : unit -> T.
Variable conv : Float64.conversions.
Variable emptyRequest : emptyAnswer.

(** ** Machine integers *)

Lemma wrapU64_small z : inU64 z -> wrapU64 z = z.
Proof. unfold inU64, wrapU64. intros H. apply Z.mod_small. exact H. Qed.

Lemma wrapU64_range z : inU64 (wrapU64 z).
Proof. unfold inU64, wrapU64. apply Z.mod_pos_bound. lia. Qed.

Lemma wrapInt_small z : inInt z -> wrapInt z = z.
Proof.
  unfold inInt, wrapInt. intros H.
  rewrite Z.mod_small by lia. lia.
Qed.

Lemma wrapInt_range z : inInt (wrapInt z).
Proof.
  unfold inInt, wrapInt.
  pose proof (Z.mod_pos_bound (z + 2 ^ 63) (2 ^ 64)). lia.
Qed.

Lemma toInt_nonneg_small u : inU64 u -> 0 <= toInt u -> toInt u = u.
Proof.
  unfold toInt, wrapInt, inU64. intros Hu Hn.
  destruct (Z_lt_ge_dec u (2 ^ 63)) as [Hlt | Hge].
  - rewrite Z.mod_small by lia. lia.
  - exfalso.
    assert (E : (u + 2 ^ 63) mod 2 ^ 64 = u - 2 ^ 63).
    { symmetry. apply (Z.mod_unique_pos _ _ 1). lia. lia. }
    lia.
Qed.

Lemma toInt_le u : inU64 u -> toInt u <= u.
Proof.
  unfold toInt, wrapInt, inU64. intros Hu.
  destruct (Z_lt_ge_dec u (2 ^ 63)) as [Hlt | Hge].
  - rewrite Z.mod_small by lia. lia.
  - assert (E : (u + 2 ^ 63) mod 2 ^ 64 = u - 2 ^ 63).
    { symmetry. apply (Z.mod_unique_pos _ _ 1). lia. lia. }
    lia.
Qed.

Lemma toU64_neg i : inInt i -> i < 0 -> toU64 i = i + 2 ^ 64.
Proof.
  unfold toU64, wrapU64, inInt. intros Hi Hn.
  symmetry. apply (Z.mod_unique_pos _ _ (-1)). lia. lia.
Qed.

(** ** Conversions of [float64] values *)

Lemma toUint64_range x : inU64 (Float64.toUint64 conv x).
Proof.
  unfold Float64.toUint64.
  destruct (Float64.truncate x) as [z |]; [| apply wrapU64_range].
  destruct ((0 <=? z) && (z <? 2 ^ 64)) eqn:E; [| apply wrapU64_range].
  apply andb_true_iff in E. destruct E as [A B].
  apply Z.leb_le in A. apply Z.ltb_lt in B. split; assumption.
Qed.

Lemma toInt64_range x : inInt (Float64.toInt conv x).
Proof.
  unfold Float64.toInt.
  destruct (Float64.truncate x) as [z |]; [| apply wrapInt_range].
  destruct ((- 2 ^ 63 <=? z) && (z <? 2 ^ 63)) eqn:E; [| apply wrapInt_range].
  apply andb_true_iff in E. destruct E as [A B].
  apply Z.leb_le in A. apply Z.ltb_lt in B. split; assumption.
Qed.

Lemma scaleUint64_range c f : inU64 (Float64.scaleUint64 conv c f).
Proof. apply toUint64_range. Qed.

Lemma scaleInt_range c f : inInt (Float64.scaleInt conv c f).
Proof. apply toInt64_range. Qed.

(** The integer part of a finite value that is not negative is the
    floor of its exact value. *)
Lemma truncate_floor m e :
  Float64.truncate (S754_finite false m e)
  = Some (Qfloor (Float64.valueOf (S754_finite false m e))).
Proof.
  unfold Float64.truncate, Float64.valueOf, cond_Zopp. f_equal.
  destruct e as [| k | k].
  - rewrite Qfloor_Z. rewrite Z.shiftl_0_r. lia.
  - rewrite Qfloor_Z. now rewrite Z.shiftl_mul_pow2 by lia.
  - change (Z.shiftl (Z.pos m) (Z.neg k)) with (Z.shiftr (Z.pos m) (Z.pos k)).
    rewrite Z.shiftr_div_pow2 by lia.
    unfold Qfloor. now rewrite Pos2Z.inj_pow.
Qed.

Lemma toUint64_floor x :
  Float64.finiteNotNegative x = true ->
  Qfloor (Float64.valueOf x) < 2 ^ 64 ->
  Float64.toUint64 conv x = Qfloor (Float64.valueOf x)
  /\ 0 <= Qfloor (Float64.valueOf x).
Proof.
  intros Hx Hlt. destruct x as [s | s | | [|] m e]; try discriminate.
  { split; reflexivity || (cbn; lia). }
  unfold Float64.toUint64. rewrite truncate_floor.
  set (z := Qfloor _) in *.
  assert (H0 : 0 <= z).
  { subst z. replace 0 with (Qfloor 0) by reflexivity.
    apply Qfloor_resp_le. unfold Float64.valueOf, cond_Zopp.
    destruct e as [| k | k]; unfold Qle; cbn [Qnum Qden inject_Z];
      rewrite ?Z.mul_1_r, ?Z.mul_0_l; lia. }
  split; [| exact H0].
  destruct (0 <=? z) eqn:A; [| apply Z.leb_gt in A; lia].
  destruct (z <? 2 ^ 64) eqn:B; [reflexivity | apply Z.ltb_ge in B; lia].
Qed.

Lemma toInt64_floor x :
  Float64.finiteNotNegative x = true ->
  Qfloor (Float64.valueOf x) < 2 ^ 63 ->
  Float64.toInt conv x = Qfloor (Float64.valueOf x)
  /\ 0 <= Qfloor (Float64.valueOf x).
Proof.
  intros Hx Hlt. destruct x as [s | s | | [|] m e]; try discriminate.
  { split; reflexivity || (cbn; lia). }
  unfold Float64.toInt. rewrite truncate_floor.
  set (z := Qfloor _) in *.
  assert (H0 : 0 <= z).
  { subst z. replace 0 with (Qfloor 0) by reflexivity.
    apply Qfloor_resp_le. unfold Float64.valueOf, cond_Zopp.
    destruct e as [| k | k]; unfold Qle; cbn [Qnum Qden inject_Z];
      rewrite ?Z.mul_1_r, ?Z.mul_0_l; lia. }
  split; [| exact H0].
  destruct (- 2 ^ 63 <=? z) eqn:A; [| apply Z.leb_gt in A; lia].
  destruct (z <? 2 ^ 63) eqn:B; [reflexivity | apply Z.ltb_ge in B; lia].
Qed.

(** ** The decrement loop *)

Lemma decrementLoop_step fuel c :
  inU64 c ->
  decrementLoop (S fuel) c = Some (if c =? 0 then 0 else c - 1).
Proof.
  intros Hc. simpl. unfold Atomic.Load, Atomic.CompareAndSwap.
  destruct (c =? 0) eqn:E.
  - apply Z.eqb_eq in E. now subst.
  - rewrite Z.eqb_refl. f_equal. apply wrapU64_small.
    apply Z.eqb_neq in E. unfold inU64 in *. lia.
Qed.

Import Concurrent.

(** What one atomic operation does to the counter and to the goroutine
    that performs it: either the counter stays, or it was positive and
    loses exactly one through a swap. *)
Lemma threadStep_spec cell t cell' t' :
  inU64 cell ->
  threadStep cell t = (cell', t') ->
  (cell' = cell /\ swaps t' = swaps t
   /\ (sawZero t' = true -> sawZero t = true \/ cell = 0))
  \/ (0 < cell /\ cell' = cell - 1 /\ swaps t = 0 /\ swaps t' = 1
      /\ sawZero t = false /\ sawZero t' = false).
Proof.
  intros Hc H. destruct t as [| old | b]; simpl in H.
  - inversion H; subst. left. unfold Atomic.Load. simpl.
    repeat split; auto. intros E. right. now apply Z.eqb_eq.
  - destruct (old =? 0) eqn:E.
    + inversion H; subst. left. simpl. rewrite E. auto.
    + unfold Atomic.CompareAndSwap in H.
      destruct (cell =? old) eqn:E'.
      * inversion H; subst. right. apply Z.eqb_eq in E'. subst old.
        apply Z.eqb_neq in E. simpl. unfold inU64 in Hc.
        rewrite wrapU64_small by (unfold inU64; lia).
        repeat split; auto; try lia; now apply Z.eqb_neq.
      * inversion H; subst. left. simpl. repeat split; auto.
        intros; discriminate.
  - inversion H; subst. left. auto.
Qed.

Lemma totalSwaps_bounds ts : 0 <= totalSwaps ts <= Z.of_nat (length ts).
Proof.
  induction ts as [| t ts IH]; simpl length; simpl totalSwaps; [lia |].
  rewrite Nat2Z.inj_succ.
  destruct t as [| old | [|]]; unfold swaps; lia.
Qed.

Lemma stepAt_spec i : forall cell ts cell' ts',
  inU64 cell ->
  stepAt i cell ts = (cell', ts') ->
  length ts' = length ts
  /\ ((cell' = cell /\ totalSwaps ts' = totalSwaps ts
       /\ (existsb sawZero ts' = true ->
           existsb sawZero ts = true \/ cell = 0))
      \/ (0 < cell /\ cell' = cell - 1
          /\ totalSwaps ts' = totalSwaps ts + 1
          /\ existsb sawZero ts' = existsb sawZero ts)).
Proof.
  induction i as [| j IH]; intros cell ts cell' ts' Hc H.
  - destruct ts as [| t rest]; simpl in H.
    + inversion H; subst. split; auto.
    + destruct (threadStep cell t) as [c1 t1] eqn:E.
      inversion H; subst. split; [reflexivity |].
      destruct (threadStep_spec _ _ _ _ Hc E)
        as [(-> & Hs & Hz) | (Hp & -> & Hs & Hs' & Hz & Hz')].
      * left. simpl. rewrite Hs. repeat split; auto.
        intros Hex. apply orb_true_iff in Hex. destruct Hex as [Hex | Hex].
        -- destruct (Hz Hex) as [-> | ->]; auto.
        -- left. rewrite Hex. apply orb_true_r.
      * right. simpl. rewrite Hs, Hs', Hz, Hz'. repeat split; auto. lia.
  - destruct ts as [| t rest]; simpl in H.
    + inversion H; subst. split; auto.
    + destruct (stepAt j cell rest) as [c1 rest1] eqn:E.
      inversion H; subst.
      destruct (IH _ _ _ _ Hc E) as
        [Hlen [(-> & Hs & Hz) | (Hp & -> & Hs & Hz)]].
      * split; [simpl; congruence |]. left. simpl. rewrite Hs.
        repeat split; auto.
        intros Hex. apply orb_true_iff in Hex. destruct Hex as [Hex | Hex].
        -- left. now rewrite Hex.
        -- destruct (Hz Hex) as [-> | ->]; auto. left. apply orb_true_r.
      * split; [simpl; congruence |]. right. simpl. rewrite Hs, Hz.
        repeat split; auto. lia.
Qed.


Lemma run_invariant schedule : forall c0 cell ts cell' ts',
  c0 < 2 ^ 64 ->
  counterInv c0 cell ts ->
  run schedule cell ts = (cell', ts') ->
  counterInv c0 cell' ts' /\ length ts' = length ts.
Proof.
  induction schedule as [| i rest IH]; intros c0 cell ts cell' ts' Hc0 Hinv H.
  - simpl in H. inversion H; subst. auto.
  - simpl in H. destruct (stepAt i cell ts) as [c1 ts1] eqn:E.
    destruct Hinv as (Hr & Hsum & Hz).
    assert (Hc : inU64 cell) by (unfold inU64; lia).
    destruct (stepAt_spec _ _ _ _ _ Hc E)
      as [Hlen [(-> & Hs & Hz1) | (Hp & -> & Hs & Hz1)]].
    + destruct (IH c0 cell ts1 cell' ts') as [Hi Hl]; auto.
      * unfold counterInv. rewrite Hs. repeat split; try lia.
        intros Hex. destruct (Hz1 Hex); auto.
      * split; [exact Hi | congruence].
    + destruct (IH c0 (cell - 1) ts1 cell' ts') as [Hi Hl]; auto.
      * unfold counterInv. rewrite Hs, Hz1. repeat split; try lia.
        intros Hex. specialize (Hz Hex). lia.
      * split; [exact Hi | congruence].
Qed.

Lemma all_done_swaps ts :
  forallb isDone ts = true ->
  existsb sawZero ts = false ->
  totalSwaps ts = Z.of_nat (length ts).
Proof.
  induction ts as [| t ts IH]; intros Hd Hz; [reflexivity |].
  simpl in Hd, Hz. apply andb_true_iff in Hd. destruct Hd as [Hd1 Hd2].
  apply orb_false_iff in Hz. destruct Hz as [Hz1 Hz2].
  simpl length. rewrite Nat2Z.inj_succ. simpl totalSwaps.
  rewrite (IH Hd2 Hz2).
  destruct t as [| old | [|]]; simpl in Hd1, Hz1; try discriminate;
    unfold swaps; lia.
Qed.

Lemma initial_inv c0 n :
  0 <= c0 -> counterInv c0 c0 (repeat AtLoad n).
Proof.
  intros H. unfold counterInv.
  assert (E : totalSwaps (repeat AtLoad n) = 0)
    by (induction n; simpl; auto).
  assert (F : existsb sawZero (repeat AtLoad n) = false)
    by (induction n; simpl; auto).
  rewrite E, F. repeat split; try lia; discriminate.
Qed.

(** C10.  A decrement of [objectsInUse], [l1HitCount] or [blockedGets]
    by [releaseObj], [reduceL1Hit] or [reduceBlockedGets] finishes and
    leaves the counter at its old value less one when that was positive
    and at zero when it was zero.  When [n] goroutines run the loop
    on one counter, each of their atomic steps, whatever value the
    counter holds at that moment, leaves it alone or takes a positive
    value down by one; from a start at [c0], under every schedule the
    counter stays between zero and [c0] and has lost exactly one per
    successful swap, so it never wraps around; once all goroutines have
    left the loop it is [max 0 (c0 - n)]. *)
Theorem counter_decrements_floor_at_zero
    (fuel : nat) (obj : T) (p : Pool T)
    (c0 : Z) (n : nat) (schedule : list nat) :
  inU64 (objectsInUse (stats p)) ->
  inU64 (l1HitCount (stats p)) ->
  inU64 (blockedGets (stats p)) ->
  inU64 c0 ->
  (exists p', releaseObj (S fuel) obj p = Some p'
     /\ objectsInUse (stats p')
        = (if objectsInUse (stats p) =? 0 then 0
           else objectsInUse (stats p) - 1))
  /\ (exists p', reduceL1Hit (S fuel) p = Some p'
     /\ l1HitCount (stats p')
        = (if l1HitCount (stats p) =? 0 then 0
           else l1HitCount (stats p) - 1))
  /\ (exists p', reduceBlockedGets (S fuel) p = Some p'
     /\ blockedGets (stats p')
        = (if blockedGets (stats p) =? 0 then 0
           else blockedGets (stats p) - 1))
  /\ (forall cell t cell' t',
        inU64 cell ->
        threadStep cell t = (cell', t') ->
        cell' = cell \/ (0 < cell /\ cell' = cell - 1))
  /\ (forall cell ts,
        run schedule c0 (repeat AtLoad n) = (cell, ts) ->
        0 <= cell <= c0
        /\ cell = c0 - totalSwaps ts
        /\ (forallb isDone ts = true -> cell = Z.max 0 (c0 - Z.of_nat n))).
Proof.
  intros Hu Hl Hb Hc.
  split; [| split; [| split; [| split]]].
  - unfold releaseObj. cbn [stats withCleaned].
    rewrite decrementLoop_step by exact Hu.
    eexists. split; [reflexivity | reflexivity].
  - unfold reduceL1Hit. rewrite decrementLoop_step by exact Hl.
    eexists. split; [reflexivity | reflexivity].
  - unfold reduceBlockedGets. rewrite decrementLoop_step by exact Hb.
    eexists. split; [reflexivity | reflexivity].
  - intros cell t cell' t' Hcell Hstep.
    destruct (threadStep_spec _ _ _ _ Hcell Hstep)
      as [(E & _) | (Hp & E & _)]; auto.
  - intros cell ts Hrun.
    destruct (run_invariant schedule c0 c0 (repeat AtLoad n) cell ts)
      as [(Hr & Hsum & Hz) Hlen].
    + unfold inU64 in Hc. lia.
    + apply initial_inv. unfold inU64 in Hc. lia.
    + exact Hrun.
    + rewrite repeat_length in Hlen.
      split; [exact Hr |]. split; [lia |].
      intros Hd. destruct (existsb sawZero ts) eqn:Ez.
      * specialize (Hz eq_refl). pose proof (totalSwaps_bounds ts). lia.
      * pose proof (all_done_swaps ts Hd Ez). lia.
Qed.

(** ** The growth rule *)

Lemma maxUint64_max a b : maxUint64 a b = Z.max a b.
Proof. unfold maxUint64. destruct (a >? b) eqn:E; lia. Qed.

Lemma calculateNewPoolCapacity_exponential cur thr step cfg :
  cur < thr ->
  calculateNewPoolCapacity conv cur thr step cfg
  = wrapU64
      (cur + Z.max 1 (Float64.scaleUint64 conv cur (growthPercent cfg))).
Proof.
  intros Hlt. unfold calculateNewPoolCapacity.
  assert (E : (cur <? thr) = true) by (apply Z.ltb_lt; lia).
  rewrite E, maxUint64_max, Z.max_comm. reflexivity.
Qed.

Lemma calculateNewPoolCapacity_fixed cur thr step cfg :
  thr <= cur ->
  calculateNewPoolCapacity conv cur thr step cfg = wrapU64 (cur + step).
Proof.
  intros Hge. unfold calculateNewPoolCapacity.
  assert (E : (cur <? thr) = false) by (apply Z.ltb_ge; lia).
  now rewrite E.
Qed.

(** C1 (amended).  Below the threshold the new capacity is the current
    one plus [max 1 g], where [g] is the float64 product
    [float64(current) * growthPercent], rounded to nearest, converted to
    [uint64]: the floor of that product when it is finite, not negative
    and below [2^64].  At or above the threshold the new capacity is the
    current one plus the fixed step handed in, whatever the growth
    factors are, with no lower bound of one: a step of zero leaves the
    capacity where it was. *)
Theorem calculateNewPoolCapacity_modes
    (cur thr fixedStep : Z) (cfg : growthParameters) :
  let product := Float64.mul (Float64.ofInt cur) (growthPercent cfg) in
  let g := Float64.toUint64 conv product in
  inU64 cur ->
  (cur < thr ->
   cur + Z.max 1 g < 2 ^ 64 ->
   calculateNewPoolCapacity conv cur thr fixedStep cfg = cur + Z.max 1 g)
  /\ (Float64.finiteNotNegative product = true ->
      Qfloor (Float64.valueOf product) < 2 ^ 64 ->
      g = Qfloor (Float64.valueOf product))
  /\ (thr <= cur ->
      0 <= fixedStep ->
      cur + fixedStep < 2 ^ 64 ->
      calculateNewPoolCapacity conv cur thr fixedStep cfg = cur + fixedStep).
Proof.
  intros product g Hc. split; [| split].
  - intros Hlt Hno.
    rewrite calculateNewPoolCapacity_exponential by exact Hlt.
    apply wrapU64_small. fold product g.
    pose proof (toUint64_range product) as Hg. fold g in Hg.
    unfold inU64 in *. lia.
  - intros Hfin Hlt. exact (proj1 (toUint64_floor product Hfin Hlt)).
  - intros Hge Hs Hno.
    rewrite calculateNewPoolCapacity_fixed by exact Hge.
    apply wrapU64_small. unfold inU64 in *. lia.
Qed.

(** ** The idle check *)

(** C5 (amended).  A tick that finds the pool idle for at least
    [idleThreshold] adds one to the counter, whatever its value (there is
    no saturation at [minIdleBeforeShrink]), and sets the permission once
    the new count has reached [minIdleBeforeShrink]; any other tick takes
    one off a positive counter and leaves the permission as it was. *)
Theorem IndleCheck_rounds
    (now : Z) (p : Pool T) (idles : Z) (permission : bool) :
  0 <= idles < 2 ^ 63 - 1 ->
  let idleDuration := now - lastTimeCalledGet (stats p) in
  let required := minIdleBeforeShrink (shrink (config p)) in
  (idleThreshold (shrink (config p)) <= idleDuration ->
   IndleCheck now p idles permission
   = (idles + 1, permission || (required <=? idles + 1)))
  /\ (idleDuration < idleThreshold (shrink (config p)) ->
      IndleCheck now p idles permission
      = (Z.max 0 (idles - 1), permission)).
Proof.
  intros Hi idleDuration required. unfold IndleCheck.
  fold idleDuration. fold required. split; intros H.
  - assert (E : (idleDuration >=? idleThreshold (shrink (config p))) = true)
      by (apply Z.geb_le; lia).
    rewrite E. rewrite wrapInt_small by (unfold inInt; lia).
    f_equal. rewrite Z.geb_leb.
    destruct (required <=? idles + 1); destruct permission; reflexivity.
  - assert (E : (idleDuration >=? idleThreshold (shrink (config p))) = false).
    { rewrite Z.geb_leb. apply Z.leb_gt. lia. }
    rewrite E. f_equal.
    destruct (idles >? 0) eqn:G.
    + rewrite wrapInt_small by (unfold inInt; lia). lia.
    + assert (idles <= 0) by (rewrite Z.gtb_ltb in G; apply Z.ltb_ge in G; lia).
      lia.
Qed.

(** ** Shrink execution *)

Lemma shouldShrinkMainPool_aborts (p : Pool T) cur newCap inUse :
  inU64 cur ->
  inInt (minCapacity (shrink (config p))) ->
  newCap = 0 \/ cur <= minCapacity (shrink (config p)) \/ cur <= newCap ->
  shouldShrinkMainPool p cur newCap inUse = false.
Proof.
  intros Hc Hm H. unfold shouldShrinkMainPool.
  destruct (newCap =? 0) eqn:E0; [reflexivity |].
  destruct (cur <=? toU64 (minCapacity (shrink (config p)))) eqn:E1;
    [reflexivity |].
  destruct (newCap >=? toInt cur) eqn:E2; [reflexivity |].
  exfalso. apply Z.eqb_neq in E0. apply Z.leb_gt in E1.
  rewrite Z.geb_leb in E2. apply Z.leb_gt in E2.
  pose proof (toInt_le cur Hc).
  destruct H as [H | [H | H]]; try lia.
  unfold toU64 in E1. rewrite wrapU64_small in E1; [lia |].
  unfold inU64, inInt in *. lia.
Qed.

Lemma shouldShrinkMainPool_true (p : Pool T) cur newCap inUse :
  inU64 cur ->
  inInt (minCapacity (shrink (config p))) ->
  shouldShrinkMainPool p cur newCap inUse = true ->
  newCap < cur /\ minCapacity (shrink (config p)) < cur.
Proof.
  intros Hc Hm H. unfold shouldShrinkMainPool in H.
  destruct (newCap =? 0) eqn:E0; [discriminate |].
  destruct (cur <=? toU64 (minCapacity (shrink (config p)))) eqn:E1;
    [discriminate |].
  destruct (newCap >=? toInt cur) eqn:E2; [discriminate |].
  apply Z.leb_gt in E1. rewrite Z.geb_leb in E2. apply Z.leb_gt in E2.
  pose proof (toInt_le cur Hc). split; [lia |].
  destruct (Z_lt_ge_dec (minCapacity (shrink (config p))) 0) as [Hn | Hn].
  - unfold inU64 in Hc. lia.
  - unfold toU64 in E1. rewrite wrapU64_small in E1; [lia |].
    unfold inU64, inInt in *. lia.
Qed.

Lemma adjustMainShrinkTarget_max (p : Pool T) newCap inUse :
  fst (adjustMainShrinkTarget p newCap inUse)
  = Z.max (Z.max newCap (minCapacity (shrink (config p)))) inUse.
Proof.
  unfold adjustMainShrinkTarget. cbn [fst].
  destruct (newCap <? minCapacity (shrink (config p))) eqn:E1.
  - apply Z.ltb_lt in E1.
    destruct (minCapacity (shrink (config p)) <? inUse) eqn:E2.
    + apply Z.ltb_lt in E2. lia.
    + apply Z.ltb_ge in E2. lia.
  - apply Z.ltb_ge in E1.
    destruct (newCap <? inUse) eqn:E2.
    + apply Z.ltb_lt in E2. lia.
    + apply Z.ltb_ge in E2. lia.
Qed.

(** The adjustment touches the growth latch only. *)
Lemma adjustMainShrinkTarget_frame (p : Pool T) newCap inUse :
  let p1 := snd (adjustMainShrinkTarget p newCap inUse) in
  cacheL1 p1 = cacheL1 p /\ pool p1 = pool p /\ config p1 = config p
  /\ stats p1 = stats p /\ cleaned p1 = cleaned p.
Proof.
  unfold adjustMainShrinkTarget. cbn [snd].
  match goal with |- context [if ?b then withGrowthBlocked false p else p] =>
    destruct b end; cbn; auto.
Qed.

Lemma performShrink_no_room now (p : Pool T) newCapacity inUse currentCap :
  wrapInt (newCapacity - inUse) <= 0 ->
  performShrink emptyRequest now p newCapacity inUse currentCap = p.
Proof.
  intros H. unfold performShrink.
  assert (E : (wrapInt (newCapacity - inUse) <=? 0) = true)
    by (apply Z.leb_le; exact H).
  now rewrite E.
Qed.

(** The L1 shrink replaces the channel and one resize mark. *)
Lemma shrinkFastPath_frame (p : Pool T) newCapacity inUse p' :
  shrinkFastPath p newCapacity inUse = Some p' ->
  pool p' = pool p /\ config p' = config p /\ cleaned p' = cleaned p
  /\ isGrowthBlocked p' = isGrowthBlocked p
  /\ currentCapacity (stats p') = currentCapacity (stats p)
  /\ currentL1Capacity (stats p') = currentL1Capacity (stats p)
  /\ totalShrinkEvents (stats p') = totalShrinkEvents (stats p)
  /\ consecutiveShrinks (stats p') = consecutiveShrinks (stats p)
  /\ lastShrinkTime (stats p') = lastShrinkTime (stats p).
Proof.
  unfold shrinkFastPath. intros H.
  destruct (wrapInt (newCapacity - inUse) <=? 0).
  - inversion H; subst. repeat split.
  - destruct (make T newCapacity) as [fresh |]; [| discriminate].
    destruct (drainN _ (cacheL1 p) fresh) as [[old' newL1] |];
      [| discriminate].
    inversion H; subst. cbn. repeat split.
Qed.

Lemma shouldShrinkMainPool_empty (p : Pool T) cur newCap inUse :
  Length (pool p) + chLen (cacheL1 p) = 0 ->
  shouldShrinkMainPool p cur newCap inUse = false.
Proof.
  intros H. unfold shouldShrinkMainPool. rewrite H.
  destruct (newCap =? 0); [reflexivity |].
  destruct (cur <=? toU64 (minCapacity (shrink (config p)))); [reflexivity |].
  destruct (newCap >=? toInt cur); reflexivity.
Qed.

Lemma shouldShrinkMainPool_goes (p : Pool T) cur newCap inUse :
  0 <= cur < 2 ^ 63 ->
  0 <= minCapacity (shrink (config p)) < 2 ^ 63 ->
  newCap <> 0 -> minCapacity (shrink (config p)) < cur -> newCap < cur ->
  Length (pool p) + chLen (cacheL1 p) <> 0 ->
  shouldShrinkMainPool p cur newCap inUse = true.
Proof.
  intros Hc Hm H0 H1 H2 H3. unfold shouldShrinkMainPool.
  assert (E0 : (newCap =? 0) = false) by (apply Z.eqb_neq; exact H0).
  rewrite E0. unfold toU64, toInt.
  rewrite wrapU64_small by (unfold inU64; lia).
  rewrite wrapInt_small by (unfold inInt; lia).
  assert (E1 : (cur <=? minCapacity (shrink (config p))) = false)
    by (apply Z.leb_gt; lia).
  rewrite E1, Z.geb_leb.
  assert (E2 : (cur <=? newCap) = false) by (apply Z.leb_gt; lia).
  rewrite E2.
  assert (E3 : (Length (pool p) + chLen (cacheL1 p) =? 0) = false)
    by (apply Z.eqb_neq; exact H3).
  now rewrite E3.
Qed.

Lemma adjustMainShrinkTarget_eq (p : Pool T) newCap inUse :
  let target :=
    Z.max (Z.max newCap (minCapacity (shrink (config p)))) inUse in
  adjustMainShrinkTarget p newCap inUse
  = (target,
     if target <? hardLimit (config p) then withGrowthBlocked false p else p).
Proof.
  intros target.
  pose proof (adjustMainShrinkTarget_max p newCap inUse) as H.
  fold target in H. unfold adjustMainShrinkTarget in *. cbn [fst] in H.
  now rewrite H.
Qed.

(** C3 (amended).  With [newCap] the capacity [ShrinkExecution] computes,
    the float64 product [float64(current) * (1.0 - shrinkPercent)]
    converted to [int] (its floor when it is finite, not negative and
    below [2^63]): the execution returns the pool as it was when [newCap]
    is zero, or the current capacity is at most [minCapacity], or
    [newCap] is not below the current capacity, or both tiers are empty.
    Otherwise the capacity handed to the shrink of the main pool is
    [max newCap minCapacity inUse], the growth latch is cleared when that
    is below the hard limit, and the execution is the L1 step applied to
    what the shrink of the main pool leaves.  When the clamp exceeds the
    current capacity, the shrink of the main pool changes nothing (the
    target is then [inUse], so that nothing could be kept); the cleared
    latch stays and the L1 step still runs. *)
Theorem ShrinkExecution_abort_and_clamp (now : Z) (p : Pool T) :
  let cur := currentCapacity (stats p) in
  let inUse := toInt (objectsInUse (stats p)) in
  let minCap := minCapacity (shrink (config p)) in
  let available := Length (pool p) + chLen (cacheL1 p) in
  let product :=
    Float64.mul (Float64.ofInt cur)
      (Float64.sub Float64.one (shrinkPercent (shrink (config p)))) in
  let newCap := Float64.toInt conv product in
  let target := Z.max (Z.max newCap minCap) inUse in
  let p1 :=
    if target <? hardLimit (config p) then withGrowthBlocked false p else p in
  let p2 := performShrink emptyRequest now p1 target inUse cur in
  inU64 cur ->
  inInt minCap ->
  (Float64.finiteNotNegative product = true ->
   Qfloor (Float64.valueOf product) < 2 ^ 63 ->
   newCap = Qfloor (Float64.valueOf product))
  /\ (newCap = 0 \/ cur <= minCap \/ cur <= newCap \/ available = 0 ->
      ShrinkExecution conv emptyRequest now p = Some p)
  /\ (cur < 2 ^ 63 -> 0 <= minCap ->
      newCap <> 0 -> minCap < cur -> newCap < cur -> available <> 0 ->
      ShrinkExecution conv emptyRequest now p
      = (if negb (FastPath.enableChannelGrowth (fastPath (config p2)))
            || negb (shouldShrinkFastPath p2)
         then Some p2
         else shrinkFastPath p2
                (adjustFastPathShrinkTarget conv p2
                   (currentL1Capacity (stats p2)))
                inUse)
      /\ (cur < target -> target = inUse /\ p2 = p1)).
Proof.
  intros cur inUse minCap available product newCap target p1 p2 Hc Hm.
  split.
  { intros Hfin Hlt. exact (proj1 (toInt64_floor product Hfin Hlt)). }
  split.
  { intros H. unfold ShrinkExecution, shrinkTarget, Float64.scaleInt.
    fold cur inUse product newCap.
    destruct H as [H | [H | [H | H]]].
    - now rewrite (shouldShrinkMainPool_aborts p cur newCap inUse Hc Hm
                     (or_introl H)).
    - now rewrite (shouldShrinkMainPool_aborts p cur newCap inUse Hc Hm
                     (or_intror (or_introl H))).
    - now rewrite (shouldShrinkMainPool_aborts p cur newCap inUse Hc Hm
                     (or_intror (or_intror H))).
    - now rewrite (shouldShrinkMainPool_empty p cur newCap inUse H). }
  intros Hc63 Hm0 H0 H1 H2 H3. split.
  - unfold ShrinkExecution, shrinkTarget, Float64.scaleInt.
    fold cur inUse product newCap.
    rewrite (shouldShrinkMainPool_goes p cur newCap inUse); auto;
      try (unfold inU64, inInt in *; fold cur minCap; lia).
    cbn [negb]. rewrite adjustMainShrinkTarget_eq. reflexivity.
  - intros Ht.
    assert (Etarget : target = inUse) by (unfold target in *; lia).
    split; [exact Etarget |].
    unfold p2. apply performShrink_no_room. rewrite Etarget, Z.sub_diag.
    rewrite wrapInt_small; [lia | unfold inInt; lia].
Qed.

Lemma Length_nonneg (r : RingBuffer T) : 0 <= Length r.
Proof. unfold Length. lia. Qed.

Lemma firstn_length_Z {A} (n : Z) (l : list A) :
  0 <= n <= Z.of_nat (length l) ->
  Z.of_nat (length (firstn (Z.to_nat n) l)) = n.
Proof.
  intros H. rewrite length_firstn. lia.
Qed.

(** C4 (amended).  In [performShrink], with [keep = newCapacity - inUse]:
    when [keep <= 0] the pool is returned as it was, the old ring buffer
    in place.  Otherwise the first [min keep (Length L2)] values of the
    old ring buffer, and no others, are the content of a new ring buffer
    of capacity [newCapacity] that carries the configuration of the old
    one; the values left in the old buffer go with it, L1 does not
    receive them and the cleaner is not called on them: the trace of
    cleaner calls is the one before the call.  The recorded capacity is
    [newCapacity], [totalShrinkEvents] and [consecutiveShrinks] are one
    more than before and [lastShrinkTime] is the time of the call. *)
Theorem performShrink_replaces_ring_buffer
    (now : Z) (p : Pool T) (newCapacity inUse currentCap : Z) :
  let keep := newCapacity - inUse in
  let itemsToKeep := Z.to_nat (Z.min keep (Length (pool p))) in
  0 <= inUse < 2 ^ 63 ->
  0 <= newCapacity < 2 ^ 63 ->
  inU64 (totalShrinkEvents (stats p) + 1) ->
  inU64 (consecutiveShrinks (stats p) + 1) ->
  (keep <= 0 ->
   performShrink emptyRequest now p newCapacity inUse currentCap = p)
  /\ (0 < keep ->
      let p' := performShrink emptyRequest now p newCapacity inUse currentCap in
      rbItems (pool p') = firstn itemsToKeep (rbItems (pool p))
      /\ rbCap (pool p') = newCapacity
      /\ rbBlock (pool p') = rbBlock (pool p)
      /\ rbRTimeout (pool p') = rbRTimeout (pool p)
      /\ rbWTimeout (pool p') = rbWTimeout (pool p)
      /\ cleaned p' = cleaned p
      /\ cacheL1 p' = cacheL1 p
      /\ currentCapacity (stats p') = newCapacity
      /\ totalShrinkEvents (stats p') = totalShrinkEvents (stats p) + 1
      /\ consecutiveShrinks (stats p') = consecutiveShrinks (stats p) + 1
      /\ lastShrinkTime (stats p') = now).
Proof.
  intros keep itemsToKeep Hin Hnc Hts Hcs.
  assert (Hw : wrapInt (newCapacity - inUse) = keep).
  { apply wrapInt_small. unfold inInt in *. unfold keep. lia. }
  split.
  - intros Hk. apply performShrink_no_room. lia.
  - intros Hk p'. unfold p', performShrink. rewrite Hw.
    assert (E : (keep <=? 0) = false) by (apply Z.leb_gt; lia).
    rewrite E.
    pose proof (Length_nonneg (pool p)) as Hlen.
    assert (Hu : toU64 newCapacity = newCapacity).
    { apply wrapU64_small. unfold inU64, inInt in *. unfold keep in Hk. lia. }
    destruct (Z.min keep (Length (pool p)) >? 0) eqn:Epos.
    + rewrite Z.gtb_ltb in Epos. apply Z.ltb_lt in Epos.
      unfold GetN.
      assert (E1 : (Z.min keep (Length (pool p)) <=? 0) = false)
        by (apply Z.leb_gt; lia).
      assert (E2 : (Length (pool p) =? 0) = false)
        by (apply Z.eqb_neq; lia).
      rewrite E1, E2. cbv beta iota delta [elements]. unfold WriteMany.
      assert (E3 : (Length (CopyConfig (New T newCapacity) (pool p))
                    + Z.of_nat (length (firstn
                        (Z.to_nat (Z.min keep (Length (pool p))))
                        (rbItems (pool p))))
                    <=? rbCap (CopyConfig (New T newCapacity) (pool p))) = true).
      { apply Z.leb_le. rewrite firstn_length_Z by (unfold Length in *; lia).
        unfold Length, CopyConfig, New. cbn. unfold keep. lia. }
      rewrite E3. cbn. rewrite Hu.
      rewrite !wrapU64_small by assumption.
      repeat split.
    + rewrite Z.gtb_ltb in Epos. apply Z.ltb_ge in Epos.
      assert (Hz : Length (pool p) = 0) by lia.
      assert (Hnil : rbItems (pool p) = []).
      { unfold Length in Hz. destruct (rbItems (pool p)); [reflexivity |].
        simpl length in Hz. lia. }
      cbn. rewrite Hu. rewrite !wrapU64_small by assumption.
      unfold itemsToKeep. rewrite Hnil.
      rewrite firstn_nil. repeat split.
Qed.

(** ** Refill *)


(** What the loop of [refill] leaves behind: the first [l1Room] items
    are appended to L1, all the others are appended to L2. *)
Lemma refillLoop_spec (items : list T) : forall res (p : Pool T),
  Length (pool p) + Z.of_nat (length (skipn (l1Room p) items))
    <= rbCap (pool p) ->
  0 <= ItemsMoved res ->
  ItemsMoved res + Z.of_nat (length items) < 2 ^ 63 ->
  0 <= ItemsFailed res ->
  ItemsFailed res + Z.of_nat (length items) < 2 ^ 63 ->
  let res' := fst (refillLoop items res p) in
  let p' := snd (refillLoop items res p) in
  chItems (cacheL1 p') = chItems (cacheL1 p) ++ firstn (l1Room p) items
  /\ chCap (cacheL1 p') = chCap (cacheL1 p)
  /\ rbItems (pool p') = rbItems (pool p) ++ skipn (l1Room p) items
  /\ rbCap (pool p') = rbCap (pool p)
  /\ ItemsMoved res'
     = ItemsMoved res + Z.of_nat (length (firstn (l1Room p) items))
  /\ ItemsFailed res'
     = ItemsFailed res + Z.of_nat (length (skipn (l1Room p) items))
  /\ GrowthNeeded res' = GrowthNeeded res.
Proof.
  induction items as [| item rest IH]; intros res p Hcap Hm0 Hm Hf0 Hf.
  - cbn. rewrite firstn_nil, skipn_nil, !app_nil_r. cbn.
    repeat split; lia.
  - cbn [refillLoop]. unfold trySend.
    destruct (chLen (cacheL1 p) <? chCap (cacheL1 p)) eqn:E.
    + apply Z.ltb_lt in E.
      assert (Hroom : l1Room p = S (l1Room (withCacheL1
                {| chItems := chItems (cacheL1 p) ++ [item];
                   chCap := chCap (cacheL1 p) |} p))).
      { unfold l1Room, chLen. cbn. rewrite length_app. cbn.
        unfold chLen in E. lia. }
      set (p1 := withCacheL1 _ p) in *.
      simpl length in Hm, Hf. rewrite Nat2Z.inj_succ in Hm, Hf.
      specialize (IH (addMoved res) p1).
      rewrite Hroom in Hcap. cbn [skipn] in Hcap.
      assert (Ha : ItemsMoved (addMoved res) = ItemsMoved res + 1).
      { cbn. apply wrapInt_small. unfold inInt. lia. }
      destruct IH as (H1 & H2 & H3 & H4 & H5 & H6 & H7); try exact Hcap;
        try (rewrite Ha; lia); try (cbn; lia).
      rewrite Hroom. cbn [firstn skipn].
      rewrite H1, H2, H3, H4, H5, H6, H7, Ha.
      unfold p1. cbn. rewrite <- app_assoc. cbn.
      repeat split; lia.
    + apply Z.ltb_ge in E.
      assert (Hroom : l1Room p = O) by (unfold l1Room; lia).
      rewrite Hroom in Hcap |- *. cbn [skipn firstn] in Hcap |- *.
      simpl length in Hcap, Hm, Hf. rewrite Nat2Z.inj_succ in Hcap, Hm, Hf.
      unfold Write.
      assert (Ew : (Length (pool p) <? rbCap (pool p)) = true)
        by (apply Z.ltb_lt; lia).
      rewrite Ew. cbn [fst].
      set (p1 := withPool _ p).
      assert (Hroom1 : l1Room p1 = O) by (unfold l1Room, p1; cbn; lia).
      specialize (IH (addFailed res) p1).
      rewrite Hroom1 in IH. cbn [skipn firstn] in IH.
      assert (Ha : ItemsFailed (addFailed res) = ItemsFailed res + 1).
      { cbn. apply wrapInt_small. unfold inInt. lia. }
      destruct IH as (H1 & H2 & H3 & H4 & H5 & H6 & H7);
        try (rewrite Ha; lia); try (cbn; lia).
      { unfold p1, Length. cbn. rewrite length_app. cbn.
        unfold Length in Hcap. lia. }
      rewrite H1, H2, H3, H4, H5, H6, H7, Ha.
      unfold p1. cbn. rewrite <- app_assoc. cbn.
      repeat split; lia.
Qed.


Lemma refillMove_spec fillTarget res (q : Pool T) :
  0 <= fillTarget < 2 ^ 63 ->
  Length (pool q) <= rbCap (pool q) ->
  ItemsMoved res = 0 ->
  ItemsFailed res = 0 ->
  movedAsSpecified fillTarget q
    (fst (refillMove emptyRequest fillTarget res q))
    (snd (refillMove emptyRequest fillTarget res q))
  /\ GrowthNeeded (fst (refillMove emptyRequest fillTarget res q))
     = GrowthNeeded res.
Proof.
  intros Hft Hcap Hm Hf. unfold movedAsSpecified, refillMove, GetN.
  pose proof (Length_nonneg (pool q)) as Hlen.
  set (n := Z.min fillTarget (Length (pool q))).
  assert (Hlenn : length (firstn (Z.to_nat n) (rbItems (pool q)))
                  = Z.to_nat n).
  { rewrite length_firstn. unfold Length in *. lia. }
  destruct (n <=? 0) eqn:E0.
  - apply Z.leb_le in E0. replace (Z.to_nat n) with O by lia.
    destruct emptyRequest as [nl [e |]]; [destruct e |]; destruct nl; cbn;
      rewrite firstn_nil, skipn_nil, !app_nil_r; cbn;
      repeat split; auto.
  - apply Z.leb_gt in E0.
    assert (E1 : (Length (pool q) =? 0) = false) by (apply Z.eqb_neq; lia).
    rewrite E1.
    set (items := firstn (Z.to_nat n) (rbItems (pool q))) in *.
    set (q1 := withPool _ q).
    assert (Hroom : l1Room q1 = l1Room q) by reflexivity.
    assert (Hitems : Z.of_nat (length items) = n) by lia.
    pose proof (refillLoop_spec items res q1) as HL.
    rewrite Hroom in HL.
    assert (Hskip : Z.of_nat (length (skipn (l1Room q) items))
                    <= Z.of_nat (length items)).
    { rewrite length_skipn. lia. }
    destruct HL as (H1 & H2 & H3 & H4 & H5 & H6 & H7); try lia.
    { unfold q1, Length. cbn. rewrite length_skipn.
      unfold Length in *. lia. }
    destruct (refillLoop items res q1) as [res' q'] eqn:ER.
    cbn [fst snd] in *.
    cbn [ItemsMoved ItemsFailed GrowthNeeded setReason setSuccess].
    rewrite H1, H2, H3, H4, H5, H6, H7, Hm, Hf.
    unfold q1. cbn. repeat split; auto.
Qed.

(** C6 (amended).  In [refill] with a fill target: when L2 is empty or
    holds fewer values than the target and growth is blocked, the result
    is the one of a blocked growth and the pool is as it was, nothing
    moved.  When growth is not blocked the growth controller runs first;
    when it fails, the result is the one of a failed growth, nothing is
    read from L2 and nothing moved, and the pool is the one the growth
    left; when it succeeds the move works on the pool it returns.
    Without a need to grow the move works on the pool as it is.  The
    move reads exactly [min fillTarget (Length L2)] items from the front
    of L2, appends to L1 as many of them as L1 has free slots, and
    appends every other one to L2 again: none is dropped, and
    [ItemsMoved] and [ItemsFailed] count the two groups. *)
Theorem refill_grows_then_moves
    (growFn : Z -> Pool T -> option (bool * Pool T))
    (now fillTarget : Z) (p q : Pool T) :
  let short := Length (pool p) = 0 \/ Length (pool p) < fillTarget in
  0 <= fillTarget < 2 ^ 63 ->
  (short ->
   isGrowthBlocked p = true ->
   exists res,
     refill emptyRequest growFn now fillTarget p = Some (res, p)
     /\ Reason res = ReasonGrowthBlocked /\ GrowthBlocked res = true
     /\ Success res = false /\ ItemsMoved res = 0 /\ ItemsFailed res = 0)
  /\ (short ->
      isGrowthBlocked p = false ->
      growFn now p = Some (false, q) ->
      exists res,
        refill emptyRequest growFn now fillTarget p = Some (res, q)
        /\ Reason res = ReasonGrowthFailed /\ Success res = false
        /\ GrowthNeeded res = false
        /\ ItemsMoved res = 0 /\ ItemsFailed res = 0)
  /\ (short ->
      isGrowthBlocked p = false ->
      growFn now p = Some (true, q) ->
      Length (pool q) <= rbCap (pool q) ->
      exists res q',
        refill emptyRequest growFn now fillTarget p = Some (res, q')
        /\ GrowthNeeded res = true
        /\ movedAsSpecified fillTarget q res q')
  /\ (fillTarget <= Length (pool p) ->
      0 < Length (pool p) ->
      Length (pool p) <= rbCap (pool p) ->
      exists res p',
        refill emptyRequest growFn now fillTarget p = Some (res, p')
        /\ GrowthNeeded res = false
        /\ movedAsSpecified fillTarget p res p').
Proof.
  intros short Hft.
  assert (Hgrow : short ->
            (Length (pool p) =? 0) || (fillTarget >? Length (pool p)) = true).
  { intros [H | H].
    - rewrite H. reflexivity.
    - apply orb_true_iff. right. rewrite Z.gtb_ltb. apply Z.ltb_lt. lia. }
  split; [| split; [| split]].
  - intros Hshort Hb. unfold refill. rewrite (Hgrow Hshort), Hb.
    eexists. split; [reflexivity |]. cbn. repeat split.
  - intros Hshort Hb Hg. unfold refill. rewrite (Hgrow Hshort), Hb, Hg.
    eexists. split; [reflexivity |]. cbn. repeat split.
  - intros Hshort Hb Hg Hcap. unfold refill.
    rewrite (Hgrow Hshort), Hb, Hg.
    destruct (refillMove_spec fillTarget (setGrowthNeeded true zeroResult) q)
      as [Hmv Hgn]; auto.
    destruct (refillMove emptyRequest fillTarget
                (setGrowthNeeded true zeroResult) q) as [res q'] eqn:ER.
    exists res, q'. cbn [fst snd] in Hmv, Hgn. auto.
  - intros Hfit Hpos Hcap. unfold refill.
    assert (E : (fillTarget >? Length (pool p)) = false).
    { rewrite Z.gtb_ltb. apply Z.ltb_ge. lia. }
    assert (E0 : (Length (pool p) =? 0) = false) by (apply Z.eqb_neq; lia).
    rewrite E, E0. cbn [orb].
    destruct (refillMove_spec fillTarget zeroResult p) as [Hmv Hgn]; auto.
    destruct (refillMove emptyRequest fillTarget zeroResult p)
      as [res p'] eqn:ER.
    exists res, p'. cbn [fst snd] in Hmv, Hgn. auto.
Qed.

(** ** The growth controller and the hard limit *)

Lemma growthWouldExceedHardLimit_iff (p : Pool T) newCapacity :
  inU64 (hardLimit (config p)) ->
  growthWouldExceedHardLimit p newCapacity = true
  <-> hardLimit (config p) < newCapacity
      /\ hardLimit (config p) <= currentCapacity (stats p).
Proof.
  intros Hh. unfold growthWouldExceedHardLimit, toU64.
  rewrite wrapU64_small by exact Hh.
  rewrite andb_true_iff, Z.gtb_ltb, Z.ltb_lt, Z.geb_leb, Z.leb_le.
  reflexivity.
Qed.

Lemma needsToShrinkToHardLimit_iff (p : Pool T) currentCap newCapacity :
  inU64 (hardLimit (config p)) ->
  needsToShrinkToHardLimit p currentCap newCapacity = true
  <-> currentCap < hardLimit (config p) < newCapacity.
Proof.
  intros Hh. unfold needsToShrinkToHardLimit, toU64.
  rewrite wrapU64_small by exact Hh.
  rewrite andb_true_iff, Z.gtb_ltb, !Z.ltb_lt. reflexivity.
Qed.

(** The L1 resize leaves the main capacity, the ring buffer, the
    configuration and the growth latch alone. *)
Lemma tryL1ResizeIfTriggered_frame (p p' : Pool T) :
  tryL1ResizeIfTriggered conv p = Some p' ->
  pool p' = pool p /\ config p' = config p
  /\ isGrowthBlocked p' = isGrowthBlocked p
  /\ currentCapacity (stats p') = currentCapacity (stats p)
  /\ totalGrowthEvents (stats p') = totalGrowthEvents (stats p).
Proof.
  unfold tryL1ResizeIfTriggered. intros H.
  destruct (negb (FastPath.enableChannelGrowth (fastPath (config p)))).
  { inversion H; subst. auto. }
  match type of H with (if ?b then _ else _) = _ => destruct b end.
  { inversion H; subst. auto. }
  match type of H with match make T ?n with _ => _ end = _ =>
    destruct (make T n) as [fresh |] end; [| discriminate].
  destruct (drainAll (chItems (cacheL1 p)) fresh) as [newL1 |];
    [| discriminate].
  inversion H; subst. cbn. auto.
Qed.

Lemma tryL1ResizeIfTriggered_disabled (p : Pool T) :
  FastPath.enableChannelGrowth (fastPath (config p)) = false ->
  tryL1ResizeIfTriggered conv p = Some p.
Proof.
  intros H. unfold tryL1ResizeIfTriggered. now rewrite H.
Qed.


Lemma drainAll_total (old : list T) : forall c,
  chLen c + Z.of_nat (length old) <= chCap c ->
  exists c', drainAll old c = Some c'.
Proof.
  induction old as [| obj rest IH]; intros c H; [cbn; eauto |].
  cbn [drainAll]. unfold trySend. simpl length in H.
  rewrite Nat2Z.inj_succ in H.
  assert (E : (chLen c <? chCap c) = true) by (apply Z.ltb_lt; lia).
  rewrite E. apply IH. unfold chLen in *. cbn. rewrite length_app. cbn. lia.
Qed.

Lemma l1ResizeFits_ext (p q : Pool T) :
  cacheL1 q = cacheL1 p ->
  config q = config p ->
  currentL1Capacity (stats q) = currentL1Capacity (stats p) ->
  l1ResizeFits conv p -> l1ResizeFits conv q.
Proof.
  unfold l1ResizeFits. intros -> -> ->. auto.
Qed.

(** The L1 resize returns whenever it has room for what L1 holds. *)
Lemma tryL1ResizeIfTriggered_total (p : Pool T) :
  l1ResizeFits conv p -> exists p', tryL1ResizeIfTriggered conv p = Some p'.
Proof.
  intros (Hc & Hlen & Hno). unfold tryL1ResizeIfTriggered.
  destruct (negb (FastPath.enableChannelGrowth (fastPath (config p))));
    [eauto |].
  match goal with |- context [if ?b then Some p else _] =>
    destruct b end; [eauto |].
  set (cfg := FastPath.growth (fastPath (config p))) in *.
  set (cur := currentL1Capacity (stats p)) in *.
  pose proof (scaleUint64_range cur (growthPercent cfg)) as Sg.
  pose proof (scaleUint64_range cur (fixedGrowthFactor cfg)) as Sf.
  unfold inU64 in Sg, Sf.
  match goal with |- context [make T ?n] => set (newCap := n) end.
  assert (Hnew : cur <= newCap < 2 ^ 64).
  { unfold newCap.
    destruct (cur <? Float64.scaleUint64 conv cur
                       (exponentialThresholdFactor cfg)).
    - rewrite maxUint64_max. rewrite wrapU64_small; unfold inU64; lia.
    - rewrite wrapU64_small; unfold inU64; lia. }
  unfold make.
  assert (E : (newCap <? 0) = false) by (apply Z.ltb_ge; lia).
  rewrite E.
  destruct (drainAll_total (chItems (cacheL1 p))
              {| chItems := []; chCap := newCap |}) as [c' Hd].
  { unfold chLen in *. cbn. lia. }
  rewrite Hd. eauto.
Qed.

Lemma writeFresh_cap n :
  forall r, rbCap (writeFresh allocator n r) = rbCap r.
Proof.
  induction n as [| k IH]; intros r; [reflexivity |].
  cbn [writeFresh]. rewrite IH. unfold Write.
  destruct (Length r <? rbCap r); reflexivity.
Qed.

Lemma grow_outcome now (p : Pool T) r :
  grow conv allocator now p = Some r ->
  if growthWouldExceedHardLimit p (growNewCapacity conv p)
  then r = (false, withGrowthBlocked true p)
  else fst r = true
       /\ currentCapacity (stats (snd r)) = grownCapacity conv p
       /\ grownCapacity conv p <= rbCap (pool (snd r))
       /\ totalGrowthEvents (stats (snd r))
          = wrapU64 (totalGrowthEvents (stats p) + 1)
       /\ lastGrowTime (stats (snd r)) = now
       /\ isGrowthBlocked (snd r) = isGrowthBlocked p.
Proof.
  unfold grow. intros H.
  destruct (growthWouldExceedHardLimit p (growNewCapacity conv p)).
  { now inversion H. }
  fold (grownCapacity conv p) in H.
  match type of H with
  | match tryL1ResizeIfTriggered conv ?x with _ => _ end = _ =>
      set (p1 := x) in *;
      destruct (tryL1ResizeIfTriggered conv p1) as [p2 |] eqn:E
  end; [| discriminate].
  inversion H; subst r. cbn [fst snd].
  destruct (tryL1ResizeIfTriggered_frame _ _ E) as (Hp & _ & Hb & Hc & Hg).
  cbn. rewrite Hp, Hb, Hc, Hg. unfold p1. cbn.
  rewrite writeFresh_cap.
  repeat split.
  destruct (rbCap (pool p) <? grownCapacity conv p) eqn:El; cbn.
  - lia.
  - apply Z.ltb_ge in El. lia.
Qed.

(** C2.  The growth controller fails exactly when the capacity it
    proposes exceeds the hard limit while the current capacity is at or
    above the limit, and that failure sets [isGrowthBlocked] and changes
    nothing else.  When the current capacity is below the limit and the
    proposal above it, the growth succeeds with the recorded capacity
    equal to the hard limit.  The controller returns whenever channel
    growth is off or the L1 resize has room for what L1 holds. *)
Theorem grow_fails_exactly_at_hard_limit (now : Z) (p : Pool T) :
  let cur := currentCapacity (stats p) in
  let limit := hardLimit (config p) in
  let proposed := growNewCapacity conv p in
  inU64 limit ->
  (limit < proposed /\ limit <= cur ->
   grow conv allocator now p = Some (false, withGrowthBlocked true p))
  /\ (forall p', grow conv allocator now p = Some (false, p') ->
      (limit < proposed /\ limit <= cur) /\ isGrowthBlocked p' = true)
  /\ (cur < limit < proposed ->
      forall ok p', grow conv allocator now p = Some (ok, p') ->
      ok = true /\ currentCapacity (stats p') = limit)
  /\ (FastPath.enableChannelGrowth (fastPath (config p)) = false
      \/ l1ResizeFits conv p ->
      exists ok p', grow conv allocator now p = Some (ok, p')).
Proof.
  intros cur limit proposed Hl.
  split; [| split; [| split]].
  - intros H. apply (growthWouldExceedHardLimit_iff p proposed Hl) in H.
    unfold grow. fold proposed. now rewrite H.
  - intros p' H. pose proof (grow_outcome _ _ _ H) as Ho.
    fold proposed in Ho.
    destruct (growthWouldExceedHardLimit p proposed) eqn:E.
    + apply (growthWouldExceedHardLimit_iff p proposed Hl) in E.
      inversion Ho; subst. auto.
    + cbn [fst] in Ho. destruct Ho as [Ho _]. discriminate.
  - intros Hc ok p' H. pose proof (grow_outcome _ _ _ H) as Ho.
    fold proposed in Ho.
    destruct (growthWouldExceedHardLimit p proposed) eqn:E.
    + apply (growthWouldExceedHardLimit_iff p proposed Hl) in E.
      fold cur limit in E. lia.
    + cbn [fst snd] in Ho. destruct Ho as (Ho & Hcap & _).
      split; [exact Ho |]. rewrite Hcap. unfold grownCapacity.
      fold cur proposed.
      assert (N : needsToShrinkToHardLimit p cur proposed = true)
        by (apply needsToShrinkToHardLimit_iff; auto).
      rewrite N. apply wrapU64_small. exact Hl.
  - intros Hret. unfold grow.
    destruct (growthWouldExceedHardLimit p (growNewCapacity conv p)); [eauto |].
    destruct Hret as [Hoff | Hfits].
    + rewrite tryL1ResizeIfTriggered_disabled by exact Hoff. eauto.
    + match goal with |- context [tryL1ResizeIfTriggered conv ?x] =>
        destruct (tryL1ResizeIfTriggered_total x) as [p2 Hp2]
      end.
      * revert Hfits. apply l1ResizeFits_ext; reflexivity.
      * rewrite Hp2. eauto.
Qed.

(** ** Channel growth switched off *)

Lemma performShrink_frame now (p : Pool T) newCapacity inUse currentCap :
  let p' := performShrink emptyRequest now p newCapacity inUse currentCap in
  cacheL1 p' = cacheL1 p /\ config p' = config p
  /\ currentL1Capacity (stats p') = currentL1Capacity (stats p).
Proof.
  unfold performShrink.
  destruct (wrapInt (newCapacity - inUse) <=? 0); [auto |].
  destruct (Z.min (wrapInt (newCapacity - inUse)) (Length (pool p)) >? 0).
  - destruct (GetN emptyRequest _ _) as [[old items] [e |]].
    + destruct (negb (isErrIsEmpty e)); [cbn; auto |].
      destruct (WriteMany _ _) as [[filled k] [e' |]]; cbn; auto.
    + destruct (WriteMany _ _) as [[filled k] [e' |]]; cbn; auto.
  - cbn. auto.
Qed.

Lemma refillLoop_frame (items : list T) : forall res (p : Pool T),
  let p' := snd (refillLoop items res p) in
  chCap (cacheL1 p') = chCap (cacheL1 p) /\ stats p' = stats p
  /\ config p' = config p.
Proof.
  induction items as [| item rest IH]; intros res p; [cbn; auto |].
  cbn [refillLoop]. unfold trySend.
  destruct (chLen (cacheL1 p) <? chCap (cacheL1 p)).
  - destruct (IH (addMoved res)
                (withCacheL1 {| chItems := chItems (cacheL1 p) ++ [item];
                                chCap := chCap (cacheL1 p) |} p))
      as (H1 & H2 & H3).
    cbn in H1, H2, H3. auto.
  - destruct (IH (addFailed res) (withPool (fst (Write (pool p) item)) p))
      as (H1 & H2 & H3).
    cbn in H1, H2, H3. auto.
Qed.

Lemma refillMove_frame fillTarget res (p : Pool T) :
  let p' := snd (refillMove emptyRequest fillTarget res p) in
  chCap (cacheL1 p') = chCap (cacheL1 p) /\ stats p' = stats p
  /\ config p' = config p.
Proof.
  unfold refillMove.
  destruct (GetN emptyRequest (pool p) (Z.min fillTarget (Length (pool p))))
    as [[rb items] err].
  cbv zeta.
  assert (HL : forall items,
             let p' := snd (refillLoop items res (withPool rb p)) in
             chCap (cacheL1 p') = chCap (cacheL1 p) /\ stats p' = stats p
             /\ config p' = config p)
    by (intros l; exact (refillLoop_frame l res (withPool rb p))).
  cbv zeta in HL.
  destruct err as [e |].
  - destruct (negb (isErrIsEmpty e)); [cbn; auto |].
    specialize (HL (elements items)).
    destruct (refillLoop (elements items) res (withPool rb p)) as [res' p'].
    exact HL.
  - destruct items as [l |]; [| cbn; auto].
    specialize (HL l).
    destruct (refillLoop l res (withPool rb p)) as [res' p'].
    exact HL.
Qed.

(** C9.  With [enableChannelGrowth] off, the growth-coupled L1 resize
    returns the pool as it was; a shrink execution, a growth and a refill
    all return, and leave the capacity of the L1 channel and the recorded
    L1 capacity as they were (shrink and growth leave the whole channel
    alone); and a growth that is not stopped by the hard limit still
    succeeds, records the grown capacity and gives the ring buffer at
    least that capacity. *)
Theorem channel_growth_disabled_keeps_L1
    (now fillTarget : Z) (p : Pool T) :
  FastPath.enableChannelGrowth (fastPath (config p)) = false ->
  tryL1ResizeIfTriggered conv p = Some p
  /\ (exists p',
        ShrinkExecution conv emptyRequest now p = Some p'
        /\ cacheL1 p' = cacheL1 p
        /\ currentL1Capacity (stats p') = currentL1Capacity (stats p))
  /\ (exists ok p',
        grow conv allocator now p = Some (ok, p')
        /\ cacheL1 p' = cacheL1 p
        /\ currentL1Capacity (stats p') = currentL1Capacity (stats p)
        /\ (growthWouldExceedHardLimit p (growNewCapacity conv p) = false ->
            ok = true
            /\ currentCapacity (stats p') = grownCapacity conv p
            /\ grownCapacity conv p <= rbCap (pool p')))
  /\ (exists res p',
        refill emptyRequest (grow conv allocator) now fillTarget p
        = Some (res, p')
        /\ chCap (cacheL1 p') = chCap (cacheL1 p)
        /\ currentL1Capacity (stats p') = currentL1Capacity (stats p)).
Proof.
  intros Hoff.
  assert (Hgrow : exists ok p',
            grow conv allocator now p = Some (ok, p')
            /\ cacheL1 p' = cacheL1 p
            /\ currentL1Capacity (stats p') = currentL1Capacity (stats p)
            /\ config p' = config p
            /\ (growthWouldExceedHardLimit p (growNewCapacity conv p) = false ->
                ok = true
                /\ currentCapacity (stats p') = grownCapacity conv p
                /\ grownCapacity conv p <= rbCap (pool p'))).
  { destruct (grow conv allocator now p) as [[ok p'] |] eqn:G.
    - exists ok, p'. pose proof (grow_outcome _ _ _ G) as Ho.
      split; [reflexivity |].
      unfold grow in G.
      destruct (growthWouldExceedHardLimit p (growNewCapacity conv p)).
      + inversion G; subst. cbn. repeat split; discriminate.
      + rewrite tryL1ResizeIfTriggered_disabled in G by exact Hoff.
        cbn [fst snd] in Ho. destruct Ho as (Ho & Hc & Hr & _).
        inversion G; subst. cbn. repeat split; auto.
    - exfalso. unfold grow in G.
      destruct (growthWouldExceedHardLimit p (growNewCapacity conv p));
        [discriminate |].
      rewrite tryL1ResizeIfTriggered_disabled in G by exact Hoff.
      discriminate. }
  split; [now apply tryL1ResizeIfTriggered_disabled |].
  split; [| split].
  - unfold ShrinkExecution.
    destruct (negb (shouldShrinkMainPool p _ _ _)); [eauto |].
    pose proof (adjustMainShrinkTarget_frame p (shrinkTarget conv p)
                  (toInt (objectsInUse (stats p)))) as Hfr.
    destruct (adjustMainShrinkTarget p _ _) as [t p1].
    cbn [snd] in Hfr. destruct Hfr as (Hl1 & _ & Hcfg & Hst & _).
    pose proof (performShrink_frame now p1 t
                  (toInt (objectsInUse (stats p)))
                  (currentCapacity (stats p))) as Hps.
    cbn zeta in Hps. destruct Hps as (Pl1 & Pcfg & Pst).
    rewrite Pcfg, Hcfg, Hoff. cbn [negb orb].
    eexists. split; [reflexivity |].
    rewrite Pl1, Pst, Hl1, Hst. auto.
  - destruct Hgrow as (ok & p' & G & H1 & H2 & _ & H4).
    exists ok, p'. auto.
  - unfold refill.
    pose proof (refillMove_frame fillTarget zeroResult p) as Hm0.
    destruct ((Length (pool p) =? 0) || (fillTarget >? Length (pool p))).
    + destruct (isGrowthBlocked p); [eauto |].
      destruct Hgrow as (ok & q & G & H1 & H2 & H3 & _).
      rewrite G. destruct ok.
      * pose proof (refillMove_frame fillTarget
                      (setGrowthNeeded true zeroResult) q) as Hm.
        destruct (refillMove emptyRequest fillTarget
                    (setGrowthNeeded true zeroResult) q)
          as [res q'].
        cbn [snd] in Hm. destruct Hm as (M1 & M2 & _).
        exists res, q'. rewrite M1, M2, H1, H2. auto.
      * eexists _, q. rewrite H1, H2. auto.
    + destruct (refillMove emptyRequest fillTarget zeroResult p) as [res p'].
      cbn [snd] in Hm0. destruct Hm0 as (M1 & M2 & _).
      exists res, p'. rewrite M1, M2. auto.
Qed.

(** ** Further properties of refill *)

Lemma refill_stage (growFn : Z -> Pool T -> option (bool * Pool T))
    (now fillTarget : Z) (p q : Pool T) :
  (fillTarget <= Length (pool p) /\ 0 < Length (pool p) /\ q = p)
  \/ ((Length (pool p) = 0 \/ Length (pool p) < fillTarget)
      /\ isGrowthBlocked p = false /\ growFn now p = Some (true, q)) ->
  exists res0,
    ItemsMoved res0 = 0 /\ ItemsFailed res0 = 0
    /\ refill emptyRequest growFn now fillTarget p
       = Some (refillMove emptyRequest fillTarget res0 q).
Proof.
  intros [(Hfit & Hpos & ->) | (Hneed & Hb & Hg)]; unfold refill.
  - assert (E : (fillTarget >? Length (pool p)) = false).
    { rewrite Z.gtb_ltb. apply Z.ltb_ge. lia. }
    assert (E0 : (Length (pool p) =? 0) = false) by (apply Z.eqb_neq; lia).
    rewrite E, E0. cbn [orb]. exists zeroResult. auto.
  - assert (E : (Length (pool p) =? 0) || (fillTarget >? Length (pool p))
                = true).
    { apply orb_true_iff. destruct Hneed as [H | H].
      - left. now apply Z.eqb_eq.
      - right. rewrite Z.gtb_ltb. apply Z.ltb_lt. lia. }
    rewrite E, Hb, Hg. exists (setGrowthNeeded true zeroResult). auto.
Qed.

(** X1.  Whether [refill] had to grow first or not, its move neither
    loses nor duplicates a value: the values of L1 and L2 after the call
    are those of the pool the move started from, and [ItemsMoved] and
    [ItemsFailed] add up to the number of items read,
    [min fillTarget (Length L2)]. *)
Theorem refill_conserves_values
    (growFn : Z -> Pool T -> option (bool * Pool T))
    (now fillTarget : Z) (p q : Pool T) :
  0 <= fillTarget < 2 ^ 63 ->
  Length (pool q) <= rbCap (pool q) ->
  (fillTarget <= Length (pool p) /\ 0 < Length (pool p) /\ q = p)
  \/ ((Length (pool p) = 0 \/ Length (pool p) < fillTarget)
      /\ isGrowthBlocked p = false /\ growFn now p = Some (true, q)) ->
  exists res p',
    refill emptyRequest growFn now fillTarget p = Some (res, p')
    /\ Permutation (chItems (cacheL1 p') ++ rbItems (pool p'))
                   (chItems (cacheL1 q) ++ rbItems (pool q))
    /\ ItemsMoved res + ItemsFailed res = Z.min fillTarget (Length (pool q)).
Proof.
  intros Hft Hcap Hstage.
  destruct (refill_stage growFn now fillTarget p q Hstage)
    as (res0 & Hm0 & Hf0 & Hr).
  destruct (refillMove_spec fillTarget res0 q Hft Hcap Hm0 Hf0) as [Hmv _].
  destruct (refillMove emptyRequest fillTarget res0 q) as [res p'].
  exists res, p'. split; [exact Hr |].
  cbn [fst snd] in Hmv.
  destruct Hmv as (Hlen & H1 & _ & H2 & _ & Hm & Hf).
  set (n := Z.to_nat (Z.min fillTarget (Length (pool q)))) in *.
  set (items := firstn n (rbItems (pool q))) in *.
  split.
  - rewrite H1, H2.
    pose proof (firstn_skipn n (rbItems (pool q))) as E2. fold items in E2.
    pose proof (firstn_skipn (l1Room q) items) as E3.
    set (A := firstn (l1Room q) items) in *.
    set (B := skipn (l1Room q) items) in *.
    set (S := skipn n (rbItems (pool q))) in *.
    clearbody A B S. rewrite <- E2, <- E3.
    rewrite <- !app_assoc. apply Permutation_app_head.
    apply Permutation_app_head. apply Permutation_app_comm.
  - rewrite Hm, Hf. rewrite <- Nat2Z.inj_add, <- length_app, firstn_skipn.
    rewrite Hlen. unfold n. pose proof (Length_nonneg (pool q)). lia.
Qed.

(** X2.  [refill] keeps both tiers within their capacities: when L1 and
    L2 of the pool the move starts from hold no more than their
    capacities, so do L1 and L2 afterwards, and the capacities are
    unchanged. *)
Theorem refill_respects_capacities
    (growFn : Z -> Pool T -> option (bool * Pool T))
    (now fillTarget : Z) (p q : Pool T) :
  0 <= fillTarget < 2 ^ 63 ->
  chLen (cacheL1 q) <= chCap (cacheL1 q) ->
  Length (pool q) <= rbCap (pool q) ->
  (fillTarget <= Length (pool p) /\ 0 < Length (pool p) /\ q = p)
  \/ ((Length (pool p) = 0 \/ Length (pool p) < fillTarget)
      /\ isGrowthBlocked p = false /\ growFn now p = Some (true, q)) ->
  exists res p',
    refill emptyRequest growFn now fillTarget p = Some (res, p')
    /\ chLen (cacheL1 p') <= chCap (cacheL1 p')
    /\ Length (pool p') <= rbCap (pool p')
    /\ chCap (cacheL1 p') = chCap (cacheL1 q)
    /\ rbCap (pool p') = rbCap (pool q).
Proof.
  intros Hft Hl1 Hcap Hstage.
  destruct (refill_stage growFn now fillTarget p q Hstage)
    as (res0 & Hm0 & Hf0 & Hr).
  destruct (refillMove_spec fillTarget res0 q Hft Hcap Hm0 Hf0) as [Hmv _].
  destruct (refillMove emptyRequest fillTarget res0 q) as [res p'].
  exists res, p'. split; [exact Hr |].
  cbn [fst snd] in Hmv.
  destruct Hmv as (Hlen & H1 & H1c & H2 & H2c & _ & _).
  set (n := Z.to_nat (Z.min fillTarget (Length (pool q)))) in *.
  set (items := firstn n (rbItems (pool q))) in *.
  pose proof (Length_nonneg (pool q)) as Hnn.
  assert (Hn : (n <= length (rbItems (pool q)))%nat)
    by (unfold n, Length in *; lia).
  repeat split; auto.
  - unfold chLen. rewrite H1, H1c, length_app, length_firstn.
    unfold l1Room, chLen in *. lia.
  - unfold Length. rewrite H2, H2c, length_app, !length_skipn.
    unfold Length in *. lia.
Qed.

(** X3.  A [refill] with a fill target of zero or less on a non-empty L2
    asks the ring buffer for no items and moves nothing: L1, L2, the
    statistics and the growth latch are as they were, whatever the ring
    buffer answers.  The result follows the answer: it reports the ring
    buffer error when the answer carries one other than the empty
    sentinel, [NoItemsToMove] when the answer is a [nil] slice without
    error, and success with nothing moved otherwise.  A [refill] whose
    growth fails reports [GrowthFailed] without success and returns
    the pool as the growth controller left it. *)
Theorem refill_returns_without_moving
    (growFn : Z -> Pool T -> option (bool * Pool T))
    (now fillTarget : Z) (p q : Pool T) :
  (fillTarget <= 0 -> 0 < Length (pool p) ->
   exists res p',
     refill emptyRequest growFn now fillTarget p = Some (res, p')
     /\ match failure emptyRequest with
        | None =>
            if nilSlice emptyRequest
            then Reason res = ReasonNoItemsToMove /\ Success res = false
            else Reason res = ReasonRefillSucceeded /\ Success res = true
        | Some ErrIsEmpty =>
            Reason res = ReasonRefillSucceeded /\ Success res = true
        | Some e => Reason res = ReasonRingBufferError e /\ Success res = false
        end
     /\ ItemsMoved res = 0 /\ ItemsFailed res = 0
     /\ GrowthNeeded res = false
     /\ cacheL1 p' = cacheL1 p /\ pool p' = pool p /\ stats p' = stats p
     /\ isGrowthBlocked p' = isGrowthBlocked p)
  /\ (Length (pool p) = 0 \/ Length (pool p) < fillTarget ->
      isGrowthBlocked p = false ->
      growFn now p = Some (false, q) ->
      exists res,
        refill emptyRequest growFn now fillTarget p = Some (res, q)
        /\ Reason res = ReasonGrowthFailed /\ Success res = false
        /\ ItemsMoved res = 0 /\ ItemsFailed res = 0).
Proof.
  split.
  - intros Hft Hpos. unfold refill.
    assert (E : (fillTarget >? Length (pool p)) = false).
    { rewrite Z.gtb_ltb. apply Z.ltb_ge. lia. }
    assert (E0 : (Length (pool p) =? 0) = false) by (apply Z.eqb_neq; lia).
    rewrite E, E0. cbn [orb]. unfold refillMove, GetN.
    assert (E1 : (Z.min fillTarget (Length (pool p)) <=? 0) = true)
      by (apply Z.leb_le; lia).
    rewrite E1.
    destruct emptyRequest as [nl [e |]]; [destruct e |]; destruct nl; cbn;
      (eexists _, _; split; [reflexivity |]; cbn; repeat split).
  - intros Hneed Hb Hg. unfold refill.
    assert (E : (Length (pool p) =? 0) || (fillTarget >? Length (pool p))
                = true).
    { apply orb_true_iff. destruct Hneed as [H | H].
      - left. now apply Z.eqb_eq.
      - right. rewrite Z.gtb_ltb. apply Z.ltb_lt. lia. }
    rewrite E, Hb, Hg. eexists. split; [reflexivity |]. cbn. repeat split.
Qed.

(** ** Further properties of the shrink *)

(** Every way [performShrink] can end. *)
Lemma performShrink_outcome now (p : Pool T) newCapacity inUse currentCap :
  let keep := wrapInt (newCapacity - inUse) in
  let p' := performShrink emptyRequest now p newCapacity inUse currentCap in
  (stats p' = stats p /\ cleaned p' = cleaned p
   /\ rbCap (pool p') = rbCap (pool p)
   /\ (keep <= 0 -> p' = p))
  \/ (0 < keep
      /\ rbItems (pool p')
         = firstn (Z.to_nat (Z.min keep (Length (pool p)))) (rbItems (pool p))
      /\ rbCap (pool p') = newCapacity
      /\ cleaned p' = cleaned p
      /\ currentCapacity (stats p') = toU64 newCapacity).
Proof.
  cbv zeta. unfold performShrink.
  destruct (wrapInt (newCapacity - inUse) <=? 0) eqn:E.
  { left. auto. }
  apply Z.leb_gt in E.
  set (keep := wrapInt (newCapacity - inUse)) in *.
  pose proof (Length_nonneg (pool p)) as Hlen.
  destruct (Z.min keep (Length (pool p)) >? 0) eqn:Epos.
  - rewrite Z.gtb_ltb in Epos. apply Z.ltb_lt in Epos.
    unfold GetN.
    assert (E1 : (Z.min keep (Length (pool p)) <=? 0) = false)
      by (apply Z.leb_gt; lia).
    assert (E2 : (Length (pool p) =? 0) = false) by (apply Z.eqb_neq; lia).
    rewrite E1, E2. cbv beta iota delta [elements]. unfold WriteMany.
    match goal with |- context [if ?b then _ else _] =>
      destruct b eqn:Ew end.
    + right. apply Z.leb_le in Ew. cbn in Ew. cbn.
      split; [lia |]. repeat split.
    + left. cbn. repeat split; lia.
  - right. rewrite Z.gtb_ltb in Epos. apply Z.ltb_ge in Epos.
    assert (Hz : Length (pool p) = 0) by lia.
    assert (Hnil : rbItems (pool p) = []).
    { unfold Length in Hz. destruct (rbItems (pool p)); [reflexivity |].
      simpl length in Hz. lia. }
    cbn. rewrite Hnil, firstn_nil.
    split; [lia |]. repeat split.
Qed.

Lemma shouldShrinkMainPool_below_int (p : Pool T) cur newCap inUse :
  shouldShrinkMainPool p cur newCap inUse = true ->
  newCap < toInt cur.
Proof.
  unfold shouldShrinkMainPool. intros H.
  destruct (newCap =? 0); [discriminate |].
  destruct (cur <=? toU64 (minCapacity (shrink (config p))));
    [discriminate |].
  destruct (newCap >=? toInt cur) eqn:E; [discriminate |].
  rewrite Z.geb_leb in E. apply Z.leb_gt in E. exact E.
Qed.

(** X4.  A shrink execution never raises the capacity and never takes it
    to or below the number of objects in use, nor below [minCapacity]:
    the recorded capacity after the call is the one before, or it is
    smaller, at least [minCapacity], above the objects in use, and it is
    the capacity of the new ring buffer. *)
Theorem ShrinkExecution_capacity_bounds (now : Z) (p p' : Pool T) :
  let cur := currentCapacity (stats p) in
  let inUse := toInt (objectsInUse (stats p)) in
  let minCap := minCapacity (shrink (config p)) in
  inU64 cur ->
  0 <= minCap < 2 ^ 63 ->
  ShrinkExecution conv emptyRequest now p = Some p' ->
  currentCapacity (stats p') = cur
  \/ (minCap <= currentCapacity (stats p') < cur
      /\ inUse < currentCapacity (stats p')
      /\ rbCap (pool p') = currentCapacity (stats p')).
Proof.
  intros cur inUse minCap Hc Hm H.
  assert (Hmi : inInt minCap) by (unfold inInt; lia).
  unfold ShrinkExecution in H. fold cur inUse in H.
  destruct (shouldShrinkMainPool p cur (shrinkTarget conv p) inUse) eqn:Hs;
    cbn [negb] in H.
  2: { inversion H; subst. now left. }
  destruct (shouldShrinkMainPool_true p cur _ inUse Hc Hmi Hs) as [Hn Hmin].
  pose proof (adjustMainShrinkTarget_max p (shrinkTarget conv p) inUse) as Hfst.
  pose proof (adjustMainShrinkTarget_frame p (shrinkTarget conv p) inUse)
    as Hfr.
  destruct (adjustMainShrinkTarget p (shrinkTarget conv p) inUse) as [t p1].
  cbn [fst snd] in Hfst, Hfr. destruct Hfr as (_ & Hpool & _ & Hst & _).
  fold minCap in Hfst.
  pose proof (performShrink_outcome now p1 t inUse cur) as Ho.
  cbv zeta in Ho.
  set (p2 := performShrink emptyRequest now p1 t inUse cur) in *.
  assert (Hmain : currentCapacity (stats p2) = cur
                  \/ (minCap <= currentCapacity (stats p2) < cur
                      /\ inUse < currentCapacity (stats p2)
                      /\ rbCap (pool p2) = currentCapacity (stats p2))).
  { destruct Ho as [(Hs2 & _) | (Hk & _ & Hcap & _ & Hcur)].
    - left. rewrite Hs2, Hst. reflexivity.
    - right.
      pose proof (wrapInt_range (objectsInUse (stats p))) as Hiu.
      fold (toInt (objectsInUse (stats p))) in Hiu. fold inUse in Hiu.
      unfold inInt in Hiu.
      pose proof (shouldShrinkMainPool_below_int p cur _ inUse Hs) as Hni.
      pose proof (wrapInt_range cur) as Hci.
      fold (toInt cur) in Hci. unfold inInt in Hci.
      assert (Ht : 0 <= t < 2 ^ 63) by (unfold inU64 in Hc; lia).
      assert (Hd : inU64 (t - inUse)) by (unfold inU64; lia).
      assert (Hw : wrapInt (t - inUse) = t - inUse).
      { apply (toInt_nonneg_small _ Hd). unfold toInt. lia. }
      rewrite Hw in Hk.
      assert (Hu : toU64 t = t)
        by (apply wrapU64_small; unfold inU64; lia).
      rewrite Hcur, Hcap, Hu. lia. }
  destruct (negb (FastPath.enableChannelGrowth (fastPath (config p2)))
            || negb (shouldShrinkFastPath p2)).
  - inversion H; subst p'. exact Hmain.
  - apply shrinkFastPath_frame in H.
    destruct H as (H1 & _ & _ & _ & H5 & _).
    rewrite H1, H5. exact Hmain.
Qed.

(** X9.  For counts within the range of [int], [performShrink] either
    leaves the pool as it was, because the new capacity has no room
    beyond the objects in use, or installs a ring buffer in which the
    values kept and the objects in use together fit the new capacity;
    the values kept are the front of the old ring buffer, in their
    order, and the others are in neither tier afterwards: L1 and the
    trace of cleaner calls are the ones before the call. *)
Theorem performShrink_fits_or_aborts
    (now : Z) (p : Pool T) (newCapacity inUse currentCap : Z) :
  0 <= inUse < 2 ^ 63 ->
  0 <= newCapacity < 2 ^ 63 ->
  let p' := performShrink emptyRequest now p newCapacity inUse currentCap in
  (newCapacity <= inUse /\ p' = p)
  \/ (inUse < newCapacity
      /\ Length (pool p') + inUse <= newCapacity
      /\ rbCap (pool p') = newCapacity
      /\ currentCapacity (stats p') = newCapacity
      /\ (exists dropped, rbItems (pool p) = rbItems (pool p') ++ dropped)
      /\ cacheL1 p' = cacheL1 p
      /\ cleaned p' = cleaned p).
Proof.
  intros Hu Hn p'.
  assert (Hw : wrapInt (newCapacity - inUse) = newCapacity - inUse)
    by (apply wrapInt_small; unfold inInt; lia).
  destruct (Z_le_gt_dec newCapacity inUse) as [Hle | Hgt].
  - left. split; [exact Hle |]. apply performShrink_no_room. lia.
  - right. split; [lia |].
    pose proof (Length_nonneg (pool p)) as Hlen.
    unfold p', performShrink. rewrite Hw.
    assert (E : (newCapacity - inUse <=? 0) = false) by (apply Z.leb_gt; lia).
    rewrite E.
    set (k := Z.min (newCapacity - inUse) (Length (pool p))).
    assert (Hk : 0 <= k <= Z.of_nat (length (rbItems (pool p))))
      by (unfold k, Length in *; lia).
    assert (Hu64 : toU64 newCapacity = newCapacity)
      by (apply wrapU64_small; unfold inU64; lia).
    destruct (k >? 0) eqn:Epos.
    + rewrite Z.gtb_ltb in Epos. apply Z.ltb_lt in Epos.
      unfold GetN.
      assert (E1 : (k <=? 0) = false) by (apply Z.leb_gt; lia).
      assert (E2 : (Length (pool p) =? 0) = false)
        by (apply Z.eqb_neq; unfold k in *; lia).
      rewrite E1, E2. cbv beta iota delta [elements]. unfold WriteMany.
      assert (E3 : (Length (CopyConfig (New T newCapacity) (pool p))
                    + Z.of_nat (length (firstn (Z.to_nat k)
                                          (rbItems (pool p))))
                    <=? rbCap (CopyConfig (New T newCapacity) (pool p)))
                   = true).
      { apply Z.leb_le. rewrite firstn_length_Z by exact Hk.
        unfold Length, CopyConfig, New. cbn. unfold k. lia. }
      rewrite E3. cbn. rewrite Hu64.
      split; [| split; [reflexivity | split; [reflexivity |]]].
      * unfold Length. cbn. rewrite firstn_length_Z by exact Hk.
        unfold k. lia.
      * split; [| split; reflexivity].
        exists (skipn (Z.to_nat k) (rbItems (pool p))).
        symmetry. apply firstn_skipn.
    + rewrite Z.gtb_ltb in Epos. apply Z.ltb_ge in Epos.
      cbn. rewrite Hu64.
      split; [| split; [reflexivity | split; [reflexivity |]]].
      * unfold Length. cbn. lia.
      * split; [| split; reflexivity].
        exists (rbItems (pool p)). reflexivity.
Qed.

(** What the draining loop of the L1 shrink does when the new channel has
    room. *)
Lemma drainN_spec n : forall (old fresh : channel T),
  (n <= length (chItems old))%nat ->
  chLen fresh + Z.of_nat n <= chCap fresh ->
  exists old' new',
    drainN n old fresh = Some (old', new')
    /\ chItems new' = chItems fresh ++ firstn n (chItems old)
    /\ chCap new' = chCap fresh.
Proof.
  induction n as [| k IH]; intros old fresh Hn Hr.
  - cbn. eexists _, _. split; [reflexivity |].
    rewrite app_nil_r. auto.
  - cbn [drainN]. unfold tryRecv.
    destruct (chItems old) as [| obj rest] eqn:Eo; [simpl in Hn; lia |].
    unfold trySend.
    assert (E : (chLen fresh <? chCap fresh) = true)
      by (apply Z.ltb_lt; lia).
    rewrite E.
    destruct (IH {| chItems := rest; chCap := chCap old |}
                 {| chItems := chItems fresh ++ [obj];
                    chCap := chCap fresh |})
      as (old' & new' & Hd & Hi & Hc).
    + cbn. simpl in Hn. lia.
    + unfold chLen in *. cbn. rewrite length_app. cbn. lia.
    + exists old', new'. split; [exact Hd |].
      rewrite Hi, Hc. cbn. rewrite <- app_assoc. auto.
Qed.

(** X5.  When the new capacity exceeds the objects in use, the L1 shrink
    returns with a channel of the new capacity that holds the first
    [min (newCapacity - inUse) (len L1)] values of L1 and nothing else:
    the values beyond them reach neither the new channel, nor the ring
    buffer, nor the cleaner.  The recorded L1 capacity keeps its old
    value. *)
Theorem shrinkFastPath_keeps_a_prefix
    (p : Pool T) (newCapacity inUse : Z) :
  0 <= inUse ->
  inUse < newCapacity < 2 ^ 63 ->
  exists p',
    shrinkFastPath p newCapacity inUse = Some p'
    /\ chItems (cacheL1 p')
       = firstn (Z.to_nat (Z.min (newCapacity - inUse) (chLen (cacheL1 p))))
                (chItems (cacheL1 p))
    /\ chCap (cacheL1 p') = newCapacity
    /\ pool p' = pool p
    /\ cleaned p' = cleaned p
    /\ currentL1Capacity (stats p') = currentL1Capacity (stats p)
    /\ lastResizeAtShrinkNum (stats p') = totalShrinkEvents (stats p).
Proof.
  intros Hu Hn. unfold shrinkFastPath.
  rewrite wrapInt_small by (unfold inInt; lia).
  assert (E : (newCapacity - inUse <=? 0) = false) by (apply Z.leb_gt; lia).
  rewrite E. unfold make.
  assert (E0 : (newCapacity <? 0) = false) by (apply Z.ltb_ge; lia).
  rewrite E0.
  set (k := Z.min (newCapacity - inUse) (chLen (cacheL1 p))).
  destruct (drainN_spec (Z.to_nat k) (cacheL1 p)
              {| chItems := []; chCap := newCapacity |})
    as (old' & new' & Hd & Hi & Hc).
  - unfold k, chLen. lia.
  - unfold k, chLen. cbn. lia.
  - rewrite Hd. eexists. split; [reflexivity |]. cbn.
    rewrite Hi, Hc. cbn. repeat split.
Qed.

(** X6.  The capacity the L1 shrink asks for is the larger of the minimum
    capacity of the fast path and the float64 product
    [float64(currentCap) * (1.0 - shrinkPercent)] converted to [int].  It
    is never below that minimum, it is within the range of [int] when
    the minimum is, and when the product is finite, not negative and
    below [2^63] it is the larger of the minimum and the floor of the
    product.  The product is the rounded one, so that the result is not
    bounded by the current capacity. *)
Theorem adjustFastPathShrinkTarget_at_least_minimum
    (p : Pool T) (currentCap : Z) :
  let cfg := FastPath.shrink (fastPath (config p)) in
  let product :=
    Float64.mul (Float64.ofInt currentCap)
      (Float64.sub Float64.one (shrinkPercent cfg)) in
  let target := adjustFastPathShrinkTarget conv p currentCap in
  minCapacity cfg <= target
  /\ target = Z.max (minCapacity cfg) (Float64.toInt conv product)
  /\ (inInt (minCapacity cfg) -> inInt target)
  /\ (Float64.finiteNotNegative product = true ->
      Qfloor (Float64.valueOf product) < 2 ^ 63 ->
      target = Z.max (minCapacity cfg) (Qfloor (Float64.valueOf product))).
Proof.
  intros cfg product target.
  assert (E : target = Z.max (minCapacity cfg) (Float64.toInt conv product)).
  { unfold target, adjustFastPathShrinkTarget, Float64.scaleInt.
    fold cfg. fold product.
    destruct (Float64.toInt conv product <? minCapacity cfg) eqn:B;
      [apply Z.ltb_lt in B | apply Z.ltb_ge in B]; lia. }
  split; [rewrite E; lia |]. split; [exact E |]. split.
  - intros Hm. rewrite E. pose proof (toInt64_range product) as Hr.
    unfold inInt in *. lia.
  - intros Hf Hlt. rewrite E.
    rewrite (proj1 (toInt64_floor product Hf Hlt)). reflexivity.
Qed.

(** ** Further properties of the growth helpers *)

Lemma drainAll_spec (old : list T) : forall c c',
  drainAll old c = Some c' ->
  chItems c' = chItems c ++ old /\ chCap c' = chCap c.
Proof.
  induction old as [| obj rest IH]; intros c c' H.
  - cbn in H. inversion H; subst. rewrite app_nil_r. auto.
  - cbn [drainAll] in H. unfold trySend in H.
    destruct (chLen c <? chCap c); [| discriminate].
    apply IH in H. cbn in H. destruct H as [H1 H2].
    rewrite H1, H2, <- app_assoc. auto.
Qed.

(** X7.  Whenever the growth-coupled L1 resize returns, L1 holds the
    values it held, in their order.  Either the pool is as it was, or the
    new channel has exactly the recorded L1 capacity and the resize is
    marked at the current growth count; with a positive trigger a second
    call right after the first changes nothing. *)
Theorem tryL1ResizeIfTriggered_keeps_values (p p' : Pool T) :
  0 < FastPath.growthEventsTrigger (fastPath (config p)) < 2 ^ 63 ->
  tryL1ResizeIfTriggered conv p = Some p' ->
  chItems (cacheL1 p') = chItems (cacheL1 p)
  /\ (p' = p
      \/ (chCap (cacheL1 p') = currentL1Capacity (stats p')
          /\ lastResizeAtGrowthNum (stats p') = totalGrowthEvents (stats p)))
  /\ tryL1ResizeIfTriggered conv p' = Some p'.
Proof.
  intros Htr H.
  assert (Hidem : forall q : Pool T,
            config q = config p ->
            lastResizeAtGrowthNum (stats q) = totalGrowthEvents (stats q) ->
            tryL1ResizeIfTriggered conv q = Some q).
  { intros q Hcfg Hmark. unfold tryL1ResizeIfTriggered.
    rewrite Hcfg, Hmark, Z.sub_diag.
    destruct (negb (FastPath.enableChannelGrowth (fastPath (config p))));
      [reflexivity |].
    assert (E : (wrapU64 0
                 <? toU64 (FastPath.growthEventsTrigger (fastPath (config p))))
                = true).
    { apply Z.ltb_lt. unfold toU64.
      rewrite !wrapU64_small by (unfold inU64; lia). lia. }
    now rewrite E. }
  unfold tryL1ResizeIfTriggered in H.
  destruct (negb (FastPath.enableChannelGrowth (fastPath (config p))))
    eqn:Eoff.
  { inversion H; subst p'. split; [reflexivity |]. split; [now left |].
    unfold tryL1ResizeIfTriggered. now rewrite Eoff. }
  match type of H with (if ?b then _ else _) = _ => destruct b eqn:Etr end.
  { inversion H; subst p'. split; [reflexivity |]. split; [now left |].
    unfold tryL1ResizeIfTriggered. now rewrite Eoff, Etr. }
  match type of H with match make T ?n with _ => _ end = _ =>
    set (newCap := n) in *; destruct (make T newCap) as [fresh |] eqn:Em
  end; [| discriminate].
  destruct (drainAll (chItems (cacheL1 p)) fresh) as [newL1 |] eqn:Ed;
    [| discriminate].
  apply drainAll_spec in Ed. destruct Ed as [Hi Hc].
  unfold make in Em. destruct (newCap <? 0); [discriminate |].
  inversion Em; subst fresh. cbn in Hi, Hc.
  inversion H; subst p'. cbn.
  split; [exact Hi |]. split; [right; auto |].
  apply Hidem; reflexivity.
Qed.

(** X8.  A proposed capacity above the hard limit is either refused, when
    the recorded capacity has reached the limit, or clamped, when it has
    not: exactly one of the two tests of the growth controller holds.  At
    or below the limit neither holds. *)
Theorem hard_limit_tests_are_exclusive (p : Pool T) (newCapacity : Z) :
  let limit := toU64 (hardLimit (config p)) in
  let refused := growthWouldExceedHardLimit p newCapacity in
  let clamped :=
    needsToShrinkToHardLimit p (currentCapacity (stats p)) newCapacity in
  (limit < newCapacity -> xorb refused clamped = true)
  /\ (newCapacity <= limit -> refused = false /\ clamped = false).
Proof.
  cbv zeta. unfold growthWouldExceedHardLimit, needsToShrinkToHardLimit.
  set (limit := toU64 (hardLimit (config p))).
  set (cur := currentCapacity (stats p)).
  split.
  - intros H.
    assert (E : (newCapacity >? limit) = true)
      by (rewrite Z.gtb_ltb; apply Z.ltb_lt; lia).
    rewrite E, andb_true_l, andb_true_r, Z.geb_leb.
    destruct (limit <=? cur) eqn:A; destruct (cur <? limit) eqn:B;
      try reflexivity.
    + apply Z.leb_le in A. apply Z.ltb_lt in B. lia.
    + apply Z.leb_gt in A. apply Z.ltb_ge in B. lia.
  - intros H.
    assert (E : (newCapacity >? limit) = false)
      by (rewrite Z.gtb_ltb; apply Z.ltb_ge; lia).
    rewrite E, andb_false_r. auto.
Qed.

(** ** Further properties of the eligibility checks *)

(** X10.  A run of ticks that all find the pool idle for at least
    [idleThreshold] adds the number of ticks to the counter, and the
    permission afterwards is the one before, or is set when at least one
    tick ran and the final count has reached [minIdleBeforeShrink]: from
    a counter of zero the permission comes with the tick whose number is
    [minIdleBeforeShrink], not before. *)
Theorem idleTicks_count_up
    (times : list Z) (p : Pool T) (idles : Z) (permission : bool) :
  let n := Z.of_nat (length times) in
  let required := minIdleBeforeShrink (shrink (config p)) in
  0 <= idles ->
  idles + n < 2 ^ 63 ->
  Forall (fun now =>
            idleThreshold (shrink (config p))
            <= now - lastTimeCalledGet (stats p)) times ->
  idleTicks times p idles permission
  = (idles + n,
     permission || (negb (n =? 0) && (required <=? idles + n))).
Proof.
  cbv zeta. revert idles permission.
  induction times as [| now rest IH]; intros idles permission Hi Hr Hall.
  - cbn. rewrite Z.add_0_r, orb_false_r. reflexivity.
  - inversion Hall as [| ? ? Hnow Hrest]; subst.
    simpl length in *. rewrite Nat2Z.inj_succ in *.
    cbn [idleTicks]. unfold IndleCheck.
    assert (E : (now - lastTimeCalledGet (stats p)
                 >=? idleThreshold (shrink (config p))) = true)
      by (apply Z.geb_le; lia).
    rewrite E. rewrite wrapInt_small by (unfold inInt; lia).
    rewrite IH by (try lia; assumption).
    f_equal; [lia |].
    replace (idles + 1 + Z.of_nat (length rest))
      with (idles + Z.succ (Z.of_nat (length rest))) by lia.
    assert (En : (Z.succ (Z.of_nat (length rest)) =? 0) = false)
      by (apply Z.eqb_neq; lia).
    rewrite En. cbn [negb andb]. rewrite Z.geb_leb.
    set (required := minIdleBeforeShrink (shrink (config p))).
    destruct (required <=? idles + 1) eqn:A;
      destruct (required <=? idles + Z.succ (Z.of_nat (length rest))) eqn:B;
      destruct (Z.of_nat (length rest) =? 0) eqn:C;
      destruct permission; cbn; try reflexivity;
      try (apply Z.leb_le in A); try (apply Z.leb_gt in A);
      try (apply Z.leb_le in B); try (apply Z.leb_gt in B);
      try (apply Z.eqb_eq in C); try (apply Z.eqb_neq in C); lia.
Qed.

(** ** The usage counters *)

Lemma raisePeakLoop_step fuel cell v :
  PeakLoop.raisePeakLoop (S fuel) cell v = Some (Z.max cell v).
Proof.
  simpl. unfold Atomic.Load, Atomic.CompareAndSwap.
  destruct (v <=? cell) eqn:E.
  - apply Z.leb_le in E. f_equal. lia.
  - apply Z.leb_gt in E. rewrite Z.eqb_refl. f_equal. lia.
Qed.

(** X11.  While the counters do not wrap, [updateUsageStats] finishes,
    adds one to the objects in use and to the gets, leaves the peak at
    the larger of the old peak and the new count of objects in use, so
    that the peak never falls and is never below the objects in use, and
    takes one off a positive shrink streak. *)
Theorem updateUsageStats_counts
    (fuel : nat) (p : Pool T) (totalGets peakInUse : Z) :
  let inUse := objectsInUse (stats p) in
  let streak := consecutiveShrinks (stats p) in
  0 <= inUse < 2 ^ 64 - 1 -> inU64 (totalGets + 1) -> inU64 streak ->
  exists p',
    updateUsageStats (S fuel) p totalGets peakInUse
    = Some (p', totalGets + 1, Z.max peakInUse (inUse + 1))
    /\ objectsInUse (stats p') = inUse + 1
    /\ consecutiveShrinks (stats p')
       = (if streak =? 0 then 0 else streak - 1)
    /\ currentCapacity (stats p') = currentCapacity (stats p)
    /\ cacheL1 p' = cacheL1 p /\ pool p' = pool p.
Proof.
  intros inUse streak Hu0 Hg Hs.
  assert (Hu : inU64 (inUse + 1)) by (unfold inU64; lia).
  unfold updateUsageStats.
  fold inUse. rewrite (wrapU64_small _ Hu), (wrapU64_small _ Hg).
  rewrite raisePeakLoop_step. cbn [stats withStats setObjectsInUse
    consecutiveShrinks]. fold streak.
  rewrite decrementLoop_step by exact Hs.
  eexists. split; [reflexivity |]. cbn. repeat split.
Qed.

(** X12.  A get followed by a put leaves the count of objects in use
    where it was: [releaseObj] after [updateUsageStats] restores
    [objectsInUse], hands the object to the cleaner once, and leaves the
    peak above the restored count. *)
Theorem releaseObj_undoes_updateUsageStats
    (fuel : nat) (obj : T) (p : Pool T) (totalGets peakInUse : Z) :
  let inUse := objectsInUse (stats p) in
  0 <= inUse < 2 ^ 64 - 1 -> inU64 (totalGets + 1) ->
  inU64 (consecutiveShrinks (stats p)) ->
  exists p1 p2 peak,
    updateUsageStats (S fuel) p totalGets peakInUse
    = Some (p1, totalGets + 1, peak)
    /\ releaseObj (S fuel) obj p1 = Some p2
    /\ objectsInUse (stats p2) = inUse
    /\ inUse < peak
    /\ cleaned p2 = cleaned p ++ [obj].
Proof.
  intros inUse Hu0 Hg Hs.
  assert (Hu : inU64 (inUse + 1)) by (unfold inU64; lia).
  unfold updateUsageStats.
  fold inUse. rewrite (wrapU64_small _ Hu), (wrapU64_small _ Hg).
  rewrite raisePeakLoop_step.
  cbn [stats withStats setObjectsInUse consecutiveShrinks].
  rewrite decrementLoop_step by exact Hs.
  eexists _, _, _. split; [reflexivity |].
  unfold releaseObj. cbn [stats withStats withCleaned setConsecutiveShrinks
    setObjectsInUse objectsInUse cleaned].
  rewrite decrementLoop_step by exact Hu.
  split; [reflexivity |].
  cbn [stats withStats setObjectsInUse objectsInUse cleaned].
  assert (E : (inUse + 1 =? 0) = false)
    by (apply Z.eqb_neq; unfold inU64 in Hu; lia).
  rewrite E. repeat split; try lia; reflexivity.
Qed.

(** ** The utilization check *)

Lemma utilizationOf_idle available :
  (utilizationOf 0 available == 0)%Q.
Proof.
  unfold utilizationOf. destruct (wrapU64 (0 + available) >? 0).
  - unfold Qdiv. rewrite Qmult_0_l, Qmult_0_l. apply Qeq_refl.
  - apply Qeq_refl.
Qed.

Lemma utilizationOf_full inUse :
  0 < inUse < 2 ^ 64 -> (utilizationOf inUse 0 == 100)%Q.
Proof.
  intros H. unfold utilizationOf. rewrite Z.add_0_r.
  rewrite wrapU64_small by (unfold inU64; lia).
  assert (E : (inUse >? 0) = true) by (rewrite Z.gtb_ltb; apply Z.ltb_lt; lia).
  rewrite E.
  assert (Hn : ~ (inject_Z inUse == 0)%Q).
  { unfold Qeq. simpl. lia. }
  field. exact Hn.
Qed.

Lemma utilizationOf_range inUse available :
  0 <= inUse -> 0 <= available -> inUse + available < 2 ^ 64 ->
  (0 <= utilizationOf inUse available)%Q
  /\ (utilizationOf inUse available <= 100)%Q.
Proof.
  intros Hi Ha Hs. unfold utilizationOf.
  rewrite wrapU64_small by (unfold inU64; lia).
  destruct (inUse + available >? 0) eqn:E; [| split; lra].
  rewrite Z.gtb_ltb in E. apply Z.ltb_lt in E.
  assert (Ht : (0 < inject_Z (inUse + available))%Q)
    by (unfold Qlt; simpl; lia).
  assert (H0 : (0 <= inject_Z inUse / inject_Z (inUse + available))%Q).
  { apply Qle_shift_div_l; [exact Ht |]. rewrite Qmult_0_l.
    unfold Qle. simpl. lia. }
  assert (H1 : (inject_Z inUse / inject_Z (inUse + available) <= 1)%Q).
  { apply Qle_shift_div_r; [exact Ht |]. rewrite Qmult_1_l.
    unfold Qle. simpl. lia. }
  set (x := (inject_Z inUse / inject_Z (inUse + available))%Q) in *.
  split; lra.
Qed.

(** X14.  The utilization that [UtilizationCheck] compares lies between
    0 and 100.  A pool with no object in use is under-utilized at every
    threshold that is not negative: the tick adds a round and sets the
    permission once the rounds have reached
    [stableUnderutilizationRounds].  A pool whose objects are all in use
    (both tiers empty) has a utilization of 100: below a threshold of 100
    the tick takes a round off and never sets the permission. *)
Theorem UtilizationCheck_extremes
    (sp : Shrink.parameters Q) (p : Pool T) (rounds : Z)
    (permission : bool) :
  let inUse := objectsInUse (stats p) in
  let available := Length (pool p) + chLen (cacheL1 p) in
  let minUtil := Shrink.minUtilizationBeforeShrink sp in
  let required := Shrink.stableUnderutilizationRounds sp in
  0 <= rounds < 2 ^ 63 - 1 ->
  0 <= inUse -> inUse + available < 2 ^ 64 ->
  ((0 <= utilizationOf inUse available)%Q
   /\ (utilizationOf inUse available <= 100)%Q)
  /\ (inUse = 0 -> (0 <= minUtil)%Q ->
      UtilizationCheck sp p rounds permission
      = (available, rounds + 1, permission || (required <=? rounds + 1)))
  /\ (available = 0 -> 0 < inUse -> (minUtil < 100)%Q ->
      UtilizationCheck sp p rounds permission
      = (0, Z.max 0 (rounds - 1), permission)).
Proof.
  intros inUse available minUtil required Hr Hi Hs.
  pose proof (Length_nonneg (pool p)) as Hl.
  assert (Hc : 0 <= chLen (cacheL1 p)) by (unfold chLen; lia).
  assert (Ha : updateAvailableObjs p = available).
  { unfold updateAvailableObjs, toU64. apply wrapU64_small.
    unfold inU64, available. lia. }
  split; [apply utilizationOf_range; unfold available; lia |].
  split.
  - intros H0 Hm. unfold UtilizationCheck. rewrite Ha. fold inUse.
    rewrite H0.
    assert (E : Qle_bool (utilizationOf 0 available) minUtil = true).
    { apply Qle_bool_iff. rewrite utilizationOf_idle. exact Hm. }
    fold minUtil. rewrite E.
    rewrite wrapInt_small by (unfold inInt; lia).
    f_equal. fold required. rewrite Z.geb_leb.
    destruct (required <=? rounds + 1); destruct permission; reflexivity.
  - intros H0 Hpos Hm. unfold UtilizationCheck. rewrite Ha. fold inUse.
    rewrite H0.
    assert (E : Qle_bool (utilizationOf inUse 0) minUtil = false).
    { destruct (Qle_bool (utilizationOf inUse 0) minUtil) eqn:E;
        [| reflexivity].
      apply Qle_bool_iff in E. rewrite utilizationOf_full in E by lia.
      lra. }
    fold minUtil. rewrite E. f_equal. f_equal.
    destruct (rounds >? 0) eqn:G.
    + rewrite wrapInt_small by (unfold inInt; lia).
      rewrite Z.gtb_ltb in G. apply Z.ltb_lt in G. lia.
    + rewrite Z.gtb_ltb in G. apply Z.ltb_ge in G. lia.
Qed.

(** X15.  [updateDerivedStats] divides the gets by the capacity gained
    since the start.  With the capacity above the initial one that is
    [totalGets / (current - initial)]; at the initial capacity
    [reqPerObj] keeps the value it had; and below the initial capacity,
    as after a shrink, the unsigned difference wraps, the test
    [totalCreated > 0] still passes, and the divisor is
    [2^64 - (initial - current)]. *)
Theorem updateDerivedStats_reqPerObj
    (p : Pool T) (totalGets availableObjects initialCapacity : Z)
    (reqPerObj utilization : Q) :
  let current := currentCapacity (stats p) in
  let result :=
    fst (updateDerivedStats p totalGets availableObjects initialCapacity
           reqPerObj utilization) in
  inU64 current ->
  0 <= initialCapacity < 2 ^ 63 ->
  (initialCapacity < current ->
   result = (inject_Z totalGets / inject_Z (current - initialCapacity))%Q)
  /\ (current = initialCapacity -> result = reqPerObj)
  /\ (current < initialCapacity ->
      result
      = (inject_Z totalGets
         / inject_Z (2 ^ 64 - (initialCapacity - current)))%Q).
Proof.
  intros current result Hc Hi.
  assert (Hu : toU64 initialCapacity = initialCapacity)
    by (apply wrapU64_small; unfold inU64; lia).
  unfold result, updateDerivedStats. cbn [fst]. fold current. rewrite Hu.
  unfold inU64 in Hc.
  split; [| split]; intros H.
  - rewrite wrapU64_small by (unfold inU64; lia).
    assert (E : (current - initialCapacity >? 0) = true)
      by (rewrite Z.gtb_ltb; apply Z.ltb_lt; lia).
    now rewrite E.
  - rewrite H, Z.sub_diag. reflexivity.
  - assert (Ew : wrapU64 (current - initialCapacity)
                 = 2 ^ 64 - (initialCapacity - current)).
    { unfold wrapU64. symmetry.
      apply (Z.mod_unique_pos _ _ (-1)); lia. }
    rewrite Ew.
    assert (E : (2 ^ 64 - (initialCapacity - current) >? 0) = true)
      by (rewrite Z.gtb_ltb; apply Z.ltb_lt; lia).
    now rewrite E.
Qed.

(** ** Filling the tiers *)

(** X16.  Objects handed to [setPoolAndBuffer] one after the other, with
    a fast-path count of [k], end up split in their order: the first
    [min k n] go to the end of L1, all the others to the end of the ring
    buffer, and the count returned is [k] less the number sent to L1;
    provided L1 and the ring buffer have room for their shares. *)
Theorem setPoolAndBufferAll_splits (objs : list T) :
  forall (p : Pool T) (k : Z),
  let toL1 := Z.min k (Z.of_nat (length objs)) in
  0 <= k < 2 ^ 63 ->
  chLen (cacheL1 p) + toL1 <= chCap (cacheL1 p) ->
  Length (pool p) + (Z.of_nat (length objs) - toL1) <= rbCap (pool p) ->
  exists p',
    setPoolAndBufferAll objs p k = Some (p', k - toL1)
    /\ chItems (cacheL1 p') = chItems (cacheL1 p) ++ firstn (Z.to_nat k) objs
    /\ rbItems (pool p') = rbItems (pool p) ++ skipn (Z.to_nat k) objs
    /\ chCap (cacheL1 p') = chCap (cacheL1 p)
    /\ rbCap (pool p') = rbCap (pool p).
Proof.
  induction objs as [| obj rest IH]; intros p k toL1 Hk Hl1 Hl2.
  - cbn. exists p. unfold toL1. cbn.
    replace (Z.min k 0) with 0 by lia. rewrite Z.sub_0_r.
    rewrite firstn_nil, skipn_nil, !app_nil_r. auto.
  - unfold toL1 in *. simpl length in *. rewrite Nat2Z.inj_succ in *.
    cbn [setPoolAndBufferAll]. unfold setPoolAndBuffer.
    destruct (k >? 0) eqn:E.
    + rewrite Z.gtb_ltb in E. apply Z.ltb_lt in E.
      unfold trySend.
      assert (Er : (chLen (cacheL1 p) <? chCap (cacheL1 p)) = true)
        by (apply Z.ltb_lt; lia).
      rewrite Er. rewrite wrapInt_small by (unfold inInt; lia).
      set (p1 := withCacheL1 _ p).
      destruct (IH p1 (k - 1)) as (p' & Hr & H1 & H2 & H3 & H4).
      * lia.
      * unfold p1, chLen in *. cbn. rewrite length_app. cbn. lia.
      * unfold p1. cbn. lia.
      * exists p'. split.
        -- rewrite Hr. f_equal. f_equal. lia.
        -- replace (Z.to_nat k) with (S (Z.to_nat (k - 1))) by lia.
           cbn [firstn skipn]. rewrite H1, H2, H3, H4. unfold p1. cbn.
           rewrite <- app_assoc. auto.
    + rewrite Z.gtb_ltb in E. apply Z.ltb_ge in E.
      assert (k = 0) by lia. subst k.
      unfold Write.
      assert (Ew : (Length (pool p) <? rbCap (pool p)) = true)
        by (apply Z.ltb_lt; lia).
      rewrite Ew. cbn [fst].
      set (p1 := withPool _ p).
      destruct (IH p1 0) as (p' & Hr & H1 & H2 & H3 & H4).
      * lia.
      * unfold p1. cbn. lia.
      * unfold p1, Length in *. cbn. rewrite length_app. cbn. lia.
      * exists p'. split.
        -- rewrite Hr. f_equal. f_equal. lia.
        -- cbn [Z.to_nat firstn skipn] in *.
           rewrite H1, H2, H3, H4. unfold p1. cbn.
           rewrite <- app_assoc. auto.
Qed.

(** X17.  The two ways [setPoolAndBuffer] does not store an object.  With
    a positive fast-path count and a full L1 the blocking send never
    returns.  With a count of zero or less and a full ring buffer the
    call returns as if it had succeeded, with the count unchanged, and
    the object is in neither tier: the error of the write is only
    logged. *)
Theorem setPoolAndBuffer_blocks_or_drops
    (p : Pool T) (obj : T) (fastPathRemaining : Z) :
  (0 < fastPathRemaining ->
   chCap (cacheL1 p) <= chLen (cacheL1 p) ->
   setPoolAndBuffer p obj fastPathRemaining = None)
  /\ (fastPathRemaining <= 0 ->
      rbCap (pool p) <= Length (pool p) ->
      exists p',
        setPoolAndBuffer p obj fastPathRemaining
        = Some (p', fastPathRemaining)
        /\ cacheL1 p' = cacheL1 p /\ pool p' = pool p).
Proof.
  unfold setPoolAndBuffer. split.
  - intros Hk Hfull.
    assert (E : (fastPathRemaining >? 0) = true)
      by (rewrite Z.gtb_ltb; apply Z.ltb_lt; lia).
    rewrite E. unfold trySend.
    assert (Er : (chLen (cacheL1 p) <? chCap (cacheL1 p)) = false)
      by (apply Z.ltb_ge; lia).
    now rewrite Er.
  - intros Hk Hfull.
    assert (E : (fastPathRemaining >? 0) = false)
      by (rewrite Z.gtb_ltb; apply Z.ltb_ge; lia).
    rewrite E. unfold Write.
    assert (Ew : (Length (pool p) <? rbCap (pool p)) = false)
      by (apply Z.ltb_ge; lia).
    rewrite Ew. eexists. split; [reflexivity |]. cbn. auto.
Qed.

End PoolProperties.

(** ** The statistics snapshot *)

Section SnapshotProperties.

Import Snapshot.

Variable T : Type.

(** C7 (amended).  While the counters have not wrapped, the snapshot's
    [AvailableObjects] is the current capacity less the objects in use,
    which are the gets not yet matched by a return; the lengths of L1 and
    of the ring buffer are reported on their own in [L1Length] and
    [RingBufferLength].  When a return has occurred, [L2SpillRate] is
    [FastReturnMiss / (FastReturnHit + FastReturnMiss)]. *)
Theorem snapshot_available_is_capacity_less_in_use (p : Pool T) :
  let hit := FastReturnHit (stats p) in
  let miss := FastReturnMiss (stats p) in
  let gets := totalGets (stats p) in
  let capacity := currentCapacity (stats p) in
  let snap := GetPoolStatsSnapshot p in
  0 <= hit -> 0 <= miss -> hit + miss <= gets -> gets < 2 ^ 63 ->
  0 <= capacity < 2 ^ 63 ->
  ObjectsInUse snap = gets - (hit + miss)
  /\ AvailableObjects snap = capacity - (gets - (hit + miss))
  /\ L1Length snap = Z.of_nat (length (cacheL1 p))
  /\ RingBufferLength snap = Z.of_nat (length (pool p))
  /\ (0 < hit + miss ->
      (L2SpillRate snap == inject_Z miss / inject_Z (hit + miss))%Q).
Proof.
  intros hit miss gets capacity snap Hh Hm Hg Hg2 Hc.
  assert (Hr : wrapU64 (hit + miss) = hit + miss).
  { apply wrapU64_small. unfold inU64. lia. }
  assert (Hu : wrapU64 (gets - (hit + miss)) = gets - (hit + miss)).
  { apply wrapU64_small. unfold inU64. lia. }
  assert (Hi : toInt (gets - (hit + miss)) = gets - (hit + miss)).
  { apply wrapInt_small. unfold inInt. lia. }
  unfold snap, GetPoolStatsSnapshot. cbn.
  fold hit miss gets capacity. rewrite Hr, Hu, Hi.
  split; [reflexivity |].
  split; [apply wrapInt_small; unfold inInt; lia |].
  split; [reflexivity |]. split; [reflexivity |].
  intros Hpos.
  assert (E : (hit + miss >? 0) = true)
    by (rewrite Z.gtb_ltb; apply Z.ltb_lt; lia).
  rewrite E. apply Qeq_refl.
Qed.

(** C8.  While the sum of the two return counters has not wrapped and
    the expected number of requests is not negative, [Validate] returns
    no error if and only if the returns add up to the gets, the gets
    equal the expected requests, no object is in use and the available
    objects equal the current capacity; otherwise it returns an error;
    in both cases the snapshot is as it was. *)
Theorem Validate_accepts_exactly (s : PoolStatsSnapshot) (reqNum : Z) :
  inU64 (SnapFastReturnHit s + SnapFastReturnMiss s) ->
  0 <= reqNum < 2 ^ 63 ->
  let quiescent :=
    SnapFastReturnHit s + SnapFastReturnMiss s = TotalGets s
    /\ TotalGets s = reqNum
    /\ ObjectsInUse s = 0
    /\ AvailableObjects s = CurrentCapacity s in
  (snd (Validate s reqNum) = None <-> quiescent)
  /\ (~ quiescent -> exists e, snd (Validate s reqNum) = Some e)
  /\ fst (Validate s reqNum) = s.
Proof.
  intros Hr Hq quiescent.
  assert (E1 : wrapU64 (SnapFastReturnHit s + SnapFastReturnMiss s)
               = SnapFastReturnHit s + SnapFastReturnMiss s)
    by (apply wrapU64_small; exact Hr).
  assert (E2 : toU64 reqNum = reqNum).
  { apply wrapU64_small. unfold inU64. lia. }
  assert (Hiff : snd (Validate s reqNum) = None <-> quiescent).
  { unfold quiescent, Validate. rewrite E1, E2.
    destruct (SnapFastReturnHit s + SnapFastReturnMiss s =? TotalGets s)
      eqn:A; cbn [negb].
    2: { apply Z.eqb_neq in A. cbn. split; [discriminate | tauto]. }
    apply Z.eqb_eq in A.
    destruct (TotalGets s =? reqNum) eqn:B; cbn [negb].
    2: { apply Z.eqb_neq in B. cbn. split; [discriminate | tauto]. }
    apply Z.eqb_eq in B.
    destruct (ObjectsInUse s =? 0) eqn:C; cbn [negb].
    2: { apply Z.eqb_neq in C. cbn. split; [discriminate | tauto]. }
    apply Z.eqb_eq in C.
    destruct (AvailableObjects s =? CurrentCapacity s) eqn:D; cbn [negb].
    2: { apply Z.eqb_neq in D. cbn. split; [discriminate | tauto]. }
    apply Z.eqb_eq in D. cbn. tauto. }
  split; [exact Hiff |]. split.
  - intros Hn. destruct (snd (Validate s reqNum)) as [e |] eqn:E.
    + now exists e.
    + exfalso. apply Hn. now apply Hiff.
  - unfold Validate.
    repeat match goal with |- context [if ?b then _ else _] =>
      destruct b end; reflexivity.
Qed.

(** X26.  On a snapshot taken by [GetPoolStatsSnapshot], while the
    counters have not wrapped and the capacity is within [int], the last
    two tests of [Validate] cannot fail on their own: the snapshot is
    accepted exactly when the returns add up to the gets and the gets
    equal the expected requests, and an error, when there is one, is one
    of the first two. *)
Theorem Validate_of_snapshot (p : Pool T) (reqNum : Z) :
  let hit := FastReturnHit (stats p) in
  let miss := FastReturnMiss (stats p) in
  let gets := totalGets (stats p) in
  0 <= hit -> 0 <= miss -> hit + miss < 2 ^ 64 ->
  0 <= reqNum < 2 ^ 63 ->
  inInt (currentCapacity (stats p)) ->
  (snd (Validate (GetPoolStatsSnapshot p) reqNum) = None
   <-> hit + miss = gets /\ gets = reqNum)
  /\ (forall e, snd (Validate (GetPoolStatsSnapshot p) reqNum) = Some e ->
      e = ReturnsMismatch (hit + miss) gets \/ e = GetsMismatch gets reqNum).
Proof.
  intros hit miss gets Hh Hm Hs Hq Hc.
  assert (Hr : wrapU64 (hit + miss) = hit + miss)
    by (apply wrapU64_small; unfold inU64; lia).
  assert (E2 : toU64 reqNum = reqNum)
    by (apply wrapU64_small; unfold inU64; lia).
  unfold Validate, GetPoolStatsSnapshot.
  cbn [SnapFastReturnHit SnapFastReturnMiss TotalGets ObjectsInUse
       AvailableObjects CurrentCapacity].
  fold hit miss gets. rewrite Hr, E2.
  destruct (hit + miss =? gets) eqn:A; cbn [negb].
  2: { apply Z.eqb_neq in A. cbn [snd]. split.
       - split; [discriminate | tauto].
       - intros e He. inversion He. now left. }
  apply Z.eqb_eq in A.
  destruct (gets =? reqNum) eqn:B; cbn [negb].
  2: { apply Z.eqb_neq in B. cbn [snd]. split.
       - split; [discriminate | tauto].
       - intros e He. inversion He. now right. }
  apply Z.eqb_eq in B.
  assert (Hz : wrapU64 (gets - (hit + miss)) = 0).
  { rewrite A, Z.sub_diag. reflexivity. }
  rewrite Hz. cbn [Z.eqb negb].
  assert (Ha : wrapInt (currentCapacity (stats p) - toInt 0)
               = currentCapacity (stats p)).
  { replace (toInt 0) with 0 by reflexivity. rewrite Z.sub_0_r.
    now apply wrapInt_small. }
  rewrite Ha, Z.eqb_refl. cbn [negb snd]. split.
  - split; auto.
  - intros e He. discriminate.
Qed.

(** X27.  While the return counters have not wrapped, the spill rate of
    the snapshot lies between zero and one, and it is zero when no return
    has missed the fast path. *)
Theorem snapshot_spill_rate_bounds (p : Pool T) :
  let hit := FastReturnHit (stats p) in
  let miss := FastReturnMiss (stats p) in
  let rate := L2SpillRate (GetPoolStatsSnapshot p) in
  0 <= hit -> 0 <= miss -> hit + miss < 2 ^ 64 ->
  (0 <= rate)%Q /\ (rate <= 1)%Q /\ (miss = 0 -> (rate == 0)%Q).
Proof.
  intros hit miss rate Hh Hm Hs.
  assert (Hr : wrapU64 (hit + miss) = hit + miss)
    by (apply wrapU64_small; unfold inU64; lia).
  unfold rate, GetPoolStatsSnapshot. cbn [L2SpillRate].
  fold hit miss. rewrite Hr.
  destruct (hit + miss >? 0) eqn:E.
  - rewrite Z.gtb_ltb in E. apply Z.ltb_lt in E.
    assert (Ht : (0 < inject_Z (hit + miss))%Q)
      by (unfold Qlt; simpl; lia).
    split; [| split].
    + apply Qle_shift_div_l; [exact Ht |]. rewrite Qmult_0_l.
      unfold Qle. simpl. lia.
    + apply Qle_shift_div_r; [exact Ht |]. rewrite Qmult_1_l.
      unfold Qle. simpl. lia.
    + intros ->. unfold Qdiv. rewrite Qmult_0_l. apply Qeq_refl.
  - split; [| split]; try lra; intros _; apply Qeq_refl.
Qed.

(** X28.  When more returns than gets have been counted, the objects in
    use of the snapshot are not negative but wrap around to
    [2^64 - (returns - gets)], and [Validate] reports the returns as not
    matching the gets. *)
Theorem snapshot_in_use_wraps (p : Pool T) (reqNum : Z) :
  let hit := FastReturnHit (stats p) in
  let miss := FastReturnMiss (stats p) in
  let gets := totalGets (stats p) in
  0 <= hit -> 0 <= miss -> hit + miss < 2 ^ 64 ->
  0 <= gets < hit + miss ->
  ObjectsInUse (GetPoolStatsSnapshot p) = 2 ^ 64 - (hit + miss - gets)
  /\ snd (Validate (GetPoolStatsSnapshot p) reqNum)
     = Some (ReturnsMismatch (hit + miss) gets).
Proof.
  intros hit miss gets Hh Hm Hs Hg.
  assert (Hr : wrapU64 (hit + miss) = hit + miss)
    by (apply wrapU64_small; unfold inU64; lia).
  split.
  - unfold GetPoolStatsSnapshot. cbn [ObjectsInUse].
    fold hit miss gets. rewrite Hr. unfold wrapU64. symmetry.
    apply (Z.mod_unique_pos _ _ (-1)); lia.
  - unfold Validate, GetPoolStatsSnapshot.
    cbn [SnapFastReturnHit SnapFastReturnMiss TotalGets].
    fold hit miss gets. rewrite Hr.
    assert (A : (hit + miss =? gets) = false) by (apply Z.eqb_neq; lia).
    rewrite A. reflexivity.
Qed.

End SnapshotProperties.

(** * Properties of the counters' peak loop and of the configuration *)

Section ConfigurationProperties.

(** ** The peak loop under interleaving *)

Import PeakLoop.

Lemma settled_mono cell cell' vt :
  cell <= cell' -> settled cell vt -> settled cell' vt.
Proof.
  unfold settled. destruct vt as [v [| peak |]]; cbn; intros; auto; lia.
Qed.

Lemma peak_threadStep_spec cell v t cell' t' :
  settled cell (v, t) ->
  threadStep cell v t = (cell', t') ->
  cell <= cell' /\ (cell' = cell \/ (cell < v /\ cell' = v))
  /\ settled cell' (v, t').
Proof.
  unfold settled. cbn [fst snd]. intros Hs H.
  destruct t as [| peak |]; cbn in H.
  - inversion H; subst. unfold Atomic.Load. cbn. repeat split; auto; lia.
  - destruct (v <=? peak) eqn:E.
    + apply Z.leb_le in E. inversion H; subst. cbn.
      repeat split; auto; lia.
    + apply Z.leb_gt in E. unfold Atomic.CompareAndSwap in H.
      destruct (cell =? peak) eqn:E'.
      * apply Z.eqb_eq in E'. inversion H; subst. cbn.
        repeat split; lia.
      * inversion H; subst. cbn. repeat split; auto; lia.
  - inversion H; subst. cbn. repeat split; auto; lia.
Qed.

Lemma peak_stepAt_spec i : forall cell ts cell' ts',
  Forall (settled cell) ts ->
  stepAt i cell ts = (cell', ts') ->
  cell <= cell'
  /\ (cell' = cell \/ In cell' (map fst ts))
  /\ map fst ts' = map fst ts
  /\ Forall (settled cell') ts'.
Proof.
  induction i as [| j IH]; intros cell ts cell' ts' Hall H.
  - destruct ts as [| [v t] rest]; cbn in H.
    + inversion H; subst. repeat split; auto; lia.
    + destruct (threadStep cell v t) as [c1 t1] eqn:E.
      inversion H; subst. inversion Hall as [| ? ? Hs Hrest]; subst.
      destruct (peak_threadStep_spec _ _ _ _ _ Hs E) as (Hle & Hor & Hs').
      split; [exact Hle |]. split.
      * destruct Hor as [-> | [_ ->]]; [now left | right; now left].
      * split; [reflexivity |]. constructor; [exact Hs' |].
        eapply Forall_impl; [| exact Hrest].
        intros a. now apply settled_mono.
  - destruct ts as [| [v t] rest]; cbn in H.
    + inversion H; subst. repeat split; auto; lia.
    + destruct (stepAt j cell rest) as [c1 rest1] eqn:E.
      inversion H; subst. inversion Hall as [| ? ? Hs Hrest]; subst.
      destruct (IH _ _ _ _ Hrest E) as (Hle & Hor & Hmap & Hall').
      split; [exact Hle |]. split.
      * destruct Hor as [-> | Hin]; [now left | right; now right].
      * split; [cbn; now rewrite Hmap |].
        constructor; [| exact Hall'].
        now apply (settled_mono cell).
Qed.

Lemma peak_run_invariant schedule : forall c0 cell ts cell' ts',
  peakInv c0 cell ts ->
  run schedule cell ts = (cell', ts') ->
  peakInv c0 cell' ts' /\ map fst ts' = map fst ts.
Proof.
  induction schedule as [| i rest IH]; intros c0 cell ts cell' ts' Hinv H.
  - cbn in H. inversion H; subst. auto.
  - cbn in H. destruct (stepAt i cell ts) as [c1 ts1] eqn:E.
    destruct Hinv as (Hc0 & Hin & Hall).
    destruct (peak_stepAt_spec _ _ _ _ _ Hall E)
      as (Hle & Hor & Hmap & Hall1).
    destruct (IH c0 c1 ts1 cell' ts') as [Hi Hm]; auto.
    + unfold peakInv. split; [lia |]. split; [| exact Hall1].
      rewrite Hmap. destruct Hor as [-> | Hor]; auto.
    + split; [exact Hi | congruence].
Qed.

Lemma maxOf_ge_start c0 vs : c0 <= maxOf c0 vs.
Proof.
  unfold maxOf. induction vs as [| v vs IH]; cbn [fold_right]; lia.
Qed.

Lemma maxOf_ge_in c0 vs v : In v vs -> v <= maxOf c0 vs.
Proof.
  unfold maxOf. induction vs as [| w vs IH]; cbn [fold_right In]; [tauto |].
  intros [-> | H]; [lia | specialize (IH H); lia].
Qed.

Lemma maxOf_in c0 vs : maxOf c0 vs = c0 \/ In (maxOf c0 vs) vs.
Proof.
  unfold maxOf. induction vs as [| w vs IH]; cbn [fold_right In];
    [now left |].
  destruct (Z.max_spec w (fold_right Z.max c0 vs)) as [[_ E] | [_ E]];
    rewrite E.
  - destruct IH as [IH | IH]; [now left | right; now right].
  - right. now left.
Qed.

(** X13.  The loop that raises [peakInUse], run by any number of
    goroutines under any schedule: a single step never lowers the peak,
    whatever value it holds; the peak is always the initial one or a
    count one of the goroutines brought; and once all goroutines have
    left the loop it is the largest of the initial peak and all their
    counts. *)
Theorem peak_is_the_maximum
    (c0 : Z) (counts : list Z) (schedule : list nat)
    (cell : Z) (ts : list (Z * pc)) :
  run schedule c0 (start counts) = (cell, ts) ->
  (forall c v t, c <= fst (threadStep c v t))
  /\ c0 <= cell
  /\ (cell = c0 \/ In cell counts)
  /\ (forallb isDone ts = true -> cell = maxOf c0 counts).
Proof.
  intros Hrun.
  assert (Hstart : peakInv c0 c0 (start counts)).
  { unfold peakInv, start. split; [lia |]. split; [now left |].
    apply Forall_forall. intros vt Hin. apply in_map_iff in Hin.
    destruct Hin as (v & <- & _). exact I. }
  assert (Hvals : map fst (start counts) = counts).
  { unfold start. rewrite map_map. cbn. apply map_id. }
  destruct (peak_run_invariant schedule c0 c0 _ cell ts Hstart Hrun)
    as [(Hc0 & Hin & Hall) Hmap].
  rewrite Hvals in Hmap. rewrite Hmap in Hin.
  split.
  { intros c v t. destruct t as [| peak |]; cbn; try lia.
    destruct (v <=? peak) eqn:E; cbn; [lia |].
    unfold Atomic.CompareAndSwap. apply Z.leb_gt in E.
    destruct (c =? peak) eqn:E'; cbn; [apply Z.eqb_eq in E' |]; lia. }
  split; [exact Hc0 |]. split; [exact Hin |].
  intros Hdone.
  assert (Hup : forall v, In v counts -> v <= cell).
  { intros v Hv. rewrite <- Hmap in Hv. apply in_map_iff in Hv.
    destruct Hv as ([v' t] & Hf & Hvt). cbn in Hf. subst v'.
    rewrite Forall_forall in Hall. specialize (Hall _ Hvt).
    rewrite forallb_forall in Hdone. specialize (Hdone _ Hvt).
    unfold isDone, settled in *. cbn in *.
    destruct t; try discriminate. exact Hall. }
  apply Z.le_antisymm.
  - destruct Hin as [-> | Hin];
      [apply maxOf_ge_start | now apply maxOf_ge_in].
  - destruct (maxOf_in c0 counts) as [-> | Hm]; [exact Hc0 | now apply Hup].
Qed.

(** ** The defaults of the shrink parameters *)

Section Defaults.

(** The properties of [ApplyDefaults] hold whatever the type of the two
    [float64] fields is. *)
Variable F : Type.

Implicit Types (k : Shrink.constants F) (sp : Shrink.parameters F).
Implicit Type table : Z -> option (Shrink.shrinkDefaults F).

(** [ApplyDefaults] in one piece. *)
Lemma ApplyDefaults_shape k table sp :
  Shrink.ApplyDefaults k table sp
  = let level := Shrink.clampedLevel k (Shrink.aggressivenessLevel sp) in
    match table level with
    | None => Shrink.setLevel level sp
    | Some def =>
        {| Shrink.enforceCustomConfig := Shrink.enforceCustomConfig sp;
           Shrink.aggressivenessLevel := level;
           Shrink.checkInterval := Shrink.interval def;
           Shrink.idleThreshold := Shrink.idle def;
           Shrink.minIdleBeforeShrink := Shrink.minIdle def;
           Shrink.shrinkCooldown := Shrink.cooldown def;
           Shrink.minUtilizationBeforeShrink := Shrink.utilization def;
           Shrink.stableUnderutilizationRounds := Shrink.underutilized def;
           Shrink.shrinkPercent := Shrink.percent def;
           Shrink.maxConsecutiveShrinks := Shrink.maxShrinks def;
           Shrink.minCapacity := Shrink.defaultMinCapacity k |}
    end.
Proof.
  unfold Shrink.ApplyDefaults, Shrink.clampedLevel. cbv zeta.
  destruct sp as [e l c1 c2 c3 c4 c5 c6 c7 c8 c9].
  cbn [Shrink.aggressivenessLevel].
  destruct (l <? Shrink.AggressivenessDisabled k);
    cbn [Shrink.setLevel Shrink.aggressivenessLevel
         Shrink.enforceCustomConfig];
    match goal with |- context [if ?b then _ else _] => destruct b end;
    cbn [Shrink.setLevel Shrink.aggressivenessLevel
         Shrink.enforceCustomConfig];
    match goal with |- context [table ?x] => destruct (table x) end;
    reflexivity.
Qed.

Lemma clampedLevel_range k level :
  Shrink.AggressivenessDisabled k <= Shrink.AggressivenessExtreme k ->
  Shrink.AggressivenessDisabled k <= Shrink.clampedLevel k level
  <= Shrink.AggressivenessExtreme k.
Proof.
  intros H. unfold Shrink.clampedLevel. cbv zeta.
  destruct (level <? Shrink.AggressivenessDisabled k) eqn:A.
  - destruct (Shrink.AggressivenessDisabled k
              >? Shrink.AggressivenessExtreme k); lia.
  - apply Z.ltb_ge in A.
    destruct (level >? Shrink.AggressivenessExtreme k) eqn:B;
      [lia | rewrite Z.gtb_ltb in B; apply Z.ltb_ge in B; lia].
Qed.

Lemma clampedLevel_fixed k level :
  Shrink.AggressivenessDisabled k <= level
  <= Shrink.AggressivenessExtreme k ->
  Shrink.clampedLevel k level = level.
Proof.
  intros H. unfold Shrink.clampedLevel. cbv zeta.
  assert (A : (level <? Shrink.AggressivenessDisabled k) = false)
    by (apply Z.ltb_ge; lia).
  assert (B : (level >? Shrink.AggressivenessExtreme k) = false)
    by (rewrite Z.gtb_ltb; apply Z.ltb_ge; lia).
  now rewrite A, B.
Qed.

Lemma ApplyDefaults_keeps k table sp :
  Shrink.enforceCustomConfig (Shrink.ApplyDefaults k table sp)
  = Shrink.enforceCustomConfig sp
  /\ Shrink.aggressivenessLevel (Shrink.ApplyDefaults k table sp)
     = Shrink.clampedLevel k (Shrink.aggressivenessLevel sp).
Proof.
  rewrite ApplyDefaults_shape. cbv zeta.
  destruct (table (Shrink.clampedLevel k (Shrink.aggressivenessLevel sp)));
    split; reflexivity.
Qed.

(** X18.  [ApplyDefaults] brings the level into the range from
    [AggressivenessDisabled] to [AggressivenessExtreme], leaves a level
    within that range alone, and never touches [enforceCustomConfig].
    When the table has no entry for the level nothing but the level
    changes; when it has one, every timing and sizing field is taken from
    the entry and [minCapacity] becomes [defaultMinCapacity], whatever
    was set before. *)
Theorem ApplyDefaults_overwrites k table sp :
  let sp' := Shrink.ApplyDefaults k table sp in
  let level := Shrink.aggressivenessLevel sp' in
  Shrink.AggressivenessDisabled k <= Shrink.AggressivenessExtreme k ->
  Shrink.AggressivenessDisabled k <= level <= Shrink.AggressivenessExtreme k
  /\ Shrink.enforceCustomConfig sp' = Shrink.enforceCustomConfig sp
  /\ (Shrink.AggressivenessDisabled k <= Shrink.aggressivenessLevel sp
      <= Shrink.AggressivenessExtreme k ->
      level = Shrink.aggressivenessLevel sp)
  /\ (table level = None -> sp' = Shrink.setLevel level sp)
  /\ (forall def, table level = Some def ->
      Shrink.checkInterval sp' = Shrink.interval def
      /\ Shrink.idleThreshold sp' = Shrink.idle def
      /\ Shrink.minIdleBeforeShrink sp' = Shrink.minIdle def
      /\ Shrink.shrinkCooldown sp' = Shrink.cooldown def
      /\ Shrink.minUtilizationBeforeShrink sp' = Shrink.utilization def
      /\ Shrink.stableUnderutilizationRounds sp' = Shrink.underutilized def
      /\ Shrink.shrinkPercent sp' = Shrink.percent def
      /\ Shrink.maxConsecutiveShrinks sp' = Shrink.maxShrinks def
      /\ Shrink.minCapacity sp' = Shrink.defaultMinCapacity k).
Proof.
  intros sp' level Hde.
  pose proof (ApplyDefaults_shape k table sp) as Hshape.
  cbv zeta in Hshape. fold sp' in Hshape.
  set (l := Shrink.clampedLevel k (Shrink.aggressivenessLevel sp)) in *.
  assert (Hl : level = l).
  { unfold level. rewrite Hshape. destruct (table l); reflexivity. }
  rewrite Hl.
  split; [apply clampedLevel_range; exact Hde |].
  split; [rewrite Hshape; destruct (table l); reflexivity |].
  split; [intros Hin; now apply clampedLevel_fixed |].
  split.
  - intros Hn. rewrite Hshape, Hn. reflexivity.
  - intros def Hd. rewrite Hshape, Hd. cbn. repeat split.
Qed.

(** X19.  Applying the defaults twice is applying them once. *)
Theorem ApplyDefaults_idempotent k table sp :
  Shrink.ApplyDefaults k table (Shrink.ApplyDefaults k table sp)
  = Shrink.ApplyDefaults k table sp.
Proof.
  assert (Hfix : forall l,
            Shrink.clampedLevel k (Shrink.clampedLevel k l)
            = Shrink.clampedLevel k l).
  { intros l. unfold Shrink.clampedLevel. cbv zeta.
    destruct (l <? Shrink.AggressivenessDisabled k) eqn:A;
      destruct (Shrink.AggressivenessDisabled k
                >? Shrink.AggressivenessExtreme k) eqn:B;
      destruct (l >? Shrink.AggressivenessExtreme k) eqn:C;
      destruct (Shrink.AggressivenessExtreme k
                <? Shrink.AggressivenessDisabled k) eqn:D;
      rewrite ?A, ?B, ?C, ?D, ?Z.ltb_irrefl;
      rewrite ?Z.gtb_ltb, ?Z.ltb_irrefl;
      rewrite ?A, ?B, ?C, ?D; try reflexivity;
      rewrite ?Z.gtb_ltb in *;
      repeat match goal with
             | H : (_ <? _) = true |- _ => apply Z.ltb_lt in H
             | H : (_ <? _) = false |- _ => apply Z.ltb_ge in H
             end; try lia. }
  rewrite (ApplyDefaults_shape k table (Shrink.ApplyDefaults k table sp)).
  rewrite (ApplyDefaults_shape k table sp). cbv zeta.
  set (l := Shrink.clampedLevel k (Shrink.aggressivenessLevel sp)).
  destruct (table l) as [d |] eqn:Et;
    cbn [Shrink.aggressivenessLevel Shrink.setLevel
         Shrink.enforceCustomConfig];
    unfold l; rewrite Hfix; fold l; rewrite Et; reflexivity.
Qed.

End Defaults.

(** ** The configuration builder *)

Import Builder.

(** Comparisons of [float64] values: swapping the sides swaps the
    outcome, and only a NaN has no outcome. *)
Lemma SFcompare_antisym (a b : float64) :
  SFcompare b a = option_map CompOpp (SFcompare a b).
Proof.
  destruct a as [sa | sa | | sa ma ea], b as [sb | sb | | sb mb eb];
    try destruct sa; try destruct sb; cbn; try reflexivity;
    rewrite (Z.compare_antisym ea eb);
    change (Pos.compare_cont Eq mb ma) with (Pos.compare mb ma);
    change (Pos.compare_cont Eq ma mb) with (Pos.compare ma mb);
    rewrite (Pos.compare_antisym ma mb);
    destruct (ea ?= eb); destruct (Pos.compare ma mb); reflexivity.
Qed.

Lemma SFcompare_none (a b : float64) :
  SFcompare a b = None ->
  Float64.isNaN a = true \/ Float64.isNaN b = true.
Proof.
  destruct a as [sa | sa | | sa ma ea], b as [sb | sb | | sb mb eb];
    cbn; auto; discriminate.
Qed.

(** What a test of [Build] that did not fire says about the value. *)
Lemma fle_false a b :
  Float64.isNaN b = false ->
  fle a b = false -> Float64.isNaN a = true \/ Float64.lt b a.
Proof.
  unfold fle, Float64.lt, Float64.leb, Float64.ltb, SFleb, SFltb.
  intros Hb H. rewrite (SFcompare_antisym a b).
  destruct (SFcompare a b) as [[| |] |] eqn:E; try discriminate; cbn; auto.
  destruct (SFcompare_none a b E) as [Ha | Hb']; [auto | congruence].
Qed.

Lemma fgt_false a b :
  Float64.isNaN b = false ->
  fgt a b = false -> Float64.isNaN a = true \/ Float64.le a b.
Proof.
  unfold fgt, Float64.le, Float64.leb, Float64.ltb, SFleb, SFltb.
  intros Hb H. rewrite (SFcompare_antisym a b) in H.
  destruct (SFcompare a b) as [[| |] |] eqn:E; try discriminate; cbn; auto.
  destruct (SFcompare_none a b E) as [Ha | Hb']; [auto | congruence].
Qed.

Lemma fge_false a b :
  Float64.isNaN b = false ->
  fge a b = false -> Float64.isNaN a = true \/ Float64.lt a b.
Proof.
  unfold fge, Float64.lt, Float64.leb, Float64.ltb, SFleb, SFltb.
  intros Hb H. rewrite (SFcompare_antisym a b) in H.
  destruct (SFcompare a b) as [[| |] |] eqn:E; try discriminate; cbn; auto.
  destruct (SFcompare_none a b E) as [Ha | Hb']; [auto | congruence].
Qed.

(** A [float64] parameter that passed a test against zero is positive or
    a NaN; one that passed a test against zero and one lies between them
    or is a NaN. *)
Lemma passed_zero x : fle x Float64.zero = false -> Float64.positiveOrNaN x.
Proof. apply fle_false. reflexivity. Qed.

Lemma passed_zero_one x :
  fle x Float64.zero || fgt x Float64.one = false ->
  Float64.isNaN x = true
  \/ (Float64.lt Float64.zero x /\ Float64.le x Float64.one).
Proof.
  intros H. apply orb_false_iff in H. destruct H as [H0 H1].
  destruct (fle_false x Float64.zero eq_refl H0) as [N | L0]; [auto |].
  destruct (fgt_false x Float64.one eq_refl H1) as [N | L1]; auto.
Qed.

Lemma passed_zero_below_one x :
  fle x Float64.zero || fge x Float64.one = false ->
  Float64.isNaN x = true
  \/ (Float64.lt Float64.zero x /\ Float64.lt x Float64.one).
Proof.
  intros H. apply orb_false_iff in H. destruct H as [H0 H1].
  destruct (fle_false x Float64.zero eq_refl H0) as [N | L0]; [auto |].
  destruct (fge_false x Float64.one eq_refl H1) as [N | L1]; auto.
Qed.

(** Turns the outcomes of the tests of [Build] into inequalities. *)
Ltac tests_to_props :=
  repeat match goal with
  | H : fle _ _ || fgt _ _ = false |- _ => apply passed_zero_one in H
  | H : fle _ _ || fge _ _ = false |- _ => apply passed_zero_below_one in H
  | H : fle _ _ = false |- _ => apply passed_zero in H
  | H : (_ <=? _) = false |- _ => apply Z.leb_gt in H
  | H : (_ <? _) = false |- _ => apply Z.ltb_ge in H
  | H : (_ >? _) = false |- _ => rewrite Z.gtb_ltb in H; apply Z.ltb_ge in H
  end.

(** X20.  A configuration that [Build] accepts is the one the builder
    holds, unchanged, and its integers satisfy the bounds the pool relies
    on: the initial capacity is positive and at most the hard limit, the
    minimum capacity and the buffer size are at most the hard limit, and
    the triggers are positive.  Of its [float64] parameters each one is
    a NaN, which no test of [Build] rejects, or in its range: the six
    growth factors and the shrink percentage of the fast path positive,
    the fill fraction in (0, 1] and the refill fraction in (0, 1). *)
Theorem Build_accepts_only_valid (b : poolConfigBuilder) (c : poolConfig) :
  Build b = inr c ->
  c = config b
  /\ 0 < initialCapacity c <= hardLimit c
  /\ Shrink.minCapacity (shrink c) <= hardLimit c
  /\ 0 < FP.bufferSize (fastPath c) <= hardLimit c
  /\ 2 <= hardLimitBufferSize c
  /\ Float64.positiveOrNaN (exponentialThresholdFactor (growth c))
  /\ Float64.positiveOrNaN (growthPercent (growth c))
  /\ Float64.positiveOrNaN (fixedGrowthFactor (growth c))
  /\ Float64.positiveOrNaN (exponentialThresholdFactor (FP.growth (fastPath c)))
  /\ Float64.positiveOrNaN (growthPercent (FP.growth (fastPath c)))
  /\ Float64.positiveOrNaN (fixedGrowthFactor (FP.growth (fastPath c)))
  /\ (Float64.isNaN (FP.fillAggressiveness (fastPath c)) = true
      \/ (Float64.lt Float64.zero (FP.fillAggressiveness (fastPath c))
          /\ Float64.le (FP.fillAggressiveness (fastPath c)) Float64.one))
  /\ (Float64.isNaN (FP.refillPercent (fastPath c)) = true
      \/ (Float64.lt Float64.zero (FP.refillPercent (fastPath c))
          /\ Float64.lt (FP.refillPercent (fastPath c)) Float64.one))
  /\ 0 < FP.growthEventsTrigger (fastPath c)
  /\ 0 < FP.shrinkEventsTrigger (fastPath c)
  /\ 0 < Shrink.minCapacity (FP.shrink (fastPath c))
  /\ Float64.positiveOrNaN (Shrink.shrinkPercent (FP.shrink (fastPath c))).
Proof.
  intros H. unfold Build, failIf in H. cbv zeta in H.
  repeat match type of H with
  | (if ?t then _ else _) = _ =>
      let E := fresh "E" in destruct t eqn:E; try discriminate
  end;
  inversion H; subst c; tests_to_props; repeat split; auto; lia.
Qed.

(** X21.  Under [enforceCustomConfig] an accepted configuration also has
    every integer shrink parameter set to a usable value: the intervals
    and counts are positive, the idle threshold is at least the check
    interval, the minimum capacity is positive and at most the initial
    capacity.  The utilization threshold and the shrink percentage lie
    in (0, 1] unless they are NaNs, which [Build] accepts here too. *)
Theorem Build_enforces_custom_shrink (b : poolConfigBuilder) (c : poolConfig) :
  Build b = inr c ->
  Shrink.enforceCustomConfig (shrink c) = true ->
  let sp := shrink c in
  0 < Shrink.maxConsecutiveShrinks sp
  /\ 0 < Shrink.checkInterval sp <= Shrink.idleThreshold sp
  /\ 0 < Shrink.minIdleBeforeShrink sp
  /\ 0 < Shrink.minCapacity sp <= initialCapacity c
  /\ 0 < Shrink.shrinkCooldown sp
  /\ (Float64.isNaN (Shrink.minUtilizationBeforeShrink sp) = true
      \/ (Float64.lt Float64.zero (Shrink.minUtilizationBeforeShrink sp)
          /\ Float64.le (Shrink.minUtilizationBeforeShrink sp) Float64.one))
  /\ 0 < Shrink.stableUnderutilizationRounds sp
  /\ (Float64.isNaN (Shrink.shrinkPercent sp) = true
      \/ (Float64.lt Float64.zero (Shrink.shrinkPercent sp)
          /\ Float64.le (Shrink.shrinkPercent sp) Float64.one)).
Proof.
  intros H He. unfold Build, failIf in H. cbv zeta in H.
  repeat match type of H with
  | (if ?t then _ else _) = _ =>
      let E := fresh "E" in destruct t eqn:E; try discriminate
  end;
  inversion H; subst c; try congruence;
  tests_to_props; cbv zeta; repeat split; auto; lia.
Qed.

(** X22.  The first three tests of [Build], whatever the rest of the
    configuration: an initial capacity of zero or less is rejected; with
    a positive initial capacity a hard limit of zero or less is rejected;
    and a positive hard limit below the initial capacity is rejected. *)
Theorem Build_rejects_bad_capacities (b : poolConfigBuilder) (n : Z) :
  (n <= 0 -> Build (SetInitialCapacity n b) = inl ErrInitialCapacity)
  /\ (0 < initialCapacity (config b) -> n <= 0 ->
      Build (SetHardLimit n b) = inl ErrHardLimit)
  /\ (0 < n < initialCapacity (config b) ->
      Build (SetHardLimit n b) = inl ErrHardLimitBelowInitial).
Proof.
  unfold Build, failIf, SetInitialCapacity, SetHardLimit. cbn.
  split; [| split].
  - intros H. assert (E : (n <=? 0) = true) by (apply Z.leb_le; lia).
    now rewrite E.
  - intros Hi H.
    assert (E0 : (initialCapacity (config b) <=? 0) = false)
      by (apply Z.leb_gt; lia).
    assert (E : (n <=? 0) = true) by (apply Z.leb_le; lia).
    now rewrite E0, E.
  - intros H.
    assert (E0 : (initialCapacity (config b) <=? 0) = false)
      by (apply Z.leb_gt; lia).
    assert (E : (n <=? 0) = false) by (apply Z.leb_gt; lia).
    assert (E1 : (n <? initialCapacity (config b)) = true)
      by (apply Z.ltb_lt; lia).
    now rewrite E0, E, E1.
Qed.

(** X23.  The three growth setters store positive values only, so they
    cannot make the growth factors invalid: factors that are positive
    stay positive after any of the setters with any argument, and a
    setter called with a value that is not above zero (zero, a negative
    value or a NaN) returns the builder as it was. *)
Theorem growth_setters_keep_factors_positive
    (b : poolConfigBuilder) (x : float64) :
  let positive (b : poolConfigBuilder) :=
    Float64.lt Float64.zero (exponentialThresholdFactor (growth (config b)))
    /\ Float64.lt Float64.zero (growthPercent (growth (config b)))
    /\ Float64.lt Float64.zero (fixedGrowthFactor (growth (config b))) in
  (positive b ->
   positive (SetGrowthExponentialThresholdFactor x b)
   /\ positive (SetGrowthPercent x b)
   /\ positive (SetFixedGrowthFactor x b))
  /\ (Float64.ltb Float64.zero x = false ->
      SetGrowthExponentialThresholdFactor x b = b
      /\ SetGrowthPercent x b = b
      /\ SetFixedGrowthFactor x b = b).
Proof.
  cbv zeta.
  unfold SetGrowthExponentialThresholdFactor, SetGrowthPercent,
    SetFixedGrowthFactor.
  split.
  - intros (H1 & H2 & H3).
    destruct (Float64.ltb Float64.zero x) eqn:E; cbn; repeat split;
      assumption.
  - intros Hx. rewrite Hx. auto.
Qed.

(** X24.  [SetShrinkAggressiveness] panics exactly when custom
    configuration is enforced or the level is not above
    [AggressivenessDisabled] and at most [AggressivenessExtreme].
    Otherwise the pool and the fast path both carry the level, neither
    has [enforceCustomConfig] changed, and the minimum capacity of the
    fast path is [defaultL1MinCapacity], whatever the table of defaults
    holds. *)
Theorem SetShrinkAggressiveness_sets_both
    (k : Shrink.constants float64) (level : Z) (b : poolConfigBuilder) :
  (SetShrinkAggressiveness k level b = None
   <-> Shrink.enforceCustomConfig (shrink (config b)) = true
       \/ level <= Shrink.AggressivenessDisabled k
       \/ Shrink.AggressivenessExtreme k < level)
  /\ (forall b', SetShrinkAggressiveness k level b = Some b' ->
      Shrink.aggressivenessLevel (shrink (config b')) = level
      /\ Shrink.aggressivenessLevel (FP.shrink (fastPath (config b'))) = level
      /\ Shrink.enforceCustomConfig (shrink (config b')) = false
      /\ Shrink.enforceCustomConfig (FP.shrink (fastPath (config b')))
         = Shrink.enforceCustomConfig (FP.shrink (fastPath (config b)))
      /\ Shrink.minCapacity (FP.shrink (fastPath (config b')))
         = Shrink.defaultL1MinCapacity k
      /\ initialCapacity (config b') = initialCapacity (config b)
      /\ hardLimit (config b') = hardLimit (config b)
      /\ growth (config b') = growth (config b)).
Proof.
  unfold SetShrinkAggressiveness, levelOutOfBounds.
  destruct (Shrink.enforceCustomConfig (shrink (config b))) eqn:Ee.
  { split; [split; auto | intros b' H; discriminate]. }
  destruct (level <=? Shrink.AggressivenessDisabled k) eqn:A; cbn [orb].
  { apply Z.leb_le in A.
    split; [split; auto | intros b' H; discriminate]. }
  destruct (level >? Shrink.AggressivenessExtreme k) eqn:B.
  { rewrite Z.gtb_ltb in B. apply Z.ltb_lt in B.
    split; [split; auto | intros b' H; discriminate]. }
  apply Z.leb_gt in A. rewrite Z.gtb_ltb in B. apply Z.ltb_ge in B.
  assert (Hde : Shrink.AggressivenessDisabled k
                <= Shrink.AggressivenessExtreme k) by lia.
  split.
  - split; [discriminate |].
    intros [H | [H | H]]; [discriminate | lia | lia].
  - intros b' H. inversion H; subst b'. clear H.
    cbn [config withFastPathShrink withShrink shrink fastPath FP.shrink
         initialCapacity hardLimit growth Shrink.setMinCapacity
         Shrink.aggressivenessLevel Shrink.enforceCustomConfig
         Shrink.minCapacity].
    pose proof (ApplyDefaults_keeps _ k (Shrink.defaultShrinkMap k)
                  (Shrink.setLevel level (shrink (config b))))
      as (He1 & Hl1).
    pose proof (ApplyDefaults_keeps _ k (Shrink.defaultShrinkMap k)
                  (Shrink.setLevel level (FP.shrink (fastPath (config b)))))
      as (He2 & Hl2).
    cbn [Shrink.setLevel Shrink.aggressivenessLevel
         Shrink.enforceCustomConfig] in *.
    rewrite Hl1, Hl2, He1, He2.
    rewrite clampedLevel_fixed by lia. repeat split. exact Ee.
Qed.

(** X25.  After [EnforceCustomConfig] the shrink parameters are marked
    as enforced and carry the level [AggressivenessDisabled], and every
    later [SetShrinkAggressiveness] panics, at any level. *)
Theorem EnforceCustomConfig_locks_aggressiveness
    (k : Shrink.constants float64) (b : poolConfigBuilder) (level : Z) :
  Shrink.AggressivenessDisabled k <= Shrink.AggressivenessExtreme k ->
  let b' := EnforceCustomConfig k b in
  Shrink.enforceCustomConfig (shrink (config b')) = true
  /\ Shrink.aggressivenessLevel (shrink (config b'))
     = Shrink.AggressivenessDisabled k
  /\ SetShrinkAggressiveness k level b' = None.
Proof.
  intros Hde b'. unfold b', EnforceCustomConfig. cbv zeta.
  pose proof (ApplyDefaults_keeps _ k (Shrink.defaultShrinkMap k)
                (Shrink.setLevel (Shrink.AggressivenessDisabled k)
                   (Shrink.setEnforce true (shrink (config b)))))
    as (He & Hl).
  cbn [Shrink.setLevel Shrink.setEnforce Shrink.aggressivenessLevel
       Shrink.enforceCustomConfig] in *.
  unfold SetShrinkAggressiveness.
  cbn [config withShrink shrink].
  rewrite He, Hl. rewrite clampedLevel_fixed by lia. auto.
Qed.

(** X29.  [SetFastPathShrinkAggressiveness] panics exactly when the fast
    path enforces custom configuration or the level is out of bounds.
    Otherwise only the shrink parameters of the fast path change: they
    carry the level, and where the table of defaults knows the level
    their minimum capacity is [defaultMinCapacity], not
    [defaultL1MinCapacity]. *)
Theorem SetFastPathShrinkAggressiveness_sets_fast_path_only
    (k : Shrink.constants float64) (level : Z) (b : poolConfigBuilder) :
  (SetFastPathShrinkAggressiveness k level b = None
   <-> Shrink.enforceCustomConfig (FP.shrink (fastPath (config b))) = true
       \/ level <= Shrink.AggressivenessDisabled k
       \/ Shrink.AggressivenessExtreme k < level)
  /\ (forall b', SetFastPathShrinkAggressiveness k level b = Some b' ->
      shrink (config b') = shrink (config b)
      /\ growth (config b') = growth (config b)
      /\ initialCapacity (config b') = initialCapacity (config b)
      /\ hardLimit (config b') = hardLimit (config b)
      /\ FP.bufferSize (fastPath (config b'))
         = FP.bufferSize (fastPath (config b))
      /\ Shrink.aggressivenessLevel (FP.shrink (fastPath (config b')))
         = level
      /\ (forall def, Shrink.defaultShrinkMap k level = Some def ->
          Shrink.minCapacity (FP.shrink (fastPath (config b')))
          = Shrink.defaultMinCapacity k
          /\ Shrink.shrinkPercent (FP.shrink (fastPath (config b')))
             = Shrink.percent def)
      /\ (Shrink.defaultShrinkMap k level = None ->
          Shrink.minCapacity (FP.shrink (fastPath (config b')))
          = Shrink.minCapacity (FP.shrink (fastPath (config b))))).
Proof.
  unfold SetFastPathShrinkAggressiveness, levelOutOfBounds.
  destruct (Shrink.enforceCustomConfig (FP.shrink (fastPath (config b))))
    eqn:Ee.
  { split; [split; auto | intros b' H; discriminate]. }
  destruct (level <=? Shrink.AggressivenessDisabled k) eqn:A; cbn [orb].
  { apply Z.leb_le in A.
    split; [split; auto | intros b' H; discriminate]. }
  destruct (level >? Shrink.AggressivenessExtreme k) eqn:B.
  { rewrite Z.gtb_ltb in B. apply Z.ltb_lt in B.
    split; [split; auto | intros b' H; discriminate]. }
  apply Z.leb_gt in A. rewrite Z.gtb_ltb in B. apply Z.ltb_ge in B.
  split.
  - split; [discriminate |].
    intros [H | [H | H]]; [discriminate | lia | lia].
  - intros b' H. inversion H; subst b'. clear H.
    cbn [config withFastPathShrink shrink fastPath FP.shrink FP.bufferSize
         initialCapacity hardLimit growth].
    rewrite ApplyDefaults_shape.
    cbn [Shrink.setLevel Shrink.aggressivenessLevel]. cbv zeta.
    rewrite clampedLevel_fixed by lia.
    destruct (Shrink.defaultShrinkMap k level) as [def |] eqn:Et;
      cbn [Shrink.setLevel Shrink.aggressivenessLevel Shrink.minCapacity
           Shrink.shrinkPercent Shrink.enforceCustomConfig];
      repeat split; try reflexivity; intros; congruence.
Qed.

(** X30.  While custom configuration is not enforced, [Build] tests no
    shrink parameter of the pool but its minimum capacity against the
    hard limit: two builders that differ only in such parameters are
    rejected with the same error or both accepted. *)
Theorem Build_skips_shrink_checks_unless_enforced
    (b : poolConfigBuilder) (s : Shrink.parameters float64) :
  Shrink.enforceCustomConfig (shrink (config b)) = false ->
  Shrink.enforceCustomConfig s = false ->
  Shrink.minCapacity s = Shrink.minCapacity (shrink (config b)) ->
  match Build b, Build (withShrink s b) with
  | inl e, inl e' => e = e'
  | inr c, inr c' => c = config b /\ c' = config (withShrink s b)
  | _, _ => False
  end.
Proof.
  intros He Hs Hm. unfold Build, failIf.
  cbn [config withShrink initialCapacity hardLimit hardLimitBufferSize
       shrink growth fastPath].
  rewrite He, Hs, Hm.
  repeat match goal with
         | |- context [if ?t then _ else _] => destruct t
         end; auto.
Qed.

End ConfigurationProperties.

(** * The properties at sample inputs *)

Section Instances.

Import Sample.

(** Settles a closed comparison by evaluating both sides. *)
Ltac evaluated := vm_compute; first [reflexivity | discriminate].

(** C10 at a counter of three, and two goroutines on a counter of one. *)
Lemma counter_decrements_sample :
  inU64 3
  /\ (exists p',
        releaseObj 1 0%nat (poolOf 4 3 [] []) = Some p'
        /\ objectsInUse (stats p') = 2)
  /\ (forall cell ts,
        Concurrent.run [0; 1; 0; 1; 0; 1]%nat 1
          (repeat Concurrent.AtLoad 2) = (cell, ts) ->
        0 <= cell <= 1).
Proof.
  assert (H3 : inU64 3) by (unfold inU64; lia).
  assert (H0 : inU64 0) by (unfold inU64; lia).
  assert (H1 : inU64 1) by (unfold inU64; lia).
  destruct (counter_decrements_floor_at_zero nat 0 0%nat (poolOf 4 3 [] [])
              1 2 [0; 1; 0; 1; 0; 1]%nat H3 H0 H0 H1)
    as (Hrel & _ & _ & _ & Hrun).
  split; [exact H3 |]. split.
  - exact Hrel.
  - intros cell ts H. exact (proj1 (Hrun cell ts H)).
Defined.

(** C1 as stated fails in the linear mode: with an initial and current
    capacity of one, at the threshold, and a fixed growth factor of one
    half, the fixed step [uint64(float64(1) * 0.5)] is zero and the
    capacity stays at one, where [max 1 (floor ...)] would give two. *)
Lemma linear_growth_has_no_minimum_step :
  let step := Float64.scaleUint64 indefinite 1 (fixedGrowthFactor halves) in
  step = 0
  /\ calculateNewPoolCapacity indefinite 1 1 step halves = 1
  /\ 1 + Z.max 1 (Qfloor (inject_Z 1
                           * Float64.valueOf (fixedGrowthFactor halves)))
     = 2.
Proof. repeat split. Qed.

(** C1 at a capacity of ten below the threshold, growing by the float64
    nearest to [0.3]: the product rounds to three, so that the capacity
    becomes thirteen although the exact product is below three; and at a
    capacity of eight at the threshold with a step of four. *)
Lemma calculateNewPoolCapacity_sample :
  calculateNewPoolCapacity indefinite 10 16 0 tenths = 13
  /\ Qfloor (inject_Z 10 * Float64.valueOf (growthPercent tenths)) = 2
  /\ calculateNewPoolCapacity indefinite 8 8 4 halves = 12.
Proof.
  assert (H10 : inU64 10) by (unfold inU64; lia).
  assert (H8 : inU64 8) by (unfold inU64; lia).
  assert (Hlt : 10 < 16) by lia.
  assert (Hno : 10 + Z.max 1
                  (Float64.toUint64 indefinite
                     (Float64.mul (Float64.ofInt 10) (growthPercent tenths)))
                < 2 ^ 64) by (vm_compute; reflexivity).
  split; [| split].
  - exact (proj1 (calculateNewPoolCapacity_modes indefinite 10 16 0 tenths
                    H10) Hlt Hno).
  - reflexivity.
  - apply (proj2 (proj2 (calculateNewPoolCapacity_modes indefinite 8 8 4
                           halves H8))); lia.
Defined.

(** C5 as stated fails twice: an idle tick takes a counter that already
    stands at [minIdleBeforeShrink = 1] to two, and an active tick takes
    it to zero while the permission stays set. *)
Lemma idle_counter_does_not_saturate :
  minIdleBeforeShrink (shrink (config (poolOf 4 0 [] []))) = 1
  /\ IndleCheck 10 (poolOf 4 0 [] []) 1 true = (2, true)
  /\ IndleCheck 1 (poolOf 4 0 [] []) 1 true = (0, true).
Proof. repeat split. Qed.

Lemma IndleCheck_sample :
  0 <= 1 < 2 ^ 63 - 1
  /\ IndleCheck 10 (poolOf 4 0 [] []) 1 false = (2, true)
  /\ IndleCheck 1 (poolOf 4 0 [] []) 1 false = (0, false).
Proof.
  assert (H : 0 <= 1 < 2 ^ 63 - 1) by lia.
  split; [exact H |]. split.
  - apply (proj1 (IndleCheck_rounds nat 10 (poolOf 4 0 [] []) 1 false H)).
    cbn. lia.
  - apply (proj2 (IndleCheck_rounds nat 1 (poolOf 4 0 [] []) 1 false H)).
    cbn. lia.
Defined.

(** C3 at a pool of capacity one, whose target of zero stops the
    shrink, and at a pool of capacity four with five objects in use,
    where the clamp to five leaves nothing to keep. *)
Lemma ShrinkExecution_sample :
  ShrinkExecution indefinite silent 7 (poolOf 1 0 [] [1%nat])
  = Some (poolOf 1 0 [] [1%nat])
  /\ ShrinkExecution indefinite silent 7 (poolOf 4 5 [] [1%nat])
     = Some (poolOf 4 5 [] [1%nat])
  /\ performShrink silent 7 (poolOf 4 5 [] [1%nat]) 5 5 4
     = poolOf 4 5 [] [1%nat].
Proof.
  assert (H1 : inU64 1) by (unfold inU64; lia).
  assert (H4 : inU64 4) by (unfold inU64; lia).
  assert (H2 : inInt 1) by (unfold inInt; lia).
  assert (Hc : 4 < 2 ^ 63) by lia.
  assert (Hm : 0 <= 1) by lia.
  assert (Hn : shrinkTarget indefinite (poolOf 4 5 [] [1%nat]) <> 0)
    by evaluated.
  assert (Hb : 1 < 4) by lia.
  assert (Hl : shrinkTarget indefinite (poolOf 4 5 [] [1%nat]) < 4)
    by evaluated.
  assert (Ha : Length (pool (poolOf 4 5 [] [1%nat]))
               + chLen (cacheL1 (poolOf 4 5 [] [1%nat])) <> 0)
    by evaluated.
  destruct (ShrinkExecution_abort_and_clamp nat indefinite silent 7
              (poolOf 1 0 [] [1%nat]) H1 H2) as (_ & Habort & _).
  destruct (ShrinkExecution_abort_and_clamp nat indefinite silent 7
              (poolOf 4 5 [] [1%nat]) H4 H2) as (_ & _ & Hgo).
  destruct (Hgo Hc Hm Hn Hb Hl Ha) as [Hrun Hclamp].
  split; [| split].
  - apply Habort. left. reflexivity.
  - exact Hrun.
  - exact (proj2 (Hclamp ltac:(evaluated))).
Defined.

(** C3 as stated fails where the clamp exceeds the current capacity: the
    execution does not leave the pool as it was.  At a capacity of four
    with five objects out the target is clamped to five; the ring buffer
    stays, but the growth latch is cleared and the L1 step runs, which
    cuts the sixteen values of L1 down to three. *)
Lemma clamp_above_capacity_still_changes_the_pool :
  let p := crowdedPool in
  let target :=
    Z.max (Z.max (shrinkTarget indefinite p) (minCapacity (shrink (config p))))
          (toInt (objectsInUse (stats p))) in
  shrinkTarget indefinite p = 2
  /\ target = 5
  /\ currentCapacity (stats p) = 4
  /\ isGrowthBlocked p = true
  /\ length (chItems (cacheL1 p)) = 16%nat
  /\ exists p',
       ShrinkExecution indefinite silent 7 p = Some p'
       /\ pool p' = pool p
       /\ currentCapacity (stats p') = 4
       /\ isGrowthBlocked p' = false
       /\ chItems (cacheL1 p') = [1; 2; 3]%nat
       /\ chCap (cacheL1 p') = 8.
Proof.
  cbv zeta. repeat split.
  eexists. split; [vm_compute; reflexivity |]. repeat split.
Qed.

(** C4 at a ring buffer of four values shrunk to capacity three with one
    object in use: two values are kept. *)
Lemma performShrink_sample :
  let p' := performShrink silent 7 (poolOf 4 1 [] [1; 2; 3; 4]%nat) 3 1 4 in
  rbItems (pool p') = [1; 2]%nat
  /\ rbCap (pool p') = 3
  /\ cleaned p' = []
  /\ currentCapacity (stats p') = 3
  /\ totalShrinkEvents (stats p') = 1
  /\ consecutiveShrinks (stats p') = 1
  /\ lastShrinkTime (stats p') = 7.
Proof.
  assert (Hu : 0 <= 1 < 2 ^ 63) by lia.
  assert (Hn : 0 <= 3 < 2 ^ 63) by lia.
  assert (H1 : inU64 (0 + 1)) by (unfold inU64; lia).
  destruct (proj2 (performShrink_replaces_ring_buffer nat silent 7
              (poolOf 4 1 [] [1; 2; 3; 4]%nat) 3 1 4 Hu Hn H1 H1))
    as (A & B & _ & _ & _ & C & _ & D & E & F & G); [lia |].
  cbv zeta. repeat split; assumption.
Defined.

(** C4 as stated fails on the values that are not kept: they leave the
    pool without a call of the cleaner.  Of the four values of the ring
    buffer two are kept; the other two are in neither tier afterwards
    and the trace of cleaner calls is empty. *)
Lemma shrink_drops_values_uncleaned :
  let p := poolOf 4 1 [] [1; 2; 3; 4]%nat in
  let p' := performShrink silent 7 p 3 1 4 in
  rbItems (pool p) = [1; 2; 3; 4]%nat
  /\ rbItems (pool p') = [1; 2]%nat
  /\ chItems (cacheL1 p') = []
  /\ cleaned p' = [].
Proof. repeat split. Qed.

(** C6 at an L2 of three values and an L1 with one free slot, for a fill
    target of two: one value moves to L1, the other returns to L2; and at
    an empty pool of capacity two, which grows first and then moves the
    fresh value. *)
Lemma refill_sample :
  (exists res p',
     refill silent (grow indefinite alloc) 7 2
       (poolOf 4 0 [9]%nat [1; 2; 3]%nat)
     = Some (res, p')
     /\ chItems (cacheL1 p') = [9; 1]%nat
     /\ rbItems (pool p') = [3; 2]%nat
     /\ ItemsMoved res = 1 /\ ItemsFailed res = 1)
  /\ (exists res p',
        refill silent (grow indefinite alloc) 7 1 (poolOf 2 0 [] [])
        = Some (res, p')
        /\ GrowthNeeded res = true
        /\ chItems (cacheL1 p') = [0]%nat
        /\ rbItems (pool p') = []
        /\ ItemsMoved res = 1 /\ ItemsFailed res = 0).
Proof.
  split.
  - assert (Hf : 0 <= 2 < 2 ^ 63) by lia.
    destruct (proj2 (proj2 (proj2
                (refill_grows_then_moves nat silent (grow indefinite alloc) 7 2
                   (poolOf 4 0 [9]%nat [1; 2; 3]%nat)
                   (poolOf 4 0 [9]%nat [1; 2; 3]%nat) Hf))))
      as (res & p' & Hr & _ & Hm); try (cbn; lia).
    exists res, p'. split; [exact Hr |].
    destruct Hm as (_ & A & _ & B & _ & C & D).
    repeat split; assumption.
  - assert (Hf : 0 <= 1 < 2 ^ 63) by lia.
    assert (Hshort : Length (pool (poolOf 2 0 [] [])) = 0
                     \/ Length (pool (poolOf 2 0 [] [])) < 1)
      by (left; reflexivity).
    assert (Hgrown : grow indefinite alloc 7 (poolOf 2 0 [] [])
                     = Some (true, grownPool))
      by (vm_compute; reflexivity).
    assert (Hcap : Length (pool grownPool) <= rbCap (pool grownPool))
      by evaluated.
    destruct (proj1 (proj2 (proj2
                (refill_grows_then_moves nat silent (grow indefinite alloc) 7 1
                   (poolOf 2 0 [] []) grownPool Hf)))
                Hshort eq_refl Hgrown Hcap)
      as (res & p' & Hr & Hg & Hm).
    exists res, p'. split; [exact Hr |]. split; [exact Hg |].
    destruct Hm as (_ & A & _ & B & _ & C & D).
    repeat split; assumption.
Defined.

(** C6 as stated fails when the growth fails: at a pool at its hard
    limit of eight whose L2 holds one value, a refill with a fill target
    of two asks for a growth, which fails, and returns at once: the one
    value that [min fillTarget (Length L2)] counts stays in L2 although
    L1 has room for it. *)
Lemma failed_growth_moves_nothing :
  let p := poolOf 8 0 [] [1]%nat in
  isGrowthBlocked p = false
  /\ Z.min 2 (Length (pool p)) = 1
  /\ chLen (cacheL1 p) < chCap (cacheL1 p)
  /\ exists res p',
       refill silent (grow indefinite alloc) 7 2 p = Some (res, p')
       /\ Reason res = ReasonGrowthFailed
       /\ Success res = false
       /\ ItemsMoved res = 0 /\ ItemsFailed res = 0
       /\ chItems (cacheL1 p') = []
       /\ rbItems (pool p') = [1]%nat.
Proof.
  cbv zeta. repeat split.
  eexists _, _. split; [vm_compute; reflexivity |]. repeat split.
Qed.

(** C2 at the hard limit of eight: a pool of capacity eight fails to
    grow and latches, a pool of capacity six grows to eight. *)
Lemma grow_sample :
  inU64 8
  /\ grow indefinite alloc 7 (poolOf 8 0 [] [])
     = Some (false, withGrowthBlocked true (poolOf 8 0 [] []))
  /\ (exists p',
        grow indefinite alloc 7 (poolOf 6 0 [] []) = Some (true, p')
        /\ currentCapacity (stats p') = 8).
Proof.
  assert (H8 : inU64 8) by (unfold inU64; lia).
  split; [exact H8 |]. split.
  - apply (proj1 (grow_fails_exactly_at_hard_limit nat alloc indefinite 7
                    (poolOf 8 0 [] []) H8)).
    cbn. lia.
  - destruct (grow_fails_exactly_at_hard_limit nat alloc indefinite 7
                (poolOf 6 0 [] []) H8) as (_ & _ & Hclamp & Htotal).
    destruct (Htotal (or_introl eq_refl)) as (ok & p' & Hg).
    destruct (Hclamp ltac:(cbn; lia) ok p' Hg) as [Hok Hcap].
    exists p'. rewrite <- Hok. auto.
Defined.

(** C9 at a pool of capacity two with channel growth off: the growth
    raises the recorded capacity and the ring buffer to three and leaves
    L1 as it was. *)
Lemma channel_growth_disabled_sample :
  FastPath.enableChannelGrowth (fastPath (config (poolOf 2 0 [] []))) = false
  /\ exists p',
       grow indefinite alloc 7 (poolOf 2 0 [] []) = Some (true, p')
       /\ cacheL1 p' = cacheL1 (poolOf 2 0 [] [])
       /\ currentCapacity (stats p') = 3
       /\ 3 <= rbCap (pool p').
Proof.
  split; [reflexivity |].
  destruct (channel_growth_disabled_keeps_L1 nat alloc indefinite silent 7 2
              (poolOf 2 0 [] []) eq_refl)
    as (_ & _ & (ok & p' & Hg & Hl1 & _ & Hgrown) & _).
  destruct (Hgrown eq_refl) as (Hok & Hcap & Hrb).
  exists p'. subst ok. repeat split; assumption.
Defined.

(** C7 as stated fails: a pool of capacity eight that holds three values
    in L1 and two in the ring buffer, none handed out, reports eight
    available objects, not five. *)
Lemma available_objects_is_not_the_tier_lengths :
  let snap := Snapshot.GetPoolStatsSnapshot (snapPool 0 0 0) in
  Snapshot.AvailableObjects snap = 8
  /\ Snapshot.L1Length snap + Snapshot.RingBufferLength snap = 5.
Proof. split; reflexivity. Qed.

Lemma snapshot_sample :
  let snap := Snapshot.GetPoolStatsSnapshot (snapPool 4 2 1) in
  Snapshot.ObjectsInUse snap = 1
  /\ Snapshot.AvailableObjects snap = 7
  /\ (Snapshot.L2SpillRate snap == 1 # 3)%Q.
Proof.
  destruct (snapshot_available_is_capacity_less_in_use nat (snapPool 4 2 1))
    as (A & B & _ & _ & C); cbn; try lia.
  cbv zeta. split; [exact A |]. split; [exact B |].
  rewrite C by (cbn; lia). reflexivity.
Defined.

(** C8 at a quiescent snapshot of four requests. *)
Lemma Validate_sample :
  snd (Snapshot.Validate
         (Snapshot.GetPoolStatsSnapshot (snapPool 4 3 1)) 4) = None.
Proof.
  assert (Hr : inU64 (3 + 1)) by (unfold inU64; lia).
  assert (Hq : 0 <= 4 < 2 ^ 63) by lia.
  apply (proj1 (Validate_accepts_exactly
                  (Snapshot.GetPoolStatsSnapshot (snapPool 4 3 1)) 4 Hr Hq)).
  repeat split.
Defined.

(** X1 and X2 at an L2 of three values and an L1 with one free slot, for
    a fill target of two. *)
Lemma refill_conserves_values_sample :
  exists res p',
    refill silent (grow indefinite alloc) 7 2 (poolOf 4 0 [9]%nat [1; 2; 3]%nat)
    = Some (res, p')
    /\ Permutation (chItems (cacheL1 p') ++ rbItems (pool p'))
                   [9; 1; 2; 3]%nat
    /\ ItemsMoved res + ItemsFailed res = 2.
Proof.
  assert (Hf : 0 <= 2 < 2 ^ 63) by lia.
  assert (Hc : Length (pool (poolOf 4 0 [9]%nat [1; 2; 3]%nat))
               <= rbCap (pool (poolOf 4 0 [9]%nat [1; 2; 3]%nat)))
    by (cbn; lia).
  assert (Hl : 2 <= Length (pool (poolOf 4 0 [9]%nat [1; 2; 3]%nat))
               /\ 0 < Length (pool (poolOf 4 0 [9]%nat [1; 2; 3]%nat))
               /\ poolOf 4 0 [9]%nat [1; 2; 3]%nat
                  = poolOf 4 0 [9]%nat [1; 2; 3]%nat)
    by (cbn; repeat split; lia).
  destruct (refill_conserves_values nat silent (grow indefinite alloc) 7 2
              (poolOf 4 0 [9]%nat [1; 2; 3]%nat)
              (poolOf 4 0 [9]%nat [1; 2; 3]%nat) Hf Hc (or_introl Hl))
    as (res & p' & A & B & C).
  exists res, p'. split; [exact A |]. split; [exact B | exact C].
Defined.

Lemma refill_respects_capacities_sample :
  exists res p',
    refill silent (grow indefinite alloc) 7 2 (poolOf 4 0 [9]%nat [1; 2; 3]%nat)
    = Some (res, p')
    /\ chLen (cacheL1 p') <= 2
    /\ Length (pool p') <= 4.
Proof.
  assert (Hf : 0 <= 2 < 2 ^ 63) by lia.
  assert (H1 : chLen (cacheL1 (poolOf 4 0 [9]%nat [1; 2; 3]%nat))
               <= chCap (cacheL1 (poolOf 4 0 [9]%nat [1; 2; 3]%nat)))
    by (cbn; lia).
  assert (Hc : Length (pool (poolOf 4 0 [9]%nat [1; 2; 3]%nat))
               <= rbCap (pool (poolOf 4 0 [9]%nat [1; 2; 3]%nat)))
    by (cbn; lia).
  assert (Hl : 2 <= Length (pool (poolOf 4 0 [9]%nat [1; 2; 3]%nat))
               /\ 0 < Length (pool (poolOf 4 0 [9]%nat [1; 2; 3]%nat))
               /\ poolOf 4 0 [9]%nat [1; 2; 3]%nat
                  = poolOf 4 0 [9]%nat [1; 2; 3]%nat)
    by (cbn; repeat split; lia).
  destruct (refill_respects_capacities nat silent (grow indefinite alloc) 7 2
              (poolOf 4 0 [9]%nat [1; 2; 3]%nat)
              (poolOf 4 0 [9]%nat [1; 2; 3]%nat) Hf H1 Hc (or_introl Hl))
    as (res & p' & A & B & C & D & E).
  exists res, p'. split; [exact A |].
  rewrite D in B. rewrite E in C. split; [exact B | exact C].
Defined.

(** X3 at a fill target of zero, with a ring buffer that answers a
    request for no items with a [nil] slice, with an empty slice, and
    with an error. *)
Lemma refill_returns_without_moving_sample :
  (exists res p',
     refill silent (grow indefinite alloc) 7 0 (poolOf 4 0 [] [1]%nat)
     = Some (res, p')
     /\ Reason res = ReasonNoItemsToMove
     /\ ItemsMoved res = 0
     /\ pool p' = pool (poolOf 4 0 [] [1]%nat))
  /\ (exists res p',
        refill emptySlice (grow indefinite alloc) 7 0
          (poolOf 4 0 [] [1]%nat)
        = Some (res, p')
        /\ Reason res = ReasonRefillSucceeded
        /\ ItemsMoved res = 0
        /\ pool p' = pool (poolOf 4 0 [] [1]%nat))
  /\ (exists res p',
        refill invalidLength (grow indefinite alloc) 7 0
          (poolOf 4 0 [] [1]%nat)
        = Some (res, p')
        /\ Reason res = ReasonRingBufferError ErrInvalidLength
        /\ ItemsMoved res = 0
        /\ pool p' = pool (poolOf 4 0 [] [1]%nat)).
Proof.
  assert (H0 : 0 <= 0) by lia.
  assert (H1 : 0 < Length (pool (poolOf 4 0 [] [1]%nat))) by (cbn; lia).
  split; [| split].
  - destruct (proj1 (refill_returns_without_moving nat silent
                       (grow indefinite alloc) 7 0
                       (poolOf 4 0 [] [1]%nat) (poolOf 4 0 [] [1]%nat))
                H0 H1)
      as (res & p' & A & (B & _) & C & _ & _ & _ & D & _).
    exists res, p'. repeat split; assumption.
  - destruct (proj1 (refill_returns_without_moving nat emptySlice
                       (grow indefinite alloc) 7 0
                       (poolOf 4 0 [] [1]%nat) (poolOf 4 0 [] [1]%nat))
                H0 H1)
      as (res & p' & A & (B & _) & C & _ & _ & _ & D & _).
    exists res, p'. repeat split; assumption.
  - destruct (proj1 (refill_returns_without_moving nat invalidLength
                       (grow indefinite alloc) 7 0
                       (poolOf 4 0 [] [1]%nat) (poolOf 4 0 [] [1]%nat))
                H0 H1)
      as (res & p' & A & (B & _) & C & _ & _ & _ & D & _).
    exists res, p'. repeat split; assumption.
Defined.

(** X4 at a pool of capacity four, nothing in use, all four values in
    the ring buffer. *)
Lemma ShrinkExecution_capacity_bounds_sample :
  currentCapacity (stats shrunkPool) = 4
  \/ (1 <= currentCapacity (stats shrunkPool) < 4
      /\ 0 < currentCapacity (stats shrunkPool)
      /\ rbCap (pool shrunkPool) = currentCapacity (stats shrunkPool)).
Proof.
  assert (H4 : inU64 4) by (unfold inU64; lia).
  assert (H1 : 0 <= 1 < 2 ^ 63) by lia.
  exact (ShrinkExecution_capacity_bounds nat indefinite silent 7
           (poolOf 4 0 [] [1; 2; 3; 4]%nat) shrunkPool H4 H1 eq_refl).
Defined.

(** X9 at a ring buffer of four values shrunk to capacity three with one
    object in use. *)
Lemma performShrink_fits_or_aborts_sample :
  let p := poolOf 4 1 [] [1; 2; 3; 4]%nat in
  let p' := performShrink silent 7 p 3 1 4 in
  (3 <= 1 /\ p' = p)
  \/ (1 < 3
      /\ Length (pool p') + 1 <= 3
      /\ rbCap (pool p') = 3
      /\ currentCapacity (stats p') = 3
      /\ (exists dropped, rbItems (pool p) = rbItems (pool p') ++ dropped)
      /\ cacheL1 p' = cacheL1 p
      /\ cleaned p' = cleaned p).
Proof.
  assert (Hu : 0 <= 1 < 2 ^ 63) by lia.
  assert (Hn : 0 <= 3 < 2 ^ 63) by lia.
  exact (performShrink_fits_or_aborts nat silent 7
           (poolOf 4 1 [] [1; 2; 3; 4]%nat) 3 1 4 Hu Hn).
Defined.

(** X5 at an L1 of two values shrunk to one slot. *)
Lemma shrinkFastPath_keeps_a_prefix_sample :
  exists p',
    shrinkFastPath (poolOf 4 0 [1; 2]%nat []) 1 0 = Some p'
    /\ chItems (cacheL1 p') = [1]%nat
    /\ chCap (cacheL1 p') = 1.
Proof.
  assert (H0 : 0 <= 0) by lia.
  assert (H1 : 0 < 1 < 2 ^ 63) by lia.
  destruct (shrinkFastPath_keeps_a_prefix nat
              (poolOf 4 0 [1; 2]%nat []) 1 0 H0 H1)
    as (p' & A & B & C & _).
  exists p'. split; [exact A |]. split; [exact B | exact C].
Defined.

(** X6 at an L1 capacity of two, shrunk by one half with a minimum of
    one; and at a capacity of [2^53 + 3] with a shrink percentage of
    zero, where the conversion of the capacity to float64 rounds to
    [2^53 + 4], above the capacity. *)
Lemma adjustFastPathShrinkTarget_sample :
  adjustFastPathShrinkTarget indefinite (poolOf 4 0 [] []) 2 = 1
  /\ adjustFastPathShrinkTarget indefinite steadyPool (2 ^ 53 + 3)
     = 2 ^ 53 + 4.
Proof.
  split.
  - rewrite (proj2 (proj2 (proj2
               (adjustFastPathShrinkTarget_at_least_minimum nat indefinite
                  (poolOf 4 0 [] []) 2)))); evaluated.
  - rewrite (proj2 (proj2 (proj2
               (adjustFastPathShrinkTarget_at_least_minimum nat indefinite
                  steadyPool (2 ^ 53 + 3))))); evaluated.
Defined.

(** X7 at a full L1 of two slots after one growth event: the resize
    gives three slots and keeps both values. *)
Lemma tryL1ResizeIfTriggered_keeps_values_sample :
  chItems (cacheL1 resizedPool) = [1; 2]%nat
  /\ chCap (cacheL1 resizedPool) = 3
  /\ tryL1ResizeIfTriggered indefinite resizedPool = Some resizedPool.
Proof.
  assert (Ht : 0 < 1 < 2 ^ 63) by lia.
  destruct (tryL1ResizeIfTriggered_keeps_values nat indefinite channelPool
              resizedPool
              Ht eq_refl) as (A & _ & C).
  split; [exact A |]. split; [reflexivity | exact C].
Defined.

(** X8 at the hard limit of eight: a target of nine from a capacity of
    six is clamped, not refused; a target of seven is neither. *)
Lemma hard_limit_tests_are_exclusive_sample :
  xorb (growthWouldExceedHardLimit (poolOf 6 0 [] []) 9)
       (needsToShrinkToHardLimit (poolOf 6 0 [] []) 6 9) = true
  /\ growthWouldExceedHardLimit (poolOf 6 0 [] []) 7 = false.
Proof.
  assert (H9 : 8 < 9) by lia.
  assert (H7 : 7 <= 8) by lia.
  split.
  - exact (proj1 (hard_limit_tests_are_exclusive nat (poolOf 6 0 [] []) 9)
             H9).
  - exact (proj1 (proj2 (hard_limit_tests_are_exclusive nat
                           (poolOf 6 0 [] []) 7) H7)).
Defined.

(** X10 at three idle ticks from a counter of zero. *)
Lemma idleTicks_count_up_sample :
  idleTicks [10; 11; 12] (poolOf 4 0 [] []) 0 false = (3, true).
Proof.
  assert (H0 : 0 <= 0) by lia.
  assert (H3 : 0 + 3 < 2 ^ 63) by lia.
  assert (Hi : Forall (fun now =>
                 idleThreshold (shrink (config (poolOf 4 0 [] [])))
                 <= now - lastTimeCalledGet (stats (poolOf 4 0 [] [])))
                 [10; 11; 12]).
  { repeat (apply Forall_cons; [cbn; lia |]). apply Forall_nil. }
  exact (idleTicks_count_up nat [10; 11; 12] (poolOf 4 0 [] []) 0 false
           H0 H3 Hi).
Defined.

(** X11 and X12 at a pool with one object in use, five gets and a peak
    of one. *)
Lemma updateUsageStats_counts_sample :
  exists p',
    updateUsageStats 1 (poolOf 4 1 [] []) 5 1 = Some (p', 6, 2)
    /\ objectsInUse (stats p') = 2.
Proof.
  assert (Hu : 0 <= 1 < 2 ^ 64 - 1) by lia.
  assert (Hg : inU64 (5 + 1)) by (unfold inU64; lia).
  assert (Hs : inU64 0) by (unfold inU64; lia).
  destruct (updateUsageStats_counts nat 0%nat (poolOf 4 1 [] []) 5 1
              Hu Hg Hs) as (p' & A & B & _).
  exists p'. split; [exact A | exact B].
Defined.

Lemma releaseObj_undoes_updateUsageStats_sample :
  exists p1 p2 peak,
    updateUsageStats 1 (poolOf 4 1 [] []) 5 1 = Some (p1, 6, peak)
    /\ releaseObj 1 9%nat p1 = Some p2
    /\ objectsInUse (stats p2) = 1
    /\ cleaned p2 = [9]%nat.
Proof.
  assert (Hu : 0 <= 1 < 2 ^ 64 - 1) by lia.
  assert (Hg : inU64 (5 + 1)) by (unfold inU64; lia).
  assert (Hs : inU64 0) by (unfold inU64; lia).
  destruct (releaseObj_undoes_updateUsageStats nat 0%nat 9%nat
              (poolOf 4 1 [] []) 5 1 Hu Hg Hs)
    as (p1 & p2 & peak & A & B & C & _ & D).
  exists p1, p2, peak. repeat split; assumption.
Defined.

(** X14 at an idle pool that holds three values. *)
Lemma UtilizationCheck_extremes_sample :
  UtilizationCheck watchedShrink (poolOf 4 0 [1]%nat [2; 3]%nat)
    0 false
  = (3, 1, false).
Proof.
  assert (Hr : 0 <= 0 < 2 ^ 63 - 1) by lia.
  assert (H0 : 0 <= 0) by lia.
  assert (Ht : 0 + (2 + 1) < 2 ^ 64) by lia.
  assert (Hq : (0 <= 3 # 10)%Q) by discriminate.
  exact (proj1 (proj2 (UtilizationCheck_extremes nat watchedShrink
                         (poolOf 4 0 [1]%nat [2; 3]%nat) 0 false
                         Hr H0 Ht))
           eq_refl Hq).
Defined.

(** X15 at a capacity of four: against an initial capacity of two the
    six gets are spread over two objects, against one of six over
    [2^64 - 2]. *)
Lemma updateDerivedStats_reqPerObj_sample :
  fst (updateDerivedStats (poolOf 4 0 [] []) 6 0 2 0 0)
  = (inject_Z 6 / inject_Z 2)%Q
  /\ fst (updateDerivedStats (poolOf 4 0 [] []) 6 0 6 0 0)
     = (inject_Z 6 / inject_Z (2 ^ 64 - 2))%Q.
Proof.
  assert (H4 : inU64 4) by (unfold inU64; lia).
  assert (H2 : 0 <= 2 < 2 ^ 63) by lia.
  assert (H6 : 0 <= 6 < 2 ^ 63) by lia.
  assert (Hlt : 2 < 4) by lia.
  assert (Hgt : 4 < 6) by lia.
  split.
  - exact (proj1 (updateDerivedStats_reqPerObj nat (poolOf 4 0 [] [])
                    6 0 2 0 0 H4 H2) Hlt).
  - exact (proj2 (proj2 (updateDerivedStats_reqPerObj nat (poolOf 4 0 [] [])
                           6 0 6 0 0 H4 H6)) Hgt).
Defined.

(** X16 at three objects of which two go to L1. *)
Lemma setPoolAndBufferAll_splits_sample :
  exists p',
    setPoolAndBufferAll [1; 2; 3]%nat (poolOf 4 0 [] []) 2 = Some (p', 0)
    /\ chItems (cacheL1 p') = [1; 2]%nat
    /\ rbItems (pool p') = [3]%nat.
Proof.
  assert (Hk : 0 <= 2 < 2 ^ 63) by lia.
  assert (H1 : chLen (cacheL1 (poolOf 4 0 [] [])) + Z.min 2 3
               <= chCap (cacheL1 (poolOf 4 0 [] []))) by (cbn; lia).
  assert (H2 : Length (pool (poolOf 4 0 [] [])) + (3 - Z.min 2 3)
               <= rbCap (pool (poolOf 4 0 [] []))) by (cbn; lia).
  destruct (setPoolAndBufferAll_splits nat [1; 2; 3]%nat
              (poolOf 4 0 [] []) 2 Hk H1 H2) as (p' & A & B & C & _).
  exists p'. split; [exact A |]. split; [exact B | exact C].
Defined.

(** X17 at a full L1. *)
Lemma setPoolAndBuffer_blocks_or_drops_sample :
  setPoolAndBuffer (poolOf 4 0 [1; 2]%nat []) 3%nat 1 = None.
Proof.
  assert (H1 : 0 < 1) by lia.
  assert (Hf : chCap (cacheL1 (poolOf 4 0 [1; 2]%nat []))
               <= chLen (cacheL1 (poolOf 4 0 [1; 2]%nat []))) by (cbn; lia).
  exact (proj1 (setPoolAndBuffer_blocks_or_drops nat
                  (poolOf 4 0 [1; 2]%nat []) 3%nat 1) H1 Hf).
Defined.

(** X26 at a quiescent pool of four requests. *)
Lemma Validate_of_snapshot_sample :
  snd (Snapshot.Validate
         (Snapshot.GetPoolStatsSnapshot (snapPool 4 3 1)) 4) = None.
Proof.
  assert (H3 : 0 <= 3) by lia.
  assert (H1 : 0 <= 1) by lia.
  assert (Hs : 3 + 1 < 2 ^ 64) by lia.
  assert (Hq : 0 <= 4 < 2 ^ 63) by lia.
  assert (Hc : inInt 8) by (unfold inInt; lia).
  apply (proj1 (Validate_of_snapshot nat (snapPool 4 3 1) 4
                  H3 H1 Hs Hq Hc)).
  split; reflexivity.
Defined.

(** X27 at two fast returns and one spilled. *)
Lemma snapshot_spill_rate_bounds_sample :
  let rate :=
    Snapshot.L2SpillRate (Snapshot.GetPoolStatsSnapshot (snapPool 4 2 1)) in
  (0 <= rate)%Q /\ (rate <= 1)%Q.
Proof.
  assert (H2 : 0 <= 2) by lia.
  assert (H1 : 0 <= 1) by lia.
  assert (Hs : 2 + 1 < 2 ^ 64) by lia.
  destruct (snapshot_spill_rate_bounds nat (snapPool 4 2 1) H2 H1 Hs)
    as (A & B & _).
  split; [exact A | exact B].
Defined.

(** X28 at one get and three returns. *)
Lemma snapshot_in_use_wraps_sample :
  Snapshot.ObjectsInUse (Snapshot.GetPoolStatsSnapshot (snapPool 1 2 1))
  = 2 ^ 64 - 2.
Proof.
  assert (H2 : 0 <= 2) by lia.
  assert (H1 : 0 <= 1) by lia.
  assert (Hs : 2 + 1 < 2 ^ 64) by lia.
  assert (Hg : 0 <= 1 < 2 + 1) by lia.
  exact (proj1 (snapshot_in_use_wraps nat (snapPool 1 2 1) 1 H2 H1 Hs Hg)).
Defined.

(** X13 at a peak of one and two goroutines that carry three and two;
    the second one's swap fails and it loads again. *)
Lemma peak_is_the_maximum_sample :
  fst (PeakLoop.run [0; 1; 0; 1; 1; 1]%nat 1 (PeakLoop.start [3; 2])) = 3.
Proof.
  destruct (peak_is_the_maximum 1 [3; 2] [0; 1; 0; 1; 1; 1]%nat
              (fst (PeakLoop.run [0; 1; 0; 1; 1; 1]%nat 1
                      (PeakLoop.start [3; 2])))
              (snd (PeakLoop.run [0; 1; 0; 1; 1; 1]%nat 1
                      (PeakLoop.start [3; 2])))
              eq_refl) as (_ & _ & _ & A).
  exact (A eq_refl).
Defined.

(** X18 at a level of nine, above the extreme of five. *)
Lemma ApplyDefaults_overwrites_sample :
  let sp' :=
    Shrink.ApplyDefaults levels (Shrink.defaultShrinkMap levels)
      (Shrink.setLevel 9 (customShrink false)) in
  0 <= Shrink.aggressivenessLevel sp' <= 5
  /\ Shrink.enforceCustomConfig sp' = false.
Proof.
  assert (H : 0 <= 5) by lia.
  destruct (ApplyDefaults_overwrites float64 levels
              (Shrink.defaultShrinkMap levels)
              (Shrink.setLevel 9 (customShrink false)) H) as (A & B & _).
  split; [exact A | exact B].
Defined.

(** X20 and X21 at the sample builder, without and with custom shrink
    values, and X20 at the same builder with growth factors that are
    not numbers, which [Build] accepts. *)
Lemma Build_accepts_only_valid_sample :
  0 < Builder.initialCapacity (Builder.config (builder false))
    <= Builder.hardLimit (Builder.config (builder false))
  /\ Float64.lt Float64.zero
       (growthPercent (Builder.growth (Builder.config (builder false))))
  /\ Builder.Build (Builder.withGrowth notNumbers (builder false))
     = inr (Builder.config (Builder.withGrowth notNumbers (builder false)))
  /\ Float64.positiveOrNaN
       (growthPercent
          (Builder.growth
             (Builder.config
                (Builder.withGrowth notNumbers (builder false))))).
Proof.
  assert (Hacc : Builder.Build (Builder.withGrowth notNumbers (builder false))
                 = inr (Builder.config
                          (Builder.withGrowth notNumbers (builder false))))
    by reflexivity.
  destruct (Build_accepts_only_valid (builder false)
              (Builder.config (builder false)) eq_refl)
    as (_ & A & _ & _ & _ & _ & [B | B] & _); [discriminate B |].
  destruct (Build_accepts_only_valid _ _ Hacc)
    as (_ & _ & _ & _ & _ & _ & C & _).
  split; [exact A |]. split; [exact B |]. split; [exact Hacc | exact C].
Defined.

Lemma Build_enforces_custom_shrink_sample :
  0 < Shrink.minCapacity (Builder.shrink (Builder.config (builder true)))
    <= Builder.initialCapacity (Builder.config (builder true)).
Proof.
  destruct (Build_enforces_custom_shrink (builder true)
              (Builder.config (builder true)) eq_refl eq_refl)
    as (_ & _ & _ & A & _).
  exact A.
Defined.

(** X22 at an initial capacity of zero and at a hard limit of four under
    a capacity of eight. *)
Lemma Build_rejects_bad_capacities_sample :
  Builder.Build (Builder.SetInitialCapacity 0 (builder false))
  = inl Builder.ErrInitialCapacity
  /\ Builder.Build (Builder.SetHardLimit 4 (builder false))
     = inl Builder.ErrHardLimitBelowInitial.
Proof.
  assert (H0 : 0 <= 0) by lia.
  assert (H4 : 0 < 4 < 8) by lia.
  split.
  - exact (proj1 (Build_rejects_bad_capacities (builder false) 0) H0).
  - exact (proj2 (proj2 (Build_rejects_bad_capacities (builder false) 4))
             H4).
Defined.

(** X23 at a factor of two and at a NaN. *)
Lemma growth_setters_keep_factors_positive_sample :
  Float64.lt Float64.zero
    (fixedGrowthFactor
       (Builder.growth
          (Builder.config
             (Builder.SetFixedGrowthFactor (Float64.ofInt 2)
                (builder false)))))
  /\ Builder.SetGrowthPercent S754_nan (builder false) = builder false.
Proof.
  assert (Hp : Float64.lt Float64.zero half) by reflexivity.
  assert (H0 : Float64.ltb Float64.zero S754_nan = false) by reflexivity.
  destruct (growth_setters_keep_factors_positive (builder false)
              (Float64.ofInt 2)) as [A _].
  destruct (growth_setters_keep_factors_positive (builder false) S754_nan)
    as [_ B].
  split.
  - exact (proj2 (proj2 (proj2 (proj2 (A (conj Hp (conj Hp Hp))))))).
  - exact (proj1 (proj2 (B H0))).
Defined.

(** X24 at level three on a builder without custom values, and on one
    with them. *)
Lemma SetShrinkAggressiveness_sets_both_sample :
  (exists b',
     Builder.SetShrinkAggressiveness levels 3 (builder false) = Some b'
     /\ Shrink.aggressivenessLevel (Builder.shrink (Builder.config b')) = 3
     /\ Shrink.minCapacity
          (Builder.FP.shrink (Builder.fastPath (Builder.config b'))) = 4)
  /\ Builder.SetShrinkAggressiveness levels 3 (builder true) = None.
Proof.
  split.
  - eexists. split; [reflexivity |].
    destruct (proj2 (SetShrinkAggressiveness_sets_both levels 3
                       (builder false)) _ eq_refl)
      as (A & _ & _ & _ & B & _).
    split; [exact A | exact B].
  - apply (proj1 (SetShrinkAggressiveness_sets_both levels 3 (builder true))).
    left. reflexivity.
Defined.

(** X25 at the sample builder. *)
Lemma EnforceCustomConfig_locks_aggressiveness_sample :
  Builder.SetShrinkAggressiveness levels 3
    (Builder.EnforceCustomConfig levels (builder false)) = None.
Proof.
  assert (H : 0 <= 5) by lia.
  exact (proj2 (proj2 (EnforceCustomConfig_locks_aggressiveness levels
                         (builder false) 3 H))).
Defined.

(** X29 at level three, which the sample table knows. *)
Lemma SetFastPathShrinkAggressiveness_sample :
  exists b',
    Builder.SetFastPathShrinkAggressiveness levels 3 (builder false)
    = Some b'
    /\ Builder.shrink (Builder.config b')
       = Builder.shrink (Builder.config (builder false))
    /\ Shrink.minCapacity
         (Builder.FP.shrink (Builder.fastPath (Builder.config b'))) = 8.
Proof.
  eexists. split; [reflexivity |].
  destruct (proj2 (SetFastPathShrinkAggressiveness_sets_fast_path_only
                     levels 3 (builder false)) _ eq_refl)
    as (A & _ & _ & _ & _ & _ & B & _).
  split; [exact A | exact (proj1 (B balanced eq_refl))].
Defined.

(** X30 at the sample builder with shrink parameters that would not
    pass were they enforced. *)
Lemma Build_skips_shrink_checks_sample :
  match Builder.Build (builder false),
        Builder.Build (Builder.withShrink uncheckedShrink (builder false))
  with
  | inl e, inl e' => e = e'
  | inr c, inr c' =>
      c = Builder.config (builder false)
      /\ c' = Builder.config
                (Builder.withShrink uncheckedShrink (builder false))
  | _, _ => False
  end.
Proof.
  exact (Build_skips_shrink_checks_unless_enforced (builder false)
           uncheckedShrink eq_refl eq_refl eq_refl).
Defined.

End Instances.
